(** * Hospital patient register: the record store of [patient_management.c]

    A shallow embedding of the linked-list patient store, of its
    persistence to [patients.dat], [discharged_patients.dat] and
    [room_usage.txt], and of the timeframe and room-usage reports.

    Conventions of the model.
    - C [int] values are integers of [Z] kept in the 32-bit signed range
      by [wrap_int] at every [++] and [--]; [time_t] values are seconds
      in [Z].
    - A [PatientNode *] is the list of the [data] fields of the nodes it
      reaches; [NULL] is [nil].
    - A file is [None] when it does not exist and [Some contents]
      otherwise.  [patients.dat] and [patients.tmp] hold bytes, the
      archive holds the [DischargedPatient] items written to it, the
      usage log holds text.
    - A library call can fail exactly where the source tests its result
      ([fopen], [malloc], the [fwrite] and [fclose] of the checked
      paths, [remove] and [rename] of the primary file); the outcome is
      an argument of the operation.  A call whose result the source
      ignores goes through.
    - Console output is not part of the state. *)

From Stdlib Require Import ZArith Bool String Ascii DecimalString DecimalZ
  DecimalPos List Lia Sorted Permutation.
From Stdlib.Strings Require Import Byte.
Import ListNotations.
Local Open Scope Z_scope.

(** ** Machine integers *)

Definition INT_MAX : Z := 2147483647.
Definition INT_MIN : Z := -2147483648.

(** The value an [int] holds after an arithmetic result [z]. *)
Definition wrap_int (z : Z) : Z := (z + 2147483648) mod 4294967296 - 2147483648.

(** ** Constants of the source *)

Definition IS_EMPTY : Z := 0.
Definition DEFAULT_ID : Z := 1.
Definition ROOM_UNOCCUPIED : Z := -1.

(** [IS_VALID] and [IS_NOT_VALID] come from the absent [utils.h]; the
    source only compares against them. *)
Inductive Validity : Type := IS_VALID | IS_NOT_VALID.

(** Modelled from the spec: the room range of the absent [patient_data.h]
    ("roomNumber: integer within a fixed valid range (e.g., 1-50)"); the
    room-usage report of the source hard-codes the same bounds. *)
Definition MIN_ROOM_NUMBER : Z := 1.
Definition MAX_ROOM_NUMBER : Z := 50.

(** ** Records *)

(** The fields of [Patient] that the source reads and writes. *)
Record Patient : Type := mkPatient {
  patientId : Z;
  name : string;
  ageInYears : Z;
  diagnosis : string;
  roomNumber : Z;
  admissionDate : Z
}.

Record DischargedPatient : Type := mkDischarged {
  patient : Patient;
  dischargeDate : Z
}.

(** Modelled from the spec: [createPatient] of the absent
    [patient_data.c] ("assigns id = counter, ..., sets admission
    timestamp to current time"); [now] is the value of [time(NULL)]. *)
Definition createPatient (patientName : string) (patientAge : Z)
    (patientDiagnosis : string) (room : Z) (id : Z) (now : Z) : Patient :=
  {| patientId := id; name := patientName; ageInYears := patientAge;
     diagnosis := patientDiagnosis; roomNumber := room;
     admissionDate := now |}.

(** Modelled from the spec: [validateRoomNumber] of the absent
    [patient_data.c] ("validateRoom(n): valid iff n in [1, maxRoom]"); the
    array variant [patient.c] has the same test. *)
Definition validateRoomNumber (room : Z) : Validity :=
  if (room <? MIN_ROOM_NUMBER) || (room >? MAX_ROOM_NUMBER)
  then IS_NOT_VALID else IS_VALID.

(** ** Binary layout of a record

    [fwrite (&p, sizeof (Patient), 1, f)] puts [encode_Patient p] on the
    file and [fread] rebuilds a record from [sizeof_Patient] bytes.  The
    struct declaration is not part of the sources, so the layout is a
    parameter. *)
Class PatientLayout : Type := {
  sizeof_Patient : nat;
  encode_Patient : Patient -> list byte;
  decode_Patient : list byte -> Patient;
  sizeof_Patient_pos : (0 < sizeof_Patient)%nat;
  encode_Patient_length : forall p, length (encode_Patient p) = sizeof_Patient
}.

(** ** The linked list *)

(** The walk to the last node of [insertPatientAtEndOfList]. *)
Fixpoint link_at_end (current : list Patient) (data : Patient) : list Patient :=
  match current with
  | [] => [data]
  | node :: nextNode => node :: link_at_end nextNode data
  end.

(** [malloc_ok = false] is the [NULL] result of [malloc]: the function
    returns [NULL]. *)
Definition insertPatientAtEndOfList (head : list Patient) (data : Patient)
    (malloc_ok : bool) : list Patient :=
  if malloc_ok then
    match head with
    | [] => [data]
    | _ :: _ => link_at_end head data
    end
  else [].

Fixpoint isRoomOccupiedInList (room : Z) (head : list Patient) : Z :=
  match head with
  | [] => ROOM_UNOCCUPIED
  | current :: nextNode =>
      if roomNumber current =? room then 1
      else isRoomOccupiedInList room nextNode
  end.

Fixpoint max_id_from (maxId : Z) (current : list Patient) : Z :=
  match current with
  | [] => maxId
  | node :: nextNode =>
      max_id_from (if patientId node >? maxId then patientId node else maxId)
                  nextNode
  end.

Definition computeNextPatientId (head : list Patient) : Z :=
  wrap_int (max_id_from 0 head + 1).

Fixpoint getPatientFromList (id : Z) (head : list Patient) : option Patient :=
  match head with
  | [] => None
  | current :: nextNode =>
      if patientId current =? id then Some current
      else getPatientFromList id nextNode
  end.

(** The search-and-unlink loop of [removePatientFromSystem]: the list
    without its first node of the given ID, or [None] when no node has
    it. *)
Fixpoint unlink_by_id (id : Z) (current : list Patient) : option (list Patient) :=
  match current with
  | [] => None
  | node :: nextNode =>
      if patientId node =? id then Some nextNode
      else match unlink_by_id id nextNode with
           | Some rest => Some (node :: rest)
           | None => None
           end
  end.

(** The records [viewPatientRecords] prints, in the order it prints
    them. *)
Fixpoint viewPatientRecords (patientHead : list Patient) : list Patient :=
  match patientHead with
  | [] => []
  | current :: nextNode => current :: viewPatientRecords nextNode
  end.

(** ** The store: the globals of the source and the files it owns *)

Record State : Type := mkState {
  patientHead : list Patient;
  totalPatients : Z;
  patientIDCounter : Z;
  patients_dat : option (list byte);
  patients_tmp : option (list byte);
  discharged_patients_dat : option (list DischargedPatient);
  room_usage_txt : option string
}.

Definition set_memory (st : State) (head : list Patient) (total counter : Z) : State :=
  {| patientHead := head; totalPatients := total; patientIDCounter := counter;
     patients_dat := patients_dat st; patients_tmp := patients_tmp st;
     discharged_patients_dat := discharged_patients_dat st;
     room_usage_txt := room_usage_txt st |}.

Definition set_patients_files (st : State) (dat tmp : option (list byte)) : State :=
  {| patientHead := patientHead st; totalPatients := totalPatients st;
     patientIDCounter := patientIDCounter st;
     patients_dat := dat; patients_tmp := tmp;
     discharged_patients_dat := discharged_patients_dat st;
     room_usage_txt := room_usage_txt st |}.

Definition set_archive (st : State) (archive : option (list DischargedPatient)) : State :=
  {| patientHead := patientHead st; totalPatients := totalPatients st;
     patientIDCounter := patientIDCounter st;
     patients_dat := patients_dat st; patients_tmp := patients_tmp st;
     discharged_patients_dat := archive;
     room_usage_txt := room_usage_txt st |}.

Definition set_room_usage (st : State) (log : option string) : State :=
  {| patientHead := patientHead st; totalPatients := totalPatients st;
     patientIDCounter := patientIDCounter st;
     patients_dat := patients_dat st; patients_tmp := patients_tmp st;
     discharged_patients_dat := discharged_patients_dat st;
     room_usage_txt := log |}.

(** What [fopen (..., "a")] and [fopen (..., "ab")] find: the contents of
    the file, created empty when it does not exist. *)
Definition opened_for_append {A : Type} (file : option (list A)) : list A :=
  match file with
  | Some contents => contents
  | None => []
  end.

Definition initializePatientSystemDefault (st : State) : State :=
  set_memory st [] IS_EMPTY DEFAULT_ID.

Definition clearMemory (st : State) : State :=
  set_memory st [] IS_EMPTY DEFAULT_ID.

(** ** Input of the room prompt *)

(** One answer to "Enter Patient Room:": text that [scanf ("%d")] cannot
    convert, or a number. *)
Inductive RoomEntry : Type :=
| NotANumber
| Entered (room : Z).

(** One pass through the body of the [do ... while] of [getRoomNumber]:
    the value of [isValid] when the loop condition is tested. *)
Definition room_prompt (entry : RoomEntry) (patientHead : list Patient) : Validity :=
  match entry with
  | NotANumber => IS_NOT_VALID
  | Entered room =>
      match validateRoomNumber room with
      | IS_NOT_VALID => IS_NOT_VALID
      | IS_VALID =>
          if negb (isRoomOccupiedInList room patientHead =? ROOM_UNOCCUPIED)
          then IS_NOT_VALID else IS_VALID
      end
  end.

(** [getRoomNumber]: the room left in [*roomNumber] and the answers not
    yet read; [None] when the answers run out before one is accepted
    (the source keeps prompting). *)
Fixpoint getRoomNumber (answers : list RoomEntry) (patientHead : list Patient)
    : option (Z * list RoomEntry) :=
  match answers with
  | [] => None
  | entry :: later =>
      match room_prompt entry patientHead, entry with
      | IS_VALID, Entered room => Some (room, later)
      | _, _ => getRoomNumber later patientHead
      end
  end.

(** [confirmDischarge]: [confirm] is the character [scanf (" %c")]
    stores. *)
Definition confirmDischarge (confirm : ascii) : bool :=
  Ascii.eqb confirm "y".

(** Outcomes of the library calls of [initializePatientSystem]. *)
Record LoadIO : Type := mkLoadIO {
  load_open_ok : bool;             (* fopen ("patients.dat", "rb") *)
  load_malloc_ok : nat -> bool;    (* malloc for the k-th record read *)
  load_clear_open_ok : bool        (* fopen (fileName, "wb") of clearBinaryFile *)
}.

(** Outcomes of the library calls of [updatePatientsFile]. *)
Record UpdateIO : Type := mkUpdateIO {
  tmp_open_ok : bool;              (* fopen ("patients.tmp", "wb") *)
  tmp_write_ok : nat -> bool;      (* fwrite of the k-th node *)
  tmp_close_ok : bool;             (* fclose (pTemp) *)
  dat_remove_ok : bool;            (* remove ("patients.dat") on an existing file *)
  dat_rename_ok : bool             (* rename ("patients.tmp", "patients.dat") *)
}.

(** What the operator and the environment supply to one
    [addPatientRecord]: the name, age and diagnosis that their prompts
    return, the answers to the room prompt, the clock, and the outcomes
    of [malloc] and of [fopen ("patients.dat", "ab")]. *)
Record AdmitInput : Type := mkAdmitInput {
  adm_name : string;
  adm_age : Z;
  adm_diagnosis : string;
  adm_rooms : list RoomEntry;
  adm_now : Z;
  adm_malloc_ok : bool;
  adm_append_open_ok : bool
}.

(** What the operator and the environment supply to one
    [dischargePatient]. *)
Record DischargeInput : Type := mkDischargeInput {
  dis_id : Z;                      (* scanf ("%d", &patientId) *)
  dis_confirm : ascii;             (* scanf (" %c", &confirm) *)
  dis_now : Z;                     (* time (NULL) *)
  dis_archive_open_ok : bool;      (* fopen ("discharged_patients.dat", "ab") *)
  dis_archive_write_ok : bool;     (* fwrite (&dischargedPatient, ...) == 1 *)
  dis_log_open_ok : bool;          (* fopen ("room_usage.txt", "a") *)
  dis_update : UpdateIO
}.

(** The text [fprintf (file, "%d\n", roomNumber)] writes. *)
Definition newline : string := String (ascii_of_nat 10) EmptyString.

Definition room_usage_line (room : Z) : string :=
  (NilEmpty.string_of_int (Z.to_int room) ++ newline)%string.

Definition logRoomUsage (st : State) (room : Z) (open_ok : bool) : State :=
  if open_ok then
    set_room_usage st
      (Some (match room_usage_txt st with
             | Some text => text
             | None => EmptyString
             end ++ room_usage_line room)%string)
  else st.

(** ** Operations that read and write [patients.dat] *)

Section Store.

Context {layout : PatientLayout}.

(** The [while (fread (...) == 1)] loop of [initializePatientSystem] with
    its effect on [patientHead], [totalPatients] and [foundData];
    [remaining] is what the stream has left and [k] counts the records
    read.  [fuel] bounds the iterations; the caller passes the number of
    bytes. *)
Inductive ReadLoop : Type :=
| ReadDone (head : list Patient) (total : Z) (foundData : bool)
| ReadNoMemory.

Fixpoint fread_loop (fuel : nat) (remaining : list byte) (k : nat)
    (malloc_ok : nat -> bool) (head : list Patient) (total : Z)
    (foundData : bool) : ReadLoop :=
  match fuel with
  | O => ReadDone head total foundData
  | S fuel' =>
      if (sizeof_Patient <=? length remaining)%nat then
        let tempPatient := decode_Patient (firstn sizeof_Patient remaining) in
        match insertPatientAtEndOfList head tempPatient (malloc_ok k) with
        | [] => ReadNoMemory
        | (_ :: _) as head' =>
            fread_loop fuel' (skipn sizeof_Patient remaining) (S k) malloc_ok
                       head' (wrap_int (total + 1)) true
        end
      else ReadDone head total foundData
  end.

Definition clearBinaryFile (st : State) (open_ok : bool) : State :=
  if open_ok then set_patients_files st (Some []) (patients_tmp st) else st.

Definition initializePatientSystem (st : State) (io : LoadIO) : State :=
  let st := clearMemory st in
  match (if load_open_ok io then patients_dat st else None) with
  | None => initializePatientSystemDefault st
  | Some [] => initializePatientSystemDefault st
  | Some ((_ :: _) as contents) =>
      match fread_loop (length contents) contents 0 (load_malloc_ok io)
                       (patientHead st) (totalPatients st) false with
      | ReadNoMemory => initializePatientSystemDefault st
      | ReadDone head total foundData =>
          if negb foundData then
            initializePatientSystemDefault
              (clearBinaryFile st (load_clear_open_ok io))
          else set_memory st head total (computeNextPatientId head)
      end
  end.

Definition writePatientToFile (st : State) (newPatient : Patient)
    (open_ok : bool) : State :=
  if open_ok then
    set_patients_files st
      (Some (opened_for_append (patients_dat st) ++ encode_Patient newPatient))
      (patients_tmp st)
  else st.

(** The writing loop of [updatePatientsFile]: the bytes put on the
    temporary file and the value of [write_error] after the loop. *)
Fixpoint write_loop (current : list Patient) (k : nat) (write_ok : nat -> bool)
    (written : list byte) : list byte * bool :=
  match current with
  | [] => (written, false)
  | node :: nextNode =>
      if write_ok k then
        write_loop nextNode (S k) write_ok (written ++ encode_Patient node)
      else (written, true)
  end.

Definition updatePatientsFile (st : State) (io : UpdateIO) : State :=
  if negb (tmp_open_ok io) then st
  else
    let '(written, loop_error) :=
      write_loop (patientHead st) 0 (tmp_write_ok io) [] in
    let write_error := if tmp_close_ok io then loop_error else true in
    if negb write_error then
      let dat_after_remove :=
        match patients_dat st with
        | None => None
        | Some old => if dat_remove_ok io then None else Some old
        end in
      if dat_rename_ok io
      then set_patients_files st (Some written) None
      else set_patients_files st dat_after_remove (Some written)
    else set_patients_files st (patients_dat st) None.

(** The bytes of a list of records written one after the other. *)
Definition file_image (records : list Patient) : list byte :=
  flat_map encode_Patient records.

Definition backupPatientSystem (st : State) (io : UpdateIO) : State :=
  updatePatientsFile st io.

Definition restoreDataFromFile (st : State) (io : LoadIO) : State :=
  initializePatientSystem st io.

(** [addPatientRecord]: the new state and [newPatient]; [None] when the
    room prompt never accepts an answer. *)
Definition addPatientRecord (st : State) (inp : AdmitInput)
    : option (State * Patient) :=
  match getRoomNumber (adm_rooms inp) (patientHead st) with
  | None => None
  | Some (room, _) =>
      let newPatient :=
        createPatient (adm_name inp) (adm_age inp) (adm_diagnosis inp) room
                      (patientIDCounter st) (adm_now inp) in
      let st1 :=
        set_memory st
          (insertPatientAtEndOfList (patientHead st) newPatient (adm_malloc_ok inp))
          (wrap_int (totalPatients st + 1))
          (wrap_int (patientIDCounter st + 1)) in
      Some (writePatientToFile st1 newPatient (adm_append_open_ok inp), newPatient)
  end.

(** [removePatientFromSystem]; [patient] is the record the pointer
    argument designates. *)
Definition removePatientFromSystem (st : State) (patient : Patient)
    (io : UpdateIO) : State :=
  match patientHead st with
  | [] => st
  | current :: nextNode =>
      if patientId current =? patientId patient then
        updatePatientsFile
          (set_memory st nextNode (wrap_int (totalPatients st - 1))
                      (patientIDCounter st)) io
      else
        match unlink_by_id (patientId patient) (patientHead st) with
        | None => st
        | Some unlinked =>
            updatePatientsFile
              (set_memory st unlinked (wrap_int (totalPatients st - 1))
                          (patientIDCounter st)) io
        end
  end.

Definition dischargePatient (st : State) (inp : DischargeInput) : State :=
  match patientHead st with
  | [] => st
  | _ :: _ =>
      match getPatientFromList (dis_id inp) (patientHead st) with
      | None => st
      | Some patientToDischarge =>
          if confirmDischarge (dis_confirm inp) then
            let dischargedPatient :=
              {| patient := patientToDischarge; dischargeDate := dis_now inp |} in
            if negb (dis_archive_open_ok inp) then st
            else
              let archive := opened_for_append (discharged_patients_dat st) in
              if negb (dis_archive_write_ok inp)
              then set_archive st (Some archive)
              else
                let st1 := set_archive st (Some (archive ++ [dischargedPatient])) in
                let st2 := logRoomUsage st1 (roomNumber patientToDischarge)
                                        (dis_log_open_ok inp) in
                removePatientFromSystem st2 patientToDischarge (dis_update inp)
          else st
      end
  end.

End Store.

(** ** Admission reports by timeframe *)

(** The fields of [struct tm] the source reads. *)
Record tm : Type := mkTm {
  tm_year : Z;
  tm_mon : Z;
  tm_yday : Z
}.

Section Reports.

(** [localtime] of the C library for the time zone of the process. *)
Variable localtime : Z -> tm.

(** The conversion of a [double] to [int] drops the fraction.  A value
    whose integer part does not fit an [int] has no defined conversion
    in C; the model takes what the conversion instruction of x86-64
    leaves for it, [INT_MIN].  [truncated] is the value without its
    fraction. *)
Definition double_to_int (truncated : Z) : Z :=
  if (INT_MIN <=? truncated) && (truncated <=? INT_MAX) then truncated
  else INT_MIN.

(** [hoursDiff]: [difftime (now, stamp)] divided by 3600 and converted
    to [int].  The difference of two timestamps is an integer; as far as
    a [double] holds it exactly the quotient without its fraction is the
    integer quotient rounded toward zero, and beyond that the quotient
    is out of the range of [int] whatever the rounding. *)
Definition hoursDiff (now stamp : Z) : Z :=
  double_to_int (Z.quot (now - stamp) 3600).

Definition past24Hours (now stamp : Z) : bool := hoursDiff now stamp <=? 24.

Definition sameWeek (now stamp : Z) : bool :=
  (tm_year (localtime stamp) =? tm_year (localtime now))
  && (tm_yday (localtime now) - tm_yday (localtime stamp) <? 7).

Definition sameMonth (now stamp : Z) : bool :=
  (tm_year (localtime stamp) =? tm_year (localtime now))
  && (tm_mon (localtime stamp) =? tm_mon (localtime now)).

(** The condition both [countPatientsByTimeframe] and
    [printFormattedReport] test on each node. *)
Definition in_timeframe (timeframe now stamp : Z) : bool :=
  ((timeframe =? 1) && past24Hours now stamp)
  || ((timeframe =? 2) && sameWeek now stamp)
  || ((timeframe =? 3) && sameMonth now stamp).

Fixpoint count_loop (timeframe now : Z) (current : list Patient) (count : Z) : Z :=
  match current with
  | [] => count
  | node :: nextNode =>
      count_loop timeframe now nextNode
        (if in_timeframe timeframe now (admissionDate node)
         then wrap_int (count + 1) else count)
  end.

Definition countPatientsByTimeframe (timeframe now : Z)
    (patientHead : list Patient) : Z :=
  match patientHead with
  | [] => 0
  | _ :: _ => count_loop timeframe now patientHead 0
  end.

Fixpoint report_loop (timeframe now : Z) (current : list Patient) : list Patient :=
  match current with
  | [] => []
  | node :: nextNode =>
      if in_timeframe timeframe now (admissionDate node)
      then node :: report_loop timeframe now nextNode
      else report_loop timeframe now nextNode
  end.

(** [printFormattedReport]: the total it prints in the header and the
    patients it prints a line for. *)
Definition printFormattedReport (result timeframe now : Z)
    (patientHead : list Patient) : Z * list Patient :=
  if result =? 0 then (result, [])
  else (result, report_loop timeframe now patientHead).

(** [displayPatientReport]; the two functions it calls read the clock
    separately.  [None] when the report file cannot be opened. *)
Definition displayPatientReport (choice now_count now_print : Z)
    (patientHead : list Patient) (open_ok : bool) : option (Z * list Patient) :=
  let result := countPatientsByTimeframe choice now_count patientHead in
  if open_ok
  then Some (printFormattedReport result choice now_print patientHead)
  else None.

End Reports.

(** ** Room usage report *)

Definition isspace (c : ascii) : bool :=
  let n := nat_of_ascii c in
  (n =? 32)%nat || ((9 <=? n)%nat && (n <=? 13)%nat).

Definition isdigit (c : ascii) : bool :=
  let n := nat_of_ascii c in
  (48 <=? n)%nat && (n <=? 57)%nat.

Definition digit_value (c : ascii) : Z := Z.of_nat (nat_of_ascii c) - 48.

Fixpoint skip_space (stream : string) : string :=
  match stream with
  | EmptyString => EmptyString
  | String c rest => if isspace c then skip_space rest else stream
  end.

Fixpoint scan_digits (value : Z) (stream : string) : Z * string :=
  match stream with
  | EmptyString => (value, EmptyString)
  | String c rest =>
      if isdigit c then scan_digits (10 * value + digit_value c) rest
      else (value, stream)
  end.

Definition LONG_MAX : Z := 9223372036854775807.
Definition LONG_MIN : Z := -9223372036854775808.

(** What [fscanf ("%d")] leaves in the [int] for a numeral of value
    [value].  One that fits an [int] is stored as it is.  For one that
    does not, C leaves the conversion undefined; the model takes what
    the GNU C library does: the numeral is converted as by [strtol],
    which limits it to the range of a 64-bit [long], and the result is
    assigned to the [int], which keeps its low 32 bits. *)
Definition scanf_store (value : Z) : Z :=
  wrap_int (Z.max LONG_MIN (Z.min LONG_MAX value)).

(** [fscanf (file, "%d", &roomNumber)]: the number stored and the rest of
    the stream when the call returns 1, [None] when it returns 0 or
    [EOF]. *)
Definition fscanf_int (stream : string) : option (Z * string) :=
  match skip_space stream with
  | EmptyString => None
  | String c rest =>
      let '(negative, body) :=
        if Ascii.eqb c "-" then (true, rest)
        else if Ascii.eqb c "+" then (false, rest)
        else (false, String c rest) in
      match body with
      | EmptyString => None
      | String d _ =>
          if isdigit d then
            let '(value, after) := scan_digits 0 body in
            Some (scanf_store (if negative then - value else value), after)
          else None
      end
  end.

(** [roomCounts[index]++] on the array as a list. *)
Fixpoint array_incr (index : nat) (array : list Z) : list Z :=
  match array, index with
  | [], _ => []
  | x :: rest, O => wrap_int (x + 1) :: rest
  | x :: rest, S index' => x :: array_incr index' rest
  end.

(** The locals of [displayRoomUsageReport] that the reading loop
    updates, and the numbers it warns about on [stderr]. *)
Record UsageTally : Type := mkTally {
  roomCounts : list Z;
  totalEntries : Z;
  validEntries : Z;
  warned : list Z
}.

Definition tally_start : UsageTally :=
  {| roomCounts := repeat 0 51; totalEntries := 0; validEntries := 0;
     warned := [] |}.

(** The test [roomNumber >= 1 && roomNumber <= 50] of the reading
    loop. *)
Definition valid_usage_entry (room : Z) : bool := (room >=? 1) && (room <=? 50).

Definition tally_entry (t : UsageTally) (room : Z) : UsageTally :=
  if valid_usage_entry room then
    {| roomCounts := array_incr (Z.to_nat room) (roomCounts t);
       totalEntries := wrap_int (totalEntries t + 1);
       validEntries := wrap_int (validEntries t + 1);
       warned := warned t |}
  else
    {| roomCounts := roomCounts t;
       totalEntries := wrap_int (totalEntries t + 1);
       validEntries := validEntries t;
       warned := warned t ++ [room] |}.

(** The [while (fscanf (...) == 1)] loop; [fuel] bounds the iterations
    and the caller passes more than the number of characters. *)
Fixpoint usage_loop (fuel : nat) (stream : string) (t : UsageTally) : UsageTally :=
  match fuel with
  | O => t
  | S fuel' =>
      match fscanf_int stream with
      | None => t
      | Some (room, rest) => usage_loop fuel' rest (tally_entry t room)
      end
  end.

(** The table rows of the report: the rooms from 1 to 50 with a
    positive count. *)
Definition usage_rows (counts : list Z) : list (Z * Z) :=
  flat_map (fun i => let c := nth i counts 0 in
                     if c >? 0 then [(Z.of_nat i, c)] else [])
           (seq 1 50).

Record UsageReport : Type := mkUsageReport {
  rows : list (Z * Z);
  roomsReported : Z;
  noValidData : bool;        (* "No valid room usage data found in the file." *)
  totalRead : Z;             (* "Total entries read" *)
  validLogged : Z;           (* "Valid rooms logged" *)
  warnings : list Z          (* "Warning: Found invalid room number" *)
}.

(** [displayRoomUsageReport] on the usage log; [None] when the file
    cannot be opened. *)
Definition displayRoomUsageReport (room_usage : option string) (open_ok : bool)
    : option UsageReport :=
  match (if open_ok then room_usage else None) with
  | None => None
  | Some text =>
      let t := usage_loop (S (String.length text)) text tally_start in
      let table := usage_rows (roomCounts t) in
      let reported := Z.of_nat (length table) in
      Some {| rows := table;
              roomsReported := reported;
              noValidData := (reported =? 0) && (validEntries t =? 0);
              totalRead := totalEntries t;
              validLogged := validEntries t;
              warnings := warned t |}
  end.

(** [Scans text entries final]: repeated [fscanf (file, "%d", ...)] on
    [text] converts the numbers [entries], in this order, and then fails
    to convert at [final]. *)
Inductive Scans : string -> list Z -> string -> Prop :=
| Scans_stop stream :
    fscanf_int stream = None -> Scans stream [] stream
| Scans_step stream room rest entries final :
    fscanf_int stream = Some (room, rest) ->
    Scans rest entries final ->
    Scans stream (room :: entries) final.

(** ** A concrete layout for running the model

    A packed little-endian layout: [int] on 4 bytes, [name] on 101,
    [diagnosis] on 256, [time_t] on 8. *)
Module SampleLayout.

Definition byte_of_Z (z : Z) : byte :=
  match Byte.of_N (Z.to_N (z mod 256)) with
  | Some b => b
  | None => x00
  end.

Definition le_bytes (width : nat) (z : Z) : list byte :=
  map (fun i => byte_of_Z (z / 2 ^ (8 * Z.of_nat i))) (seq 0 width).

Definition le_unsigned (bytes : list byte) : Z :=
  fold_right (fun b acc => Z.of_N (Byte.to_N b) + 256 * acc) 0 bytes.

Definition le_signed (bytes : list byte) : Z :=
  let v := le_unsigned bytes in
  let range := 2 ^ (8 * Z.of_nat (length bytes)) in
  if v <? range / 2 then v else v - range.

Definition char_array (width : nat) (s : string) : list byte :=
  firstn width (list_byte_of_string s ++ repeat x00 width).

Fixpoint until_nul (bytes : list byte) : list byte :=
  match bytes with
  | [] => []
  | b :: rest => if Byte.eqb b x00 then [] else b :: until_nul rest
  end.

Definition c_string (bytes : list byte) : string :=
  string_of_list_byte (until_nul bytes).

Definition encode (p : Patient) : list byte :=
  le_bytes 4 (patientId p) ++ char_array 101 (name p)
  ++ le_bytes 4 (ageInYears p) ++ char_array 256 (diagnosis p)
  ++ le_bytes 4 (roomNumber p) ++ le_bytes 8 (admissionDate p).

Definition field (offset width : nat) (bytes : list byte) : list byte :=
  firstn width (skipn offset bytes).

Definition decode (bytes : list byte) : Patient :=
  {| patientId := le_signed (field 0 4 bytes);
     name := c_string (field 4 101 bytes);
     ageInYears := le_signed (field 105 4 bytes);
     diagnosis := c_string (field 109 256 bytes);
     roomNumber := le_signed (field 365 4 bytes);
     admissionDate := le_signed (field 369 8 bytes) |}.

Definition layout : PatientLayout := {|
  sizeof_Patient := 377;
  encode_Patient := encode;
  decode_Patient := decode;
  sizeof_Patient_pos := ltac:(lia);
  encode_Patient_length :=
    ltac:(intro p; unfold encode, le_bytes, char_array;
          rewrite !length_app, !length_map, !length_seq, !length_firstn,
                  !length_app, !repeat_length; lia)
|}.

End SampleLayout.

(** ** Runs of the store *)

Section Runs.

Context {layout : PatientLayout}.

(** Successive calls of [addPatientRecord]: the final state and the
    records created, in the order of the calls. *)
Fixpoint admission_run (st : State) (requests : list AdmitInput)
    : option (State * list Patient) :=
  match requests with
  | [] => Some (st, [])
  | inp :: later =>
      match addPatientRecord st inp with
      | None => None
      | Some (st1, newPatient) =>
          match admission_run st1 later with
          | None => None
          | Some (st2, created) => Some (st2, newPatient :: created)
          end
      end
  end.

(** The menu entries that change the store. *)
Inductive Operation : Type :=
| OpAdmit (inp : AdmitInput)
| OpDischarge (inp : DischargeInput)
| OpBackup (io : UpdateIO)
| OpRestore (io : LoadIO).

Definition perform (st : State) (op : Operation) : option State :=
  match op with
  | OpAdmit inp =>
      match addPatientRecord st inp with
      | Some (st', _) => Some st'
      | None => None
      end
  | OpDischarge inp => Some (dischargePatient st inp)
  | OpBackup io => Some (backupPatientSystem st io)
  | OpRestore io => Some (restoreDataFromFile st io)
  end.

Fixpoint run (st : State) (ops : list Operation) : option State :=
  match ops with
  | [] => Some st
  | op :: later =>
      match perform st op with
      | Some st' => run st' later
      | None => None
      end
  end.

Definition reloads (op : Operation) : bool :=
  match op with
  | OpRestore _ => true
  | _ => false
  end.

Definition is_admission (op : Operation) : bool :=
  match op with
  | OpAdmit _ => true
  | _ => false
  end.

(** A record that comes back unchanged when its bytes are read. *)
Definition survives_file (p : Patient) : Prop :=
  decode_Patient (encode_Patient p) = p.

(** [patients.dat] mirrors the active list: it holds the image of the
    list, or there is neither a file nor an active record. *)
Definition on_disk (st : State) : Prop :=
  (patients_dat st = Some (file_image (patientHead st))
   \/ (patients_dat st = None /\ patientHead st = []))
  /\ Forall survives_file (patientHead st).

Definition update_succeeds (io : UpdateIO) : Prop :=
  tmp_open_ok io = true /\ (forall k, tmp_write_ok io k = true)
  /\ tmp_close_ok io = true /\ dat_rename_ok io = true.

(** The calls of [op] that write or read [patients.dat] succeed, and so
    does [malloc]; a record it creates survives the file. *)
Definition goes_through (st : State) (op : Operation) : Prop :=
  match op with
  | OpAdmit inp =>
      adm_malloc_ok inp = true /\ adm_append_open_ok inp = true
      /\ match addPatientRecord st inp with
         | Some (_, newPatient) => survives_file newPatient
         | None => True
         end
  | OpDischarge inp => update_succeeds (dis_update inp)
  | OpBackup io => update_succeeds io
  | OpRestore io => load_open_ok io = true /\ forall k, load_malloc_ok io k = true
  end.

Fixpoint run_goes_through (st : State) (ops : list Operation) : Prop :=
  match ops with
  | [] => True
  | op :: later =>
      goes_through st op
      /\ match perform st op with
         | Some st' => run_goes_through st' later
         | None => True
         end
  end.

End Runs.

(** The globals as the program starts, with no file on disk. *)
Definition initial_state : State :=
  {| patientHead := []; totalPatients := IS_EMPTY; patientIDCounter := DEFAULT_ID;
     patients_dat := None; patients_tmp := None;
     discharged_patients_dat := None; room_usage_txt := None |}.

Definition active_ids (st : State) : list Z := map patientId (patientHead st).

Definition archived_ids (st : State) : list Z :=
  map (fun d => patientId (patient d))
      (opened_for_append (discharged_patients_dat st)).

Definition active_rooms (st : State) : list Z := map roomNumber (patientHead st).

(** The largest ID of a collection of records, as the specification
    words it ("max(existing IDs)"); there is none for the empty
    collection. *)
Definition max_existing_id (records : list Patient) : option Z :=
  match records with
  | [] => None
  | first :: others => Some (fold_left Z.max (map patientId others) (patientId first))
  end.

(** Room exclusivity: no two active records hold the same room, and
    every room held is in the valid range. *)
Definition rooms_exclusive (st : State) : Prop :=
  NoDup (active_rooms st)
  /\ Forall (fun p => validateRoomNumber (roomNumber p) = IS_VALID) (patientHead st).

(** Every ID of an active or archived record is below the counter, and
    no two of these records share an ID. *)
Definition ids_unique (st : State) : Prop :=
  NoDup (active_ids st ++ archived_ids st)
  /\ Forall (fun id => id < patientIDCounter st) (active_ids st ++ archived_ids st).

(** ** Search by ID *)

(** What [searchPatientById] prints: the notice for an empty list, the
    record found, or the notice that no record has the ID. *)
Inductive SearchResult : Type :=
| SearchEmpty
| SearchFound (p : Patient)
| SearchMissing.

Fixpoint search_loop (id : Z) (current : list Patient) : SearchResult :=
  match current with
  | [] => SearchMissing
  | node :: nextNode =>
      if patientId node =? id then SearchFound node
      else search_loop id nextNode
  end.

(** [searchPatientById]; [id] is read only when the list is not
    empty. *)
Definition searchPatientById (patientHead : list Patient) (id : Z) : SearchResult :=
  match patientHead with
  | [] => SearchEmpty
  | _ :: _ => search_loop id patientHead
  end.

(** ** The reports and the object [localtime] returns

    [localtime] returns the address of a [struct tm].  ISO C lets the
    library fill one static object at every call, and the common
    libraries do.  The loops of [printFormattedReport],
    [countDischargedPatientsByTimeframe] and
    [printDischargedFormattedReport] read [currentTime->tm_year],
    [currentTime->tm_yday] and [currentTime->tm_mon] after their own
    call of [localtime] for the record at hand, so what they read
    depends on whether the two calls share the object.
    [countPatientsByTimeframe] copies the three fields before its loop
    and is as above. *)

Module StaticBuffer.

Section Reports.

Variable localtime : Z -> tm.

(** Whether every call of [localtime] returns the same object. *)
Variable static_buffer : bool.

(** [*currentTime] as a loop body reads it once [localtime] was called
    for [stamp]. *)
Definition currentTime (now stamp : Z) : tm :=
  if static_buffer then localtime stamp else localtime now.

Definition sameWeek (now stamp : Z) : bool :=
  (tm_year (localtime stamp) =? tm_year (currentTime now stamp))
  && (tm_yday (currentTime now stamp) - tm_yday (localtime stamp) <? 7).

Definition sameMonth (now stamp : Z) : bool :=
  (tm_year (localtime stamp) =? tm_year (currentTime now stamp))
  && (tm_mon (localtime stamp) =? tm_mon (currentTime now stamp)).

(** The condition the three loops test on each record. *)
Definition in_timeframe (timeframe now stamp : Z) : bool :=
  ((timeframe =? 1) && past24Hours now stamp)
  || ((timeframe =? 2) && sameWeek now stamp)
  || ((timeframe =? 3) && sameMonth now stamp).

Fixpoint report_loop (timeframe now : Z) (current : list Patient) : list Patient :=
  match current with
  | [] => []
  | node :: nextNode =>
      if in_timeframe timeframe now (admissionDate node)
      then node :: report_loop timeframe now nextNode
      else report_loop timeframe now nextNode
  end.

(** [printFormattedReport]: the total it prints in the header and the
    patients it prints a line for. *)
Definition printFormattedReport (result timeframe now : Z)
    (patientHead : list Patient) : Z * list Patient :=
  if result =? 0 then (result, [])
  else (result, report_loop timeframe now patientHead).

(** [displayPatientReport]; [None] when the report file cannot be
    opened. *)
Definition displayPatientReport (choice now_count now_print : Z)
    (patientHead : list Patient) (open_ok : bool) : option (Z * list Patient) :=
  let result := countPatientsByTimeframe localtime choice now_count patientHead in
  if open_ok
  then Some (printFormattedReport result choice now_print patientHead)
  else None.

Fixpoint count_discharged_loop (timeframe now : Z)
    (records : list DischargedPatient) (count : Z) : Z :=
  match records with
  | [] => count
  | dischargedPatient :: later =>
      count_discharged_loop timeframe now later
        (if in_timeframe timeframe now (dischargeDate dischargedPatient)
         then wrap_int (count + 1) else count)
  end.

(** [countDischargedPatientsByTimeframe]; 0 when the archive cannot be
    opened. *)
Definition countDischargedPatientsByTimeframe (timeframe now : Z)
    (archive : option (list DischargedPatient)) (open_ok : bool) : Z :=
  match (if open_ok then archive else None) with
  | None => 0
  | Some records => count_discharged_loop timeframe now records 0
  end.

Fixpoint discharged_report_loop (timeframe now : Z)
    (records : list DischargedPatient) : list DischargedPatient :=
  match records with
  | [] => []
  | dischargedPatient :: later =>
      if in_timeframe timeframe now (dischargeDate dischargedPatient)
      then dischargedPatient :: discharged_report_loop timeframe now later
      else discharged_report_loop timeframe now later
  end.

(** [printDischargedFormattedReport]: the total of the header and the
    records it prints a line for; none when [result] is 0 or the archive
    cannot be opened. *)
Definition printDischargedFormattedReport (result timeframe now : Z)
    (archive : option (list DischargedPatient)) (open_ok : bool)
    : Z * list DischargedPatient :=
  if result =? 0 then (result, [])
  else
    match (if open_ok then archive else None) with
    | None => (result, [])
    | Some records => (result, discharged_report_loop timeframe now records)
    end.

(** [displayDischargedPatientReport]; [None] when the report file cannot
    be opened. *)
Definition displayDischargedPatientReport (choice now_count now_print : Z)
    (archive : option (list DischargedPatient))
    (count_open_ok report_open_ok print_open_ok : bool)
    : option (Z * list DischargedPatient) :=
  let result :=
    countDischargedPatientsByTimeframe choice now_count archive count_open_ok in
  if report_open_ok
  then Some (printDischargedFormattedReport result choice now_print archive
                                            print_open_ok)
  else None.

End Reports.

End StaticBuffer.

(** ** More on runs *)

Section MoreRuns.

Context {layout : PatientLayout}.

(** The records created by the admissions of a run, in order. *)
Fixpoint created_by (st : State) (ops : list Operation) : list Patient :=
  match ops with
  | [] => []
  | op :: later =>
      match op with
      | OpAdmit inp =>
          match addPatientRecord st inp with
          | Some (st', newPatient) => newPatient :: created_by st' later
          | None => []
          end
      | _ =>
          match perform st op with
          | Some st' => created_by st' later
          | None => []
          end
      end
  end.

(** [malloc] succeeds in every admission of the run. *)
Definition admissions_allocate (ops : list Operation) : Prop :=
  forall inp, In (OpAdmit inp) ops -> adm_malloc_ok inp = true.

End MoreRuns.

(** Successive calls of [logRoomUsage] that open the log. *)
Definition log_rooms (st : State) (rooms : list Z) : State :=
  fold_left (fun s room => logRoomUsage s room true) rooms st.

(** The records and the text the two append-only files hold. *)
Definition archived_records (st : State) : list DischargedPatient :=
  opened_for_append (discharged_patients_dat st).

Definition log_text (st : State) : string :=
  match room_usage_txt st with
  | Some text => text
  | None => EmptyString
  end.

(** A text that does not go on with a digit. *)
Definition ends_number (rest : string) : Prop :=
  match rest with
  | EmptyString => True
  | String c _ => isdigit c = false
  end.
(** The text that successive calls of [logRoomUsage] write. *)
Definition usage_lines (rooms : list Z) : string :=
  fold_right (fun room text => (room_usage_line room ++ text)%string) EmptyString rooms.

(** [totalPatients] is the number of nodes of the list. *)
Definition count_matches (st : State) : Prop :=
  totalPatients st = Z.of_nat (length (patientHead st)).

(** ** The array variant of the store: [patient.c] *)

Module ArrayVariant.

(** The fields of [Patient] that [patient.c] reads and writes. *)
Record Patient : Type := mkPatient {
  patientId : Z;
  name : string;
  age : Z;
  diagnosis : string;
  roomNumber : Z
}.

(** A slot of the array as static storage starts: all zero. *)
Definition zero_patient : Patient :=
  {| patientId := 0; name := EmptyString; age := 0; diagnosis := EmptyString;
     roomNumber := 0 |}.

Inductive Validation : Type := IS_VALID | IS_INVALID.

(** [patients[index] = value]. *)
Fixpoint assign (index : nat) (value : Patient) (array : list Patient)
    : list Patient :=
  match array, index with
  | [], _ => []
  | _ :: rest, O => value :: rest
  | slot :: rest, S index' => slot :: assign index' value rest
  end.

Record State : Type := mkState {
  patients : list Patient;
  totalPatients : Z;
  patientIDCounter : Z
}.

(** The constants of [patient.h], which the repository does not hold:
    the functions are modelled for any values of them. *)
Class Header : Type := {
  MAX_PATIENT_CAPACITY : nat;
  MIN_PATIENT_NAME_LENGTH : nat;
  MAX_PATIENT_NAME_LENGTH : nat;
  MIN_DIAGNOSIS_LENGTH : nat;
  MAX_DIAGNOSIS_LENGTH : nat;
  MIN_AGE_YEARS : Z;
  MAX_AGE_YEARS : Z;
  MIN_ROOM_NUMBER : Z;
  MAX_ROOM_NUMBER : Z
}.

Section Store.

Context {header : Header}.

(** [patientExists]: the first index whose slot has the ID, [None] for
    [PATIENT_NOT_FOUND].  The loop visits every slot of the array, used
    or not. *)
Fixpoint patientExists_from (i : nat) (slots : list Patient) (id : Z) : option nat :=
  match slots with
  | [] => None
  | slot :: later =>
      if patientId slot =? id then Some i
      else patientExists_from (S i) later id
  end.

Definition patientExists (st : State) (id : Z) : option nat :=
  patientExists_from 0 (patients st) id.

(** The loop of [removePatientFromSystem] from index [i] on; [fuel]
    bounds the iterations and the caller passes the capacity. *)
Fixpoint shift_from (fuel : nat) (i : nat) (array : list Patient) : list Patient :=
  match fuel with
  | O => array
  | S fuel' =>
      if (S i <? MAX_PATIENT_CAPACITY)%nat
      then shift_from fuel' (S i) (assign i (nth (S i) array zero_patient) array)
      else array
  end.

Definition removePatientFromSystem (st : State) (index : nat) : State :=
  {| patients := shift_from MAX_PATIENT_CAPACITY index (patients st);
     totalPatients := wrap_int (totalPatients st - 1);
     patientIDCounter := patientIDCounter st |}.

Definition validatePatientName (patientName : string) : Validation :=
  if (String.length patientName <? MIN_PATIENT_NAME_LENGTH)%nat
     || (MAX_PATIENT_NAME_LENGTH <? String.length patientName)%nat
  then IS_INVALID else IS_VALID.

Definition validatePatientAge (patientAge : Z) : Validation :=
  if (patientAge <? MIN_AGE_YEARS) || (patientAge >? MAX_AGE_YEARS)
  then IS_INVALID else IS_VALID.

Definition validatePatientDiagnosis (patientDiagnosis : string) : Validation :=
  if (String.length patientDiagnosis <? MIN_DIAGNOSIS_LENGTH)%nat
     || (MAX_DIAGNOSIS_LENGTH <? String.length patientDiagnosis)%nat
  then IS_INVALID else IS_VALID.

Definition validateRoomNumber (room : Z) : Validation :=
  if (room <? MIN_ROOM_NUMBER) || (room >? MAX_ROOM_NUMBER)
  then IS_INVALID else IS_VALID.

Definition createNewPatient (patientName : string) (patientAge : Z)
    (patientDiagnosis : string) (room : Z) (counter : Z) : Patient :=
  {| patientId := counter; name := patientName; age := patientAge;
     diagnosis := patientDiagnosis; roomNumber := room |}.

(** What the operator types at the four prompts of [addPatientRecord],
    as the buffers hold it. *)
Record Entry : Type := mkEntry {
  entry_name : string;
  entry_age : Z;
  entry_diagnosis : string;
  entry_room : Z
}.

(** [addPatientRecord]; [None] stands for the write in front of the
    array that a negative count would cause. *)
Definition addPatientRecord (st : State) (entry : Entry) : option State :=
  if totalPatients st >=? Z.of_nat MAX_PATIENT_CAPACITY then Some st
  else
    match validatePatientName (entry_name entry) with
    | IS_INVALID => Some st
    | IS_VALID =>
    match validatePatientAge (entry_age entry) with
    | IS_INVALID => Some st
    | IS_VALID =>
    match validatePatientDiagnosis (entry_diagnosis entry) with
    | IS_INVALID => Some st
    | IS_VALID =>
    match validateRoomNumber (entry_room entry) with
    | IS_INVALID => Some st
    | IS_VALID =>
        if totalPatients st <? 0 then None
        else
          let newPatient :=
            createNewPatient (entry_name entry) (entry_age entry)
                             (entry_diagnosis entry) (entry_room entry)
                             (patientIDCounter st) in
          Some {| patients :=
                    assign (Z.to_nat (totalPatients st)) newPatient (patients st);
                  totalPatients := wrap_int (totalPatients st + 1);
                  patientIDCounter := wrap_int (patientIDCounter st + 1) |}
    end end end end.

(** The records [viewPatientRecords] prints. *)
Definition viewPatientRecords (st : State) : list Patient :=
  if totalPatients st =? 0 then []
  else filter (fun slot => negb (patientId slot =? 0)) (patients st).

(** [searchPatientById]: the slot it prints, [None] for "Patient Does
    Not Exist!". *)
Definition searchPatientById (st : State) (id : Z) : option Patient :=
  match patientExists st id with
  | None => None
  | Some index => Some (nth index (patients st) zero_patient)
  end.

(** [dischargePatient]; [confirm] is the character [scanf ("%c")]
    stores.  The count is compared with [IS_EMPTY], which
    [viewPatientRecords] of the same file takes to be 0. *)
Definition dischargePatient (st : State) (id : Z) (confirm : ascii) : State :=
  if totalPatients st =? 0 then st
  else
    match patientExists st id with
    | None => st
    | Some index =>
        if Ascii.eqb confirm "y" then removePatientFromSystem st index
        else st
    end.

(** The used slots come first and hold non-zero IDs; the other slots
    are as static storage starts. *)
Definition packed (st : State) (used : nat) : Prop :=
  totalPatients st = Z.of_nat used
  /\ (used <= MAX_PATIENT_CAPACITY)%nat
  /\ length (patients st) = MAX_PATIENT_CAPACITY
  /\ (forall j, (j < used)%nat -> patientId (nth j (patients st) zero_patient) <> 0)
  /\ (forall j, (used <= j)%nat -> nth j (patients st) zero_patient = zero_patient).

End Store.

End ArrayVariant.

(** ** Inputs for running the model *)

Module Sample.

(** Every call of [updatePatientsFile] goes through. *)
Definition update_ok : UpdateIO :=
  {| tmp_open_ok := true; tmp_write_ok := fun _ => true; tmp_close_ok := true;
     dat_remove_ok := true; dat_rename_ok := true |}.

(** [patients.tmp] cannot be created. *)
Definition update_no_tmp : UpdateIO :=
  {| tmp_open_ok := false; tmp_write_ok := fun _ => true; tmp_close_ok := true;
     dat_remove_ok := true; dat_rename_ok := true |}.

(** The second [fwrite] on [patients.tmp] fails. *)
Definition update_second_write_fails : UpdateIO :=
  {| tmp_open_ok := true; tmp_write_ok := fun k => negb (k =? 1)%nat;
     tmp_close_ok := true; dat_remove_ok := true; dat_rename_ok := true |}.

(** [patients.tmp] is written and closed and [patients.dat] removed,
    then the rename fails. *)
Definition update_rename_fails : UpdateIO :=
  {| tmp_open_ok := true; tmp_write_ok := fun _ => true; tmp_close_ok := true;
     dat_remove_ok := true; dat_rename_ok := false |}.

Definition load_ok : LoadIO :=
  {| load_open_ok := true; load_malloc_ok := fun _ => true;
     load_clear_open_ok := true |}.

(** An admission that answers the room prompt with [room]. *)
Definition admission (patientName : string) (room now : Z) : AdmitInput :=
  {| adm_name := patientName; adm_age := 34; adm_diagnosis := "Fracture";
     adm_rooms := [Entered room]; adm_now := now;
     adm_malloc_ok := true; adm_append_open_ok := true |}.

Definition discharge (id : Z) (confirm : ascii) (now : Z) (archive_ok : bool)
    (update : UpdateIO) : DischargeInput :=
  {| dis_id := id; dis_confirm := confirm; dis_now := now;
     dis_archive_open_ok := archive_ok; dis_archive_write_ok := true;
     dis_log_open_ok := true; dis_update := update |}.

Definition jane : Patient := createPatient "Jane Doe" 34 "Fracture" 12 1 1700000000.
Definition omar : Patient := createPatient "Omar Haddad" 34 "Fracture" 7 2 1700000600.

(** A store with two active patients and their image on disk. *)
Definition two_patients : State :=
  {| patientHead := [jane; omar]; totalPatients := 2; patientIDCounter := 3;
     patients_dat := Some (SampleLayout.encode jane ++ SampleLayout.encode omar);
     patients_tmp := None; discharged_patients_dat := None;
     room_usage_txt := None |}.

(** One active patient while [patients.dat] still holds two records. *)
Definition stale_file : State :=
  {| patientHead := [omar]; totalPatients := 1; patientIDCounter := 3;
     patients_dat := Some (SampleLayout.encode jane ++ SampleLayout.encode omar);
     patients_tmp := None; discharged_patients_dat := None;
     room_usage_txt := None |}.

(** Two whole records followed by the first hundred bytes of a third. *)
Definition truncated_store : State :=
  {| patientHead := []; totalPatients := IS_EMPTY; patientIDCounter := DEFAULT_ID;
     patients_dat :=
       Some (concat [SampleLayout.encode jane; SampleLayout.encode omar]
             ++ firstn 100 (SampleLayout.encode jane));
     patients_tmp := None; discharged_patients_dat := None;
     room_usage_txt := None |}.

Definition whole_store : State :=
  {| patientHead := []; totalPatients := IS_EMPTY; patientIDCounter := DEFAULT_ID;
     patients_dat :=
       Some (concat [SampleLayout.encode jane; SampleLayout.encode omar]);
     patients_tmp := None; discharged_patients_dat := None;
     room_usage_txt := None |}.

(** A usage log with a line that is not a number before a valid one. *)
Definition log_with_text : string := ("abc" ++ newline ++ "12" ++ newline)%string.

(** A usage log whose first numeral does not fit an [int]. *)
Definition log_with_long_numeral : string :=
  ("4294967308" ++ newline ++ "12" ++ newline)%string.

(** A usage log with an out-of-range number between valid ones. *)
Definition log_with_bad_room : string :=
  ("12" ++ newline ++ "77" ++ newline ++ "12" ++ newline ++ "3" ++ newline)%string.

End Sample.

(** A small header and stores for running the array variant. *)
Module ArraySample.

Import ArrayVariant.

#[export] Instance header : Header := {|
  MAX_PATIENT_CAPACITY := 3;
  MIN_PATIENT_NAME_LENGTH := 1;
  MAX_PATIENT_NAME_LENGTH := 100;
  MIN_DIAGNOSIS_LENGTH := 1;
  MAX_DIAGNOSIS_LENGTH := 255;
  MIN_AGE_YEARS := 0;
  MAX_AGE_YEARS := 120;
  MIN_ROOM_NUMBER := 1;
  MAX_ROOM_NUMBER := 50
|}.

Definition ann : Patient :=
  {| patientId := 1; name := "Ann"; age := 30; diagnosis := "Flu";
     roomNumber := 12 |}.
Definition bob : Patient :=
  {| patientId := 2; name := "Bob"; age := 41; diagnosis := "Asthma";
     roomNumber := 12 |}.
Definition eve : Patient :=
  {| patientId := 3; name := "Eve"; age := 57; diagnosis := "Fracture";
     roomNumber := 7 |}.

Definition two_used : State :=
  {| patients := [ann; bob; zero_patient]; totalPatients := 2;
     patientIDCounter := 3 |}.

Definition full : State :=
  {| patients := [ann; bob; eve]; totalPatients := 3; patientIDCounter := 4 |}.

Definition entry : Entry :=
  {| entry_name := "Eve"; entry_age := 57; entry_diagnosis := "Fracture";
     entry_room := 12 |}.

End ArraySample.

Module SampleClock.

(** A stand-in for [localtime]: days counted from the epoch in years of
    365 days and months of 30 days. *)
Definition localtime (stamp : Z) : tm :=
  {| tm_year := 70 + stamp / 31536000;
     tm_mon := (stamp mod 31536000) / 2592000;
     tm_yday := (stamp mod 31536000) / 86400 |}.

(** A record admitted in an earlier year of that clock. *)
Definition last_year : Patient :=
  createPatient "Ana Ruiz" 61 "Asthma" 3 7 1600000000.

End SampleClock.

(** * Properties *)

(** ** Machine integers and the linked list *)

Lemma wrap_int_in_range z : INT_MIN <= z <= INT_MAX -> wrap_int z = z.
Proof.
  unfold wrap_int, INT_MIN, INT_MAX. intros H.
  rewrite Z.mod_small by lia. lia.
Qed.

Lemma link_at_end_app head data : link_at_end head data = head ++ [data].
Proof.
  induction head as [|node nextNode IH]; simpl; [reflexivity|].
  now rewrite IH.
Qed.

Lemma insertPatientAtEndOfList_ok head data :
  insertPatientAtEndOfList head data true = head ++ [data].
Proof.
  destruct head; simpl; [reflexivity|].
  now rewrite link_at_end_app.
Qed.

Lemma viewPatientRecords_all head : viewPatientRecords head = head.
Proof.
  induction head as [|node nextNode IH]; simpl; congruence.
Qed.

Lemma isRoomOccupiedInList_values room head :
  isRoomOccupiedInList room head = 1
  \/ isRoomOccupiedInList room head = ROOM_UNOCCUPIED.
Proof.
  induction head as [|node nextNode IH]; simpl; [now right|].
  destruct (roomNumber node =? room); [now left | exact IH].
Qed.

Lemma isRoomOccupiedInList_unoccupied room head :
  isRoomOccupiedInList room head = ROOM_UNOCCUPIED
  <-> ~ In room (map roomNumber head).
Proof.
  induction head as [|node nextNode IH]; simpl.
  - split; [tauto | reflexivity].
  - destruct (Z.eqb_spec (roomNumber node) room) as [E|E].
    + split; [discriminate | tauto].
    + rewrite IH. tauto.
Qed.

Lemma isRoomOccupiedInList_occupied room head :
  isRoomOccupiedInList room head <> ROOM_UNOCCUPIED
  <-> exists p, In p head /\ roomNumber p = room.
Proof.
  rewrite isRoomOccupiedInList_unoccupied, in_map_iff.
  split.
  - intros H. destruct (in_dec Z.eq_dec room (map roomNumber head)) as [I|I].
    + apply in_map_iff in I. destruct I as [p [E Hp]]. now exists p.
    + exfalso. apply H. intros [p [E Hp]]. apply I, in_map_iff. now exists p.
  - intros [p [I E]] H. apply H. now exists p.
Qed.

(** The node [getPatientFromList] returns is the one
    [unlink_by_id] takes out. *)
Lemma getPatientFromList_split id head p :
  getPatientFromList id head = Some p ->
  exists before after,
    head = before ++ p :: after
    /\ patientId p = id
    /\ ~ In id (map patientId before)
    /\ unlink_by_id id head = Some (before ++ after).
Proof.
  induction head as [|node nextNode IH]; simpl; [discriminate|].
  destruct (Z.eqb_spec (patientId node) id) as [E|E].
  - intros H. injection H as <-.
    exists [], nextNode. simpl. repeat split; auto.
  - intros H. destruct (IH H) as [before [after [-> [Hid [Hnot Hun]]]]].
    exists (node :: before), after. simpl. rewrite Hun.
    repeat split; auto. intros [F|F]; [contradiction | now apply Hnot].
Qed.

Lemma getPatientFromList_none id head :
  getPatientFromList id head = None <-> ~ In id (map patientId head).
Proof.
  induction head as [|node nextNode IH]; simpl; [tauto|].
  destruct (Z.eqb_spec (patientId node) id) as [E|E].
  - split; [discriminate | tauto].
  - rewrite IH. tauto.
Qed.

(** ** The room prompt *)

Lemma validateRoomNumber_valid room :
  validateRoomNumber room = IS_VALID
  <-> MIN_ROOM_NUMBER <= room <= MAX_ROOM_NUMBER.
Proof.
  unfold validateRoomNumber.
  destruct (Z.ltb_spec room MIN_ROOM_NUMBER), (Z.gtb_spec room MAX_ROOM_NUMBER);
    simpl; split; intros; try discriminate; try reflexivity; lia.
Qed.

Lemma room_prompt_valid entry head :
  room_prompt entry head = IS_VALID
  <-> exists room, entry = Entered room
      /\ validateRoomNumber room = IS_VALID
      /\ ~ In room (map roomNumber head).
Proof.
  destruct entry as [|room]; simpl.
  - split; [discriminate | intros [r [E _]]; discriminate].
  - destruct (validateRoomNumber room) eqn:V.
    + destruct (Z.eqb_spec (isRoomOccupiedInList room head) ROOM_UNOCCUPIED) as [E|E];
        simpl; split.
      * intros _. exists room.
        now rewrite <- isRoomOccupiedInList_unoccupied.
      * reflexivity.
      * discriminate.
      * intros [r [Er [_ Hr]]]. injection Er as <-.
        now apply isRoomOccupiedInList_unoccupied in Hr.
    + split; [discriminate|].
      intros [r [Er [Vr _]]]. injection Er as <-. congruence.
Qed.

(** The room [getRoomNumber] returns is in range and free. *)
Lemma getRoomNumber_accepts answers head room later :
  getRoomNumber answers head = Some (room, later) ->
  validateRoomNumber room = IS_VALID /\ ~ In room (map roomNumber head).
Proof.
  induction answers as [|entry rest IH]; simpl; [discriminate|].
  destruct (room_prompt entry head) eqn:P.
  - destruct entry as [|r]; [apply IH|].
    intros H. injection H as <- <-.
    apply room_prompt_valid in P. destruct P as [r' [E [V F]]].
    injection E as <-. now split.
  - apply IH.
Qed.

Lemma wrap_int_bounds z : INT_MIN <= wrap_int z <= INT_MAX.
Proof.
  unfold wrap_int, INT_MIN, INT_MAX.
  pose proof (Z.mod_pos_bound (z + 2147483648) 4294967296 ltac:(lia)). lia.
Qed.

Lemma StronglySorted_lt_NoDup ids : StronglySorted Z.lt ids -> NoDup ids.
Proof.
  induction 1 as [|id rest _ IH Hall]; constructor; [|exact IH].
  intros Hin. rewrite Forall_forall in Hall.
  specialize (Hall id Hin). lia.
Qed.

(** ** Admission *)

Section StoreProperties.

Context {layout : PatientLayout}.

(** What one [addPatientRecord] does to the globals and the files. *)
Lemma addPatientRecord_effect st inp st' newPatient :
  addPatientRecord st inp = Some (st', newPatient) ->
  patientId newPatient = patientIDCounter st
  /\ validateRoomNumber (roomNumber newPatient) = IS_VALID
  /\ ~ In (roomNumber newPatient) (active_rooms st)
  /\ patientHead st' =
       insertPatientAtEndOfList (patientHead st) newPatient (adm_malloc_ok inp)
  /\ patientIDCounter st' = wrap_int (patientIDCounter st + 1)
  /\ totalPatients st' = wrap_int (totalPatients st + 1)
  /\ discharged_patients_dat st' = discharged_patients_dat st
  /\ room_usage_txt st' = room_usage_txt st.
Proof.
  unfold addPatientRecord.
  destruct (getRoomNumber (adm_rooms inp) (patientHead st)) as [[room later]|] eqn:G;
    [|discriminate].
  intros H. injection H as <- <-.
  apply getRoomNumber_accepts in G. destruct G as [V F].
  unfold writePatientToFile.
  destruct (adm_append_open_ok inp); simpl; repeat split; auto.
Qed.

Lemma admission_run_ids requests : forall st st' created,
  admission_run st requests = Some (st', created) ->
  Forall (fun inp => adm_malloc_ok inp = true) requests ->
  INT_MIN <= patientIDCounter st ->
  patientIDCounter st + Z.of_nat (length requests) <= INT_MAX + 1 ->
  StronglySorted Z.lt (map patientId created)
  /\ Forall (fun id => patientIDCounter st <= id) (map patientId created)
  /\ patientHead st' = patientHead st ++ created.
Proof.
  induction requests as [|inp later IH]; intros st st' created H Hm Hlo Hhi;
    simpl in H.
  - injection H as <- <-. simpl.
    rewrite app_nil_r. repeat split; constructor.
  - destruct (addPatientRecord st inp) as [[st1 newPatient]|] eqn:A; [|discriminate].
    destruct (admission_run st1 later) as [[st2 created']|] eqn:R; [|discriminate].
    injection H as <- <-.
    inversion Hm as [|? ? Hm1 Hm2]; subst.
    apply addPatientRecord_effect in A.
    destruct A as [Hid [_ [_ [Hhead [Hcnt _]]]]].
    rewrite Hm1, insertPatientAtEndOfList_ok in Hhead.
    change (length (inp :: later)) with (S (length later)) in Hhi.
    rewrite Nat2Z.inj_succ in Hhi.
    destruct later as [|inp2 later2].
    + simpl in R. injection R as <- <-. simpl.
      rewrite Hhead, Hid. repeat split; repeat constructor. apply Z.le_refl.
    + change (length (inp2 :: later2)) with (S (length later2)) in *.
      rewrite Nat2Z.inj_succ in *.
      assert (Hc : patientIDCounter st1 = patientIDCounter st + 1).
      { rewrite Hcnt. apply wrap_int_in_range.
        unfold INT_MIN, INT_MAX in *. lia. }
      destruct (IH _ _ _ R Hm2) as [Hs [Hge Happ]].
      * lia.
      * rewrite Hc. lia.
      * simpl. rewrite Hid. repeat split.
        -- constructor; [exact Hs|].
           eapply Forall_impl; [|exact Hge]. simpl. intros id. lia.
        -- constructor; [lia|].
           eapply Forall_impl; [|exact Hge]. simpl. intros id. lia.
        -- rewrite Happ, Hhead, <- app_assoc. reflexivity.
Qed.

(** C2. In a run of successful [addPatientRecord] calls from any store
    state, every new record gets an ID greater than all IDs given
    earlier in the run, so the IDs of the run are pairwise distinct, and
    the traversal of [viewPatientRecords] shows the records that were
    there followed by the new ones in admission order.  The counter is
    assumed to stay within [int] during the run. *)
Theorem admissions_ids_increase_in_order st requests st' created :
  admission_run st requests = Some (st', created) ->
  Forall (fun inp => adm_malloc_ok inp = true) requests ->
  INT_MIN <= patientIDCounter st ->
  patientIDCounter st + Z.of_nat (length requests) <= INT_MAX + 1 ->
  StronglySorted Z.lt (map patientId created)
  /\ NoDup (map patientId created)
  /\ Forall (fun p => validateRoomNumber (roomNumber p) = IS_VALID) created
  /\ viewPatientRecords (patientHead st') =
       viewPatientRecords (patientHead st) ++ created.
Proof.
  intros H Hm Hlo Hhi.
  destruct (admission_run_ids _ _ _ _ H Hm Hlo Hhi) as [Hs [_ Happ]].
  repeat split.
  - exact Hs.
  - now apply StronglySorted_lt_NoDup.
  - clear Hs Happ Hm Hlo Hhi. revert st st' created H.
    induction requests as [|inp later IH]; intros st st' created; simpl.
    + intros H. injection H as <- <-. constructor.
    + destruct (addPatientRecord st inp) as [[st1 newPatient]|] eqn:A; [|discriminate].
      destruct (admission_run st1 later) as [[st2 created']|] eqn:R; [|discriminate].
      intros H. injection H as <- <-.
      constructor; [|now apply (IH _ _ _ R)].
      now apply addPatientRecord_effect in A.
  - now rewrite !viewPatientRecords_all.
Qed.

(** ** Rewriting [patients.dat] *)

Lemma write_loop_complete current : forall k write_ok written,
  (forall i, (i < length current)%nat -> write_ok (k + i)%nat = true) ->
  write_loop current k write_ok written = (written ++ file_image current, false).
Proof.
  induction current as [|node nextNode IH]; intros k write_ok written Hok; simpl.
  - now rewrite app_nil_r.
  - rewrite <- (Nat.add_0_r k) at 1. rewrite Hok by (simpl; lia).
    rewrite IH.
    + unfold file_image. now rewrite <- app_assoc.
    + intros i Hi. replace (S k + i)%nat with (k + S i)%nat by lia.
      apply Hok. simpl. lia.
Qed.

Lemma write_loop_error current : forall k write_ok written,
  snd (write_loop current k write_ok written) = true <->
  exists i, (i < length current)%nat /\ write_ok (k + i)%nat = false.
Proof.
  induction current as [|node nextNode IH]; intros k write_ok written; simpl.
  - split; [discriminate | intros [i [Hi _]]; lia].
  - destruct (write_ok k) eqn:W.
    + rewrite IH. split.
      * intros [i [Hi Hw]]. exists (S i). split; [lia|].
        now replace (k + S i)%nat with (S k + i)%nat by lia.
      * intros [i [Hi Hw]]. destruct i as [|i].
        -- rewrite Nat.add_0_r in Hw. congruence.
        -- exists i. split; [lia|].
           now replace (S k + i)%nat with (k + S i)%nat by lia.
    + simpl. split; [|reflexivity]. intros _. exists 0%nat.
      rewrite Nat.add_0_r. split; [lia | exact W].
Qed.

(** [updatePatientsFile] touches the two files of the active records
    and nothing else. *)
Lemma updatePatientsFile_frame st io :
  let st' := updatePatientsFile st io in
  patientHead st' = patientHead st
  /\ totalPatients st' = totalPatients st
  /\ patientIDCounter st' = patientIDCounter st
  /\ discharged_patients_dat st' = discharged_patients_dat st
  /\ room_usage_txt st' = room_usage_txt st.
Proof.
  unfold updatePatientsFile.
  destruct (tmp_open_ok io); simpl; [|repeat split].
  destruct (write_loop _ _ _ _) as [written loop_error].
  destruct (tmp_close_ok io), loop_error; simpl; try (repeat split);
    destruct (dat_rename_ok io); repeat split.
Qed.

(** C3 (amended). [updatePatientsFile] writes the whole active list to
    [patients.tmp]; [patients.dat] changes only when the temporary file
    was opened, every record was written and the file closed.  When a
    write or the close fails, [patients.tmp] is removed and
    [patients.dat] keeps its contents.  After a clean write the
    replacement is a [remove] followed by a [rename], which is not
    atomic: a successful rename leaves [patients.dat] holding the image
    of the whole list; a failed rename leaves the image in
    [patients.tmp], and [patients.dat] is gone when the [remove] went
    through and kept when it did not. *)
Theorem updatePatientsFile_replaces_only_after_full_write st io :
  let st' := updatePatientsFile st io in
  let all_written :=
    forall k, (k < length (patientHead st))%nat -> tmp_write_ok io k = true in
  (patients_dat st' <> patients_dat st ->
     tmp_open_ok io = true /\ all_written /\ tmp_close_ok io = true)
  /\ (tmp_open_ok io = true -> all_written -> tmp_close_ok io = true ->
        (dat_rename_ok io = true ->
           patients_dat st' = Some (file_image (patientHead st))
           /\ patients_tmp st' = None)
        /\ (dat_rename_ok io = false ->
             patients_tmp st' = Some (file_image (patientHead st))
             /\ (dat_remove_ok io = true -> patients_dat st' = None)
             /\ (dat_remove_ok io = false -> patients_dat st' = patients_dat st)))
  /\ (tmp_open_ok io = true ->
        (exists k, (k < length (patientHead st))%nat /\ tmp_write_ok io k = false)
        \/ tmp_close_ok io = false ->
        patients_dat st' = patients_dat st /\ patients_tmp st' = None)
  /\ (tmp_open_ok io = false -> st' = st).
Proof.
  unfold updatePatientsFile.
  destruct (tmp_open_ok io) eqn:O; simpl.
  2:{ repeat split; try discriminate; try tauto. }
  destruct (write_loop (patientHead st) 0 (tmp_write_ok io) []) as [written loop_error] eqn:L.
  assert (Herr : loop_error = true <->
                 exists i, (i < length (patientHead st))%nat /\ tmp_write_ok io i = false).
  { pose proof (write_loop_error (patientHead st) 0 (tmp_write_ok io) []) as W.
    rewrite L in W. exact W. }
  split; [|split; [|split]].
  - destruct (tmp_close_ok io), loop_error; simpl; try tauto.
    intros _. repeat split.
    intros k Hk. destruct (tmp_write_ok io k) eqn:W; [reflexivity|].
    assert (F : false = true) by (apply Herr; now exists k). discriminate.
  - intros _ Hall ->.
    rewrite (write_loop_complete _ 0 _ [] Hall) in L.
    injection L as <- <-. simpl.
    split; intros ->; simpl; [auto|].
    split; [reflexivity|].
    destruct (patients_dat st) as [old|]; split; intros Hremove;
      try rewrite Hremove; reflexivity.
  - intros _ [Hex| ->].
    + apply Herr in Hex. subst loop_error.
      destruct (tmp_close_ok io); simpl; auto.
    + simpl. auto.
  - discriminate.
Qed.

(** The replacement is a [remove] followed by a [rename]: when the
    first goes through and the second does not, [patients.dat] is gone
    and the records are in [patients.tmp]. *)
Remark updatePatientsFile_rename_failure st io old :
  patients_dat st = Some old ->
  tmp_open_ok io = true ->
  (forall k, tmp_write_ok io k = true) ->
  tmp_close_ok io = true ->
  dat_remove_ok io = true ->
  dat_rename_ok io = false ->
  patients_dat (updatePatientsFile st io) = None
  /\ patients_tmp (updatePatientsFile st io) = Some (file_image (patientHead st)).
Proof.
  intros Hdat Ho Hw Hc Hr Hn. unfold updatePatientsFile.
  rewrite Ho, (write_loop_complete _ 0 _ []) by (intros; apply Hw).
  simpl. rewrite Hc, Hn, Hdat, Hr. simpl. auto.
Qed.

(** ** Discharge *)

(** [removePatientFromSystem] on the record that [getPatientFromList]
    found: the node is unlinked whatever happens to the rewrite. *)
Lemma removePatientFromSystem_unlinks st p io before after :
  patientHead st = before ++ p :: after ->
  ~ In (patientId p) (map patientId before) ->
  let st' := removePatientFromSystem st p io in
  patientHead st' = before ++ after
  /\ totalPatients st' = wrap_int (totalPatients st - 1)
  /\ patientIDCounter st' = patientIDCounter st
  /\ discharged_patients_dat st' = discharged_patients_dat st
  /\ room_usage_txt st' = room_usage_txt st.
Proof.
  intros Hhead Hnot. unfold removePatientFromSystem.
  assert (Hun : unlink_by_id (patientId p) (patientHead st) = Some (before ++ after)).
  { rewrite Hhead. clear Hhead. induction before as [|node rest IH]; simpl.
    - now rewrite Z.eqb_refl.
    - simpl in Hnot.
      destruct (Z.eqb_spec (patientId node) (patientId p)) as [E|E]; [tauto|].
      rewrite IH by tauto. reflexivity. }
  destruct (patientHead st) as [|current nextNode] eqn:Hst.
  - destruct before; discriminate.
  - destruct (Z.eqb_spec (patientId current) (patientId p)) as [E|E].
    + simpl in Hun. rewrite E, Z.eqb_refl in Hun. injection Hun as Hun.
      pose proof (updatePatientsFile_frame
        (set_memory st nextNode (wrap_int (totalPatients st - 1)) (patientIDCounter st)) io) as F.
      simpl in F. rewrite <- Hun. exact F.
    + rewrite Hun.
      pose proof (updatePatientsFile_frame
        (set_memory st (before ++ after) (wrap_int (totalPatients st - 1)) (patientIDCounter st)) io) as F.
      simpl in F. exact F.
Qed.

(** C10. When the ID typed at [dischargePatient] is that of an active
    patient and the confirmation character is not a lowercase y, the
    whole store is left as it was: list, count, ID counter,
    [patients.dat], the archive and the usage log. *)
Theorem dischargePatient_without_confirmation st inp p :
  getPatientFromList (dis_id inp) (patientHead st) = Some p ->
  dis_confirm inp <> "y"%char ->
  dischargePatient st inp = st.
Proof.
  intros Hfound Hchar. unfold dischargePatient, confirmDischarge.
  rewrite Hfound.
  destruct (Ascii.eqb_spec (dis_confirm inp) "y") as [E|E]; [contradiction|].
  now destruct (patientHead st).
Qed.

(** The two ways a confirmed [dischargePatient] of an active patient can
    end. *)
Lemma dischargePatient_confirmed st inp p :
  getPatientFromList (dis_id inp) (patientHead st) = Some p ->
  confirmDischarge (dis_confirm inp) = true ->
  let st' := dischargePatient st inp in
  exists before after,
    patientHead st = before ++ p :: after
    /\ ~ In (patientId p) (map patientId before)
    /\ patientIDCounter st' = patientIDCounter st
    /\ if dis_archive_open_ok inp && dis_archive_write_ok inp then
         patientHead st' = before ++ after
         /\ totalPatients st' = wrap_int (totalPatients st - 1)
         /\ discharged_patients_dat st' =
              Some (opened_for_append (discharged_patients_dat st)
                    ++ [{| patient := p; dischargeDate := dis_now inp |}])
       else
         patientHead st' = patientHead st
         /\ totalPatients st' = totalPatients st
         /\ patients_dat st' = patients_dat st
         /\ patients_tmp st' = patients_tmp st
         /\ room_usage_txt st' = room_usage_txt st
         /\ opened_for_append (discharged_patients_dat st') =
              opened_for_append (discharged_patients_dat st).
Proof.
  intros Hfound Hconf. unfold dischargePatient. rewrite Hfound, Hconf.
  destruct (getPatientFromList_split _ _ _ Hfound) as [before [after [Hhead [Hid [Hnot _]]]]].
  exists before, after. rewrite <- Hid in Hnot.
  destruct (patientHead st) as [|c n] eqn:Hst; [destruct before; discriminate|].
  rewrite <- Hst in *.
  split; [|split]; try assumption.
  destruct (dis_archive_open_ok inp); simpl; [|repeat split].
  destruct (dis_archive_write_ok inp); simpl; [|repeat split].
  set (st1 := set_archive st _).
  set (st2 := logRoomUsage st1 _ _).
  assert (H2 : patientHead st2 = patientHead st
               /\ totalPatients st2 = totalPatients st
               /\ patientIDCounter st2 = patientIDCounter st
               /\ discharged_patients_dat st2 = discharged_patients_dat st1).
  { unfold st2, logRoomUsage. destruct (dis_log_open_ok inp); simpl; auto. }
  destruct H2 as [Hh [Ht [Hc Ha]]].
  rewrite <- Hh in Hhead.
  destruct (removePatientFromSystem_unlinks st2 p (dis_update inp) _ _ Hhead Hnot)
    as [R1 [R2 [R3 [R4 _]]]].
  rewrite R1, R2, R3, R4, Ht, Hc, Ha. simpl. auto.
Qed.

(** C4 (amended). In a confirmed [dischargePatient] of an active
    patient, a failure to open or to write the archive ends the
    operation: the patient stays in the active list and neither the
    usage log nor [patients.dat] is written.  Once the archive record is
    written, the patient is unlinked from the list whatever the outcome
    of the usage log and of the rewrite of [patients.dat]. *)
Theorem dischargePatient_persistence_failures st inp p :
  getPatientFromList (dis_id inp) (patientHead st) = Some p ->
  confirmDischarge (dis_confirm inp) = true ->
  let st' := dischargePatient st inp in
  (dis_archive_open_ok inp = false \/ dis_archive_write_ok inp = false ->
     patientHead st' = patientHead st
     /\ totalPatients st' = totalPatients st
     /\ patients_dat st' = patients_dat st
     /\ room_usage_txt st' = room_usage_txt st)
  /\ (dis_archive_open_ok inp = true -> dis_archive_write_ok inp = true ->
      unlink_by_id (dis_id inp) (patientHead st) = Some (patientHead st')
      /\ totalPatients st' = wrap_int (totalPatients st - 1)
      /\ In {| patient := p; dischargeDate := dis_now inp |}
            (opened_for_append (discharged_patients_dat st'))).
Proof.
  intros Hfound Hconf.
  destruct (dischargePatient_confirmed st inp p Hfound Hconf)
    as [before [after [Hhead [Hnot [_ Hcases]]]]].
  destruct (getPatientFromList_split _ _ _ Hfound) as [b [a [Hhead' [Hid [Hnot' Hun]]]]].
  simpl. split.
  - intros Hfail.
    assert (E : dis_archive_open_ok inp && dis_archive_write_ok inp = false).
    { destruct Hfail as [-> | ->]; [reflexivity | apply andb_false_r]. }
    rewrite E in Hcases. tauto.
  - intros Ho Hw. rewrite Ho, Hw in Hcases. simpl in Hcases.
    destruct Hcases as [Hh [Ht Ha]].
    repeat split; [|exact Ht|].
    + rewrite Hun, Hh. f_equal.
      assert (Hb : b = before /\ a = after).
      { rewrite Hhead in Hhead'. clear - Hhead' Hnot Hnot' Hid.
        rewrite <- Hid in Hnot'.
        revert b Hhead' Hnot'. induction before as [|x before IH]; intros b Hb Hn.
        - destruct b as [|y b]; simpl in *.
          + injection Hb as <-. auto.
          + injection Hb as -> _. tauto.
        - destruct b as [|y b]; simpl in *.
          + injection Hb as -> _. tauto.
          + injection Hb as <- Hb.
            destruct (IH ltac:(tauto) b Hb ltac:(tauto)) as [-> ->]. auto. }
      destruct Hb as [-> ->]. reflexivity.
    + rewrite Ha. simpl. apply in_or_app. right. now left.
Qed.

(** ** Runs without a reload *)

Lemma dischargePatient_noop st inp :
  getPatientFromList (dis_id inp) (patientHead st) = None
  \/ confirmDischarge (dis_confirm inp) = false ->
  dischargePatient st inp = st.
Proof.
  unfold dischargePatient. intros [H|H].
  - rewrite H. now destruct (patientHead st).
  - rewrite H. destruct (patientHead st); [reflexivity|].
    now destruct (getPatientFromList _ _).
Qed.

(** What an operation other than a reload does to the list, the counter
    and the archive. *)
Lemma perform_cases st op st' :
  perform st op = Some st' ->
  reloads op = false ->
  (is_admission op = true
   /\ exists p,
        patientId p = patientIDCounter st
        /\ validateRoomNumber (roomNumber p) = IS_VALID
        /\ ~ In (roomNumber p) (active_rooms st)
        /\ (patientHead st' = patientHead st ++ [p] \/ patientHead st' = [])
        /\ patientIDCounter st' = wrap_int (patientIDCounter st + 1)
        /\ archived_ids st' = archived_ids st)
  \/ (is_admission op = false
      /\ patientIDCounter st' = patientIDCounter st
      /\ ((patientHead st' = patientHead st /\ archived_ids st' = archived_ids st)
          \/ exists p before after,
               patientHead st = before ++ p :: after
               /\ patientHead st' = before ++ after
               /\ archived_ids st' = archived_ids st ++ [patientId p])).
Proof.
  destruct op as [inp|inp|io|io]; simpl; intros H Hr; try discriminate.
  - left. split; [reflexivity|].
    destruct (addPatientRecord st inp) as [[st1 p]|] eqn:A; [|discriminate].
    injection H as <-. apply addPatientRecord_effect in A.
    destruct A as [Hid [Hv [Hf [Hh [Hc [_ [Ha _]]]]]]].
    exists p. repeat split; auto.
    + rewrite Hh. destruct (adm_malloc_ok inp).
      * left. apply insertPatientAtEndOfList_ok.
      * now right.
    + unfold archived_ids. now rewrite Ha.
  - right. split; [reflexivity|]. injection H as <-.
    destruct (getPatientFromList (dis_id inp) (patientHead st)) as [p|] eqn:G.
    2:{ rewrite dischargePatient_noop by now left. auto. }
    destruct (confirmDischarge (dis_confirm inp)) eqn:C.
    2:{ rewrite dischargePatient_noop by now right. auto. }
    destruct (dischargePatient_confirmed st inp p G C)
      as [before [after [Hhead [_ [Hc Hcases]]]]].
    split; [exact Hc|].
    destruct (dis_archive_open_ok inp && dis_archive_write_ok inp).
    + right. exists p, before, after.
      destruct Hcases as [Hh [_ Ha]]. repeat split; auto.
      unfold archived_ids. rewrite Ha. simpl. now rewrite map_app.
    + left. destruct Hcases as [Hh [_ [_ [_ [_ Ha]]]]]. split; [exact Hh|].
      unfold archived_ids. now rewrite Ha.
  - right. split; [reflexivity|]. injection H as <-.
    destruct (updatePatientsFile_frame st io) as [Hh [_ [Hc [Ha _]]]].
    unfold backupPatientSystem. split; [exact Hc|]. left. split; [exact Hh|].
    unfold archived_ids. now rewrite Ha.
Qed.

Lemma perform_rooms_exclusive st op st' :
  perform st op = Some st' ->
  reloads op = false ->
  rooms_exclusive st -> rooms_exclusive st'.
Proof.
  intros H Hr [Hnd Hval].
  destruct (perform_cases _ _ _ H Hr)
    as [[_ [p [_ [Hv [Hf [Hh _]]]]]] | [_ [_ [[Hh _] | [p [before [after [Hs [Hh _]]]]]]]]];
    unfold rooms_exclusive, active_rooms in *.
  - destruct Hh as [-> | ->].
    + rewrite map_app. simpl. split.
      * apply (Permutation_NoDup (l := roomNumber p :: map roomNumber (patientHead st))).
        -- apply Permutation_cons_append.
        -- now constructor.
      * apply Forall_app. split; [exact Hval | now constructor].
    + simpl. split; constructor.
  - now rewrite Hh.
  - rewrite Hh. rewrite Hs in Hnd, Hval. rewrite map_app in *. simpl in Hnd.
    split.
    + now apply NoDup_remove_1 in Hnd.
    + apply Forall_app in Hval. destruct Hval as [V1 V2].
      apply Forall_app. split; [exact V1 | now inversion V2].
Qed.

Lemma run_rooms_exclusive ops : forall st st',
  run st ops = Some st' ->
  existsb reloads ops = false ->
  rooms_exclusive st -> rooms_exclusive st'.
Proof.
  induction ops as [|op later IH]; intros st st'; simpl.
  - intros H _ Hinv. now injection H as <-.
  - destruct (perform st op) as [st1|] eqn:P; [|discriminate].
    intros H Hr Hinv. apply orb_false_iff in Hr. destruct Hr as [Hr1 Hr2].
    apply (IH _ _ H Hr2). now apply (perform_rooms_exclusive _ _ _ P).
Qed.

(** ** Uniqueness of IDs between two loads *)

Lemma ids_unique_permutation st st' :
  Permutation (active_ids st ++ archived_ids st) (active_ids st' ++ archived_ids st') ->
  patientIDCounter st' = patientIDCounter st ->
  ids_unique st -> ids_unique st'.
Proof.
  intros Hp Hc [Hnd Hlt]. split.
  - now apply (Permutation_NoDup Hp).
  - rewrite Hc. rewrite Forall_forall in *. intros id Hin.
    apply Hlt. now apply (Permutation_in _ (Permutation_sym Hp)).
Qed.

Lemma perform_ids_unique st op st' :
  perform st op = Some st' ->
  reloads op = false ->
  INT_MIN <= patientIDCounter st ->
  patientIDCounter st + (if is_admission op then 1 else 0) <= INT_MAX ->
  ids_unique st ->
  ids_unique st'
  /\ patientIDCounter st' = patientIDCounter st + (if is_admission op then 1 else 0).
Proof.
  intros H Hr Hlo Hhi Hinv.
  destruct (perform_cases _ _ _ H Hr)
    as [[Hadm [p [Hid [_ [_ [Hh [Hc Ha]]]]]]]
       | [Hadm [Hc [[Hh Ha] | [p [before [after [Hs [Hh Ha]]]]]]]]];
    rewrite Hadm in *.
  - 
    rewrite wrap_int_in_range in Hc by (unfold INT_MIN, INT_MAX in *; lia).
    split; [|exact Hc]. destruct Hinv as [Hnd Hlt].
    unfold ids_unique, active_ids in *. rewrite Ha, Hc.
    assert (Hfresh : ~ In (patientId p) (map patientId (patientHead st) ++ archived_ids st)).
    { intros Hin. rewrite Forall_forall in Hlt. specialize (Hlt _ Hin). lia. }
    assert (Hlt' : Forall (fun id => id < patientIDCounter st + 1)
                     (map patientId (patientHead st) ++ archived_ids st)).
    { eapply Forall_impl; [|exact Hlt]. simpl. intros. lia. }
    destruct Hh as [-> | ->].
    + rewrite map_app. simpl. rewrite <- app_assoc. simpl. split.
      * apply (Permutation_NoDup (Permutation_middle _ _ _)). now constructor.
      * apply Forall_app in Hlt'. destruct Hlt' as [L1 L2].
        apply Forall_app. split; [exact L1|]. constructor; [lia | exact L2].
    + simpl. apply NoDup_app_remove_l in Hnd.
      apply Forall_app in Hlt'. now split.
  - rewrite Z.add_0_r. split; [|exact Hc].
    apply (ids_unique_permutation st); [|exact Hc|exact Hinv].
    unfold active_ids. now rewrite Hh, Ha.
  - rewrite Z.add_0_r. split; [|exact Hc].
    apply (ids_unique_permutation st); [|exact Hc|exact Hinv].
    unfold active_ids. rewrite Hh, Ha, Hs, !map_app. simpl.
    rewrite <- !app_assoc. simpl.
    apply Permutation_app_head.
    transitivity (patientId p :: (map patientId after ++ archived_ids st)).
    + reflexivity.
    + rewrite (app_assoc (map patientId after)). apply Permutation_cons_append.
Qed.

(** C5 (amended). Between two loads of [patients.dat], in every run of
    admissions, discharges and backups that keeps the counter within
    [int], the IDs of the active records and of the archived records
    stay pairwise distinct and below the counter: an ID given to a
    record, discharged since or not, is not given again. *)
Theorem ids_unique_without_reload ops : forall st st',
  ids_unique st ->
  INT_MIN <= patientIDCounter st ->
  patientIDCounter st + Z.of_nat (length (filter is_admission ops)) <= INT_MAX ->
  existsb reloads ops = false ->
  run st ops = Some st' ->
  ids_unique st'.
Proof.
  induction ops as [|op later IH]; intros st st' Hinv Hlo Hhi Hr Hrun;
    simpl in Hrun, Hr.
  - now injection Hrun as <-.
  - destruct (perform st op) as [st1|] eqn:P; [|discriminate].
    apply orb_false_iff in Hr. destruct Hr as [Hr1 Hr2].
    assert (Hlen : Z.of_nat (length (filter is_admission (op :: later)))
                   = (if is_admission op then 1 else 0)
                     + Z.of_nat (length (filter is_admission later))).
    { simpl. destruct (is_admission op); [|reflexivity].
      change (length (op :: filter is_admission later))
        with (S (length (filter is_admission later))). lia. }
    rewrite Hlen in Hhi.
    destruct (perform_ids_unique _ _ _ P Hr1 Hlo) as [Hinv1 Hc1];
      [destruct (is_admission op); lia | exact Hinv |].
    apply (IH st1 st' Hinv1); try assumption; rewrite Hc1;
      destruct (is_admission op); lia.
Qed.

(** ** Loading [patients.dat] *)

Lemma max_id_from_fold records : forall maxId,
  max_id_from maxId records = fold_left Z.max (map patientId records) maxId.
Proof.
  induction records as [|node nextNode IH]; intros maxId; simpl; [reflexivity|].
  rewrite IH. f_equal.
  destruct (Z.gtb_spec (patientId node) maxId); lia.
Qed.

Lemma fold_left_max_floor ids : forall a b,
  fold_left Z.max ids (Z.max a b) = Z.max a (fold_left Z.max ids b).
Proof.
  induction ids as [|id rest IH]; intros a b; simpl; [reflexivity|].
  now rewrite <- IH, Z.max_assoc.
Qed.

(** [computeNextPatientId] against the largest ID present. *)
Lemma computeNextPatientId_max records :
  computeNextPatientId records =
    match max_existing_id records with
    | None => DEFAULT_ID
    | Some m => wrap_int (Z.max 0 m + 1)
    end.
Proof.
  unfold computeNextPatientId. rewrite max_id_from_fold.
  destruct records as [|first others]; simpl; [reflexivity|].
  now rewrite fold_left_max_floor.
Qed.

(** The reading loop on a stream made of whole records followed by
    fewer bytes than a record: every whole record is appended, in
    order, and the loop ends at the incomplete one. *)
Lemma fread_loop_chunks chunks : forall tail fuel k malloc_ok head total foundData,
  Forall (fun chunk => length chunk = sizeof_Patient) chunks ->
  (length tail < sizeof_Patient)%nat ->
  (length chunks <= fuel)%nat ->
  (forall i, (i < length chunks)%nat -> malloc_ok (k + i)%nat = true) ->
  fread_loop fuel (concat chunks ++ tail) k malloc_ok head total foundData =
    ReadDone (head ++ map decode_Patient chunks)
             (Nat.iter (length chunks) (fun t => wrap_int (t + 1)) total)
             (match chunks with [] => foundData | _ :: _ => true end).
Proof.
  induction chunks as [|chunk rest IH];
    intros tail fuel k malloc_ok head total foundData Hall Htail Hfuel Hm.
  - simpl. rewrite app_nil_r.
    destruct fuel as [|fuel]; simpl; [reflexivity|].
    destruct (Nat.leb_spec sizeof_Patient (length tail)); [lia | reflexivity].
  - inversion Hall as [|? ? Hlen Hrest]; subst.
    destruct fuel as [|fuel]; [simpl in Hfuel; lia|].
    simpl concat. rewrite <- app_assoc. simpl fread_loop.
    rewrite length_app.
    destruct (Nat.leb_spec sizeof_Patient (length chunk + length (concat rest ++ tail)));
      [|lia].
    replace (firstn sizeof_Patient (chunk ++ concat rest ++ tail)) with chunk
      by (rewrite <- Hlen, firstn_app, Nat.sub_diag, firstn_all, firstn_O;
          now rewrite app_nil_r).
    replace (skipn sizeof_Patient (chunk ++ concat rest ++ tail))
      with (concat rest ++ tail)
      by (now rewrite <- Hlen, skipn_app, Nat.sub_diag, skipn_all, skipn_O).
    rewrite <- (Nat.add_0_r k) at 1. rewrite Hm by (simpl; lia).
    rewrite insertPatientAtEndOfList_ok.
    destruct (head ++ [decode_Patient chunk]) as [|x l] eqn:E.
    { destruct head; discriminate. }
    rewrite <- E. rewrite IH; try assumption.
    + change (length (chunk :: rest)) with (S (length rest)).
      rewrite Nat.iter_succ_r, <- app_assoc.
      now destruct rest.
    + simpl in Hfuel. lia.
    + intros i Hi. replace (S k + i)%nat with (k + S i)%nat by lia.
      apply Hm. simpl. lia.
Qed.

Lemma concat_chunks_length (chunks : list (list byte)) :
  Forall (fun chunk => length chunk = sizeof_Patient) chunks ->
  (length chunks <= length (concat chunks))%nat.
Proof.
  pose proof sizeof_Patient_pos.
  induction 1 as [|chunk rest Hlen _ IH]; simpl; [lia|].
  rewrite length_app. lia.
Qed.

(** [initializePatientSystem] on a file made of whole records followed
    by fewer bytes than a record. *)
Lemma initializePatientSystem_chunks st io chunks tail :
  patients_dat st = Some (concat chunks ++ tail) ->
  Forall (fun chunk => length chunk = sizeof_Patient) chunks ->
  (length tail < sizeof_Patient)%nat ->
  load_open_ok io = true ->
  (forall k, load_malloc_ok io k = true) ->
  let st' := initializePatientSystem st io in
  patientHead st' = map decode_Patient chunks
  /\ patientIDCounter st' = computeNextPatientId (map decode_Patient chunks)
  /\ totalPatients st' =
       Nat.iter (length chunks) (fun t => wrap_int (t + 1)) IS_EMPTY
  /\ (chunks <> [] \/ tail = [] -> patients_dat st' = patients_dat st).
Proof.
  intros Hdat Hall Htail Ho Hm. unfold initializePatientSystem.
  rewrite Ho. simpl patients_dat. rewrite Hdat.
  destruct (concat chunks ++ tail) as [|b contents] eqn:E.
  - assert (chunks = []) as ->.
    { destruct chunks as [|chunk rest]; [reflexivity|].
      inversion Hall as [|? ? Hlen _]; subst.
      pose proof sizeof_Patient_pos.
      simpl in E. destruct chunk; [simpl in Hlen; lia | discriminate]. }
    simpl. auto.
  - rewrite <- E.
    change (patientHead (clearMemory st)) with (@nil Patient).
    change (totalPatients (clearMemory st)) with IS_EMPTY.
    rewrite fread_loop_chunks; try assumption.
    + simpl app. destruct chunks as [|chunk rest]; simpl negb; cbv iota.
      * unfold clearBinaryFile. destruct (load_clear_open_ok io); simpl;
          repeat split; intros [F | ->]; try congruence; discriminate.
      * simpl. repeat split. intros _. rewrite Hdat, <- E. reflexivity.
    + rewrite length_app. pose proof (concat_chunks_length chunks Hall). lia.
    + intros. apply Hm.
Qed.

(** C9. When [patients.dat] holds whole records followed by a truncated
    one, [initializePatientSystem] returns with exactly the whole
    records in the list, in file order: the reading stops at the
    truncated record.  The file is assumed to open and [malloc] to
    succeed. *)
Theorem initializePatientSystem_truncated_file st io chunks partial :
  patients_dat st = Some (concat chunks ++ partial) ->
  Forall (fun chunk => length chunk = sizeof_Patient) chunks ->
  (0 < length partial < sizeof_Patient)%nat ->
  load_open_ok io = true ->
  (forall k, load_malloc_ok io k = true) ->
  patientHead (initializePatientSystem st io) = map decode_Patient chunks
  /\ totalPatients (initializePatientSystem st io) =
       Nat.iter (length chunks) (fun t => wrap_int (t + 1)) IS_EMPTY.
Proof.
  intros Hdat Hall Hpartial Ho Hm.
  destruct (initializePatientSystem_chunks st io chunks partial Hdat Hall
              ltac:(lia) Ho Hm) as [Hh [_ [Ht _]]].
  now split.
Qed.

(** C6. [initializePatientSystem] on a missing, unreadable or empty
    [patients.dat] gives the empty list and the default counter; on a
    file that holds records it gives these records and, the largest of
    their IDs being non-negative and below [INT_MAX], a counter one
    above it.  In the second case the file is assumed to open and
    [malloc] to succeed. *)
Theorem initializePatientSystem_counter st io :
  let st' := initializePatientSystem st io in
  (patients_dat st = None \/ patients_dat st = Some [] \/ load_open_ok io = false ->
     patientHead st' = [] /\ totalPatients st' = IS_EMPTY
     /\ patientIDCounter st' = DEFAULT_ID)
  /\ (forall chunks tail m,
        patients_dat st = Some (concat chunks ++ tail) ->
        Forall (fun chunk => length chunk = sizeof_Patient) chunks ->
        (length tail < sizeof_Patient)%nat ->
        load_open_ok io = true ->
        (forall k, load_malloc_ok io k = true) ->
        max_existing_id (map decode_Patient chunks) = Some m ->
        0 <= m < INT_MAX ->
        patientHead st' = map decode_Patient chunks
        /\ patientIDCounter st' = m + 1).
Proof.
  simpl. split.
  - unfold initializePatientSystem. simpl patients_dat.
    intros [-> | [-> | ->]]; try destruct (load_open_ok io); simpl; auto.
  - intros chunks tail m Hdat Hall Htail Ho Hm Hmax Hrange.
    destruct (initializePatientSystem_chunks st io chunks tail Hdat Hall Htail Ho Hm)
      as [Hh [Hc _]].
    split; [exact Hh|].
    rewrite Hc, computeNextPatientId_max, Hmax.
    rewrite Z.max_r by lia. apply wrap_int_in_range.
    unfold INT_MIN, INT_MAX in *. lia.
Qed.

(** ** Room exclusivity in runs *)

Lemma file_image_app records p :
  file_image (records ++ [p]) = file_image records ++ encode_Patient p.
Proof.
  unfold file_image. rewrite flat_map_app. simpl. now rewrite app_nil_r.
Qed.

Lemma updatePatientsFile_success st io :
  update_succeeds io ->
  patients_dat (updatePatientsFile st io) = Some (file_image (patientHead st)).
Proof.
  intros [Ho [Hw [Hc Hr]]]. unfold updatePatientsFile.
  rewrite Ho, (write_loop_complete _ 0 _ []) by (intros; apply Hw).
  simpl. now rewrite Hc, Hr.
Qed.

Lemma addPatientRecord_file st inp st' newPatient :
  addPatientRecord st inp = Some (st', newPatient) ->
  adm_append_open_ok inp = true ->
  patients_dat st' =
    Some (opened_for_append (patients_dat st) ++ encode_Patient newPatient).
Proof.
  unfold addPatientRecord.
  destruct (getRoomNumber (adm_rooms inp) (patientHead st)) as [[room later]|];
    [|discriminate].
  intros H Ho. injection H as <- <-.
  unfold writePatientToFile. now rewrite Ho.
Qed.

Lemma removePatientFromSystem_rewrites st p io before after :
  patientHead st = before ++ p :: after ->
  ~ In (patientId p) (map patientId before) ->
  update_succeeds io ->
  patients_dat (removePatientFromSystem st p io) = Some (file_image (before ++ after)).
Proof.
  intros Hhead Hnot Hio. unfold removePatientFromSystem.
  assert (Hun : unlink_by_id (patientId p) (patientHead st) = Some (before ++ after)).
  { rewrite Hhead. clear Hhead. induction before as [|node rest IH]; simpl.
    - now rewrite Z.eqb_refl.
    - simpl in Hnot.
      destruct (Z.eqb_spec (patientId node) (patientId p)) as [E|E]; [tauto|].
      rewrite IH by tauto. reflexivity. }
  destruct (patientHead st) as [|current nextNode] eqn:Hst.
  - destruct before; discriminate.
  - destruct (Z.eqb_spec (patientId current) (patientId p)) as [E|E].
    + simpl in Hun. rewrite E, Z.eqb_refl in Hun. injection Hun as Hun.
      rewrite updatePatientsFile_success by assumption. simpl. now rewrite Hun.
    + rewrite Hun. now rewrite updatePatientsFile_success by assumption.
Qed.

Lemma decode_encode_all records :
  Forall survives_file records ->
  map decode_Patient (map encode_Patient records) = records.
Proof.
  induction 1 as [|p rest Hp _ IH]; simpl; [reflexivity|].
  now rewrite Hp, IH.
Qed.

(** A reload of a mirrored store gives the same list back. *)
Lemma initializePatientSystem_mirror st io :
  on_disk st ->
  load_open_ok io = true ->
  (forall k, load_malloc_ok io k = true) ->
  patientHead (initializePatientSystem st io) = patientHead st
  /\ patients_dat (initializePatientSystem st io) = patients_dat st.
Proof.
  intros [[Hdat | [Hdat Hhead]] Hsurv] Ho Hm.
  - assert (Hc : patients_dat st
                 = Some (concat (map encode_Patient (patientHead st)) ++ [])).
    { rewrite app_nil_r, Hdat. unfold file_image. now rewrite flat_map_concat_map. }
    destruct (initializePatientSystem_chunks st io _ [] Hc) as [Hh [_ [_ Hd]]];
      try assumption.
    + apply Forall_map. apply Forall_forall. intros p _. apply encode_Patient_length.
    + pose proof sizeof_Patient_pos. simpl. lia.
    + split; [|apply Hd; now right].
      rewrite Hh. now apply decode_encode_all.
  - unfold initializePatientSystem. rewrite Ho. simpl patients_dat.
    rewrite Hdat, Hhead. simpl. auto.
Qed.

(** One operation that goes through keeps the rooms exclusive and the
    file a mirror of the list. *)
Lemma perform_mirror st op st' :
  perform st op = Some st' ->
  goes_through st op ->
  rooms_exclusive st -> on_disk st ->
  rooms_exclusive st' /\ on_disk st'.
Proof.
  intros H Hgo Hrooms Hdisk.
  destruct op as [inp|inp|io|io].
  - split; [now apply (perform_rooms_exclusive _ _ _ H)|].
    simpl in H, Hgo.
    destruct (addPatientRecord st inp) as [[st1 p]|] eqn:A; [|discriminate].
    injection H as <-. destruct Hgo as [Hm [Ho Hs]].
    pose proof (addPatientRecord_file _ _ _ _ A Ho) as Hfile.
    apply addPatientRecord_effect in A. destruct A as [_ [_ [_ [Hh _]]]].
    rewrite Hm, insertPatientAtEndOfList_ok in Hh.
    destruct Hdisk as [Hd Hsurv]. split.
    + left. rewrite Hfile, Hh, file_image_app.
      destruct Hd as [-> | [-> ->]]; reflexivity.
    + rewrite Hh. apply Forall_app. split; [exact Hsurv | now constructor].
  - split; [now apply (perform_rooms_exclusive _ _ _ H)|].
    simpl in H, Hgo. injection H as <-.
    destruct (getPatientFromList (dis_id inp) (patientHead st)) as [p|] eqn:G.
    2:{ now rewrite dischargePatient_noop by now left. }
    destruct (confirmDischarge (dis_confirm inp)) eqn:C.
    2:{ now rewrite dischargePatient_noop by now right. }
    destruct (dischargePatient_confirmed st inp p G C)
      as [before [after [Hhead [Hnot [_ Hcases]]]]].
    destruct Hdisk as [Hd Hsurv].
    destruct (dis_archive_open_ok inp) eqn:Ao, (dis_archive_write_ok inp) eqn:Aw;
      simpl in Hcases.
    + destruct Hcases as [Hh _]. split.
      * left. rewrite Hh. unfold dischargePatient.
        rewrite G, C, Ao, Aw. simpl.
        destruct (patientHead st) as [|c n] eqn:Hst;
          [destruct before; discriminate|].
        apply removePatientFromSystem_rewrites; try assumption.
        unfold logRoomUsage. destruct (dis_log_open_ok inp); simpl;
          now rewrite Hst.
      * rewrite Hh. rewrite Hhead in Hsurv. apply Forall_app in Hsurv.
        destruct Hsurv as [S1 S2]. apply Forall_app. split; [exact S1|].
        now inversion S2.
    + destruct Hcases as [Hh [_ [Hf _]]]. unfold on_disk. now rewrite Hh, Hf.
    + destruct Hcases as [Hh [_ [Hf _]]]. unfold on_disk. now rewrite Hh, Hf.
    + destruct Hcases as [Hh [_ [Hf _]]]. unfold on_disk. now rewrite Hh, Hf.
  - split; [now apply (perform_rooms_exclusive _ _ _ H)|].
    simpl in H, Hgo. injection H as <-. unfold backupPatientSystem.
    destruct (updatePatientsFile_frame st io) as [Hh _].
    destruct Hdisk as [_ Hsurv]. split.
    + left. now rewrite Hh, updatePatientsFile_success.
    + now rewrite Hh.
  - simpl in H, Hgo. injection H as <-. destruct Hgo as [Ho Hm].
    unfold restoreDataFromFile.
    destruct (initializePatientSystem_mirror st io Hdisk Ho Hm) as [Hh Hf].
    unfold rooms_exclusive, on_disk, active_rooms in *.
    now rewrite Hh, Hf.
Qed.

Lemma run_mirror ops : forall st st',
  run st ops = Some st' ->
  run_goes_through st ops ->
  rooms_exclusive st -> on_disk st ->
  rooms_exclusive st'.
Proof.
  induction ops as [|op later IH]; intros st st'; simpl.
  - intros H _ Hrooms _. now injection H as <-.
  - destruct (perform st op) as [st1|] eqn:P; [|discriminate].
    intros H [Hgo Hlater] Hrooms Hdisk.
    destruct (perform_mirror _ _ _ P Hgo Hrooms Hdisk) as [Hrooms1 Hdisk1].
    now apply (IH st1 st').
Qed.

(** C1 (amended). From a store where rooms are exclusive, a run of
    admissions, discharges, backups and reloads keeps at most one active
    record per room when it does not reload [patients.dat], whatever the
    outcome of the file operations, and also when it reloads, provided
    [patients.dat] mirrors the list at the start and every operation
    goes through.  In the state reached, the room prompt rejects a room
    of the valid range exactly when an active record holds it, and after
    a discharge that wrote its archive record the room of the discharged
    patient is reported unoccupied and is accepted by the next room
    prompt. *)
Theorem room_exclusivity_in_runs st ops st' :
  rooms_exclusive st ->
  existsb reloads ops = false \/ (on_disk st /\ run_goes_through st ops) ->
  run st ops = Some st' ->
  NoDup (active_rooms st')
  /\ (forall room,
        validateRoomNumber room = IS_VALID ->
        (room_prompt (Entered room) (patientHead st') = IS_NOT_VALID
         <-> exists p, In p (patientHead st') /\ roomNumber p = room))
  /\ (forall inp p,
        getPatientFromList (dis_id inp) (patientHead st') = Some p ->
        confirmDischarge (dis_confirm inp) = true ->
        dis_archive_open_ok inp = true ->
        dis_archive_write_ok inp = true ->
        let st'' := dischargePatient st' inp in
        isRoomOccupiedInList (roomNumber p) (patientHead st'') = ROOM_UNOCCUPIED
        /\ forall later,
             getRoomNumber (Entered (roomNumber p) :: later) (patientHead st'')
             = Some (roomNumber p, later)).
Proof.
  intros Hinv Hr Hrun.
  assert (Hinv' : rooms_exclusive st').
  { destruct Hr as [Hr | [Hdisk Hgo]].
    - exact (run_rooms_exclusive _ _ _ Hrun Hr Hinv).
    - exact (run_mirror _ _ _ Hrun Hgo Hinv Hdisk). }
  destruct Hinv' as [Hnd Hval].
  split; [exact Hnd|]. split.
  - intros room Hv. rewrite <- isRoomOccupiedInList_occupied.
    simpl. rewrite Hv.
    destruct (Z.eqb_spec (isRoomOccupiedInList room (patientHead st')) ROOM_UNOCCUPIED)
      as [E|E]; simpl; split; intros H; try discriminate; try reflexivity;
      try assumption; contradiction.
  - intros inp p Hfound Hconf Ho Hw.
    destruct (dischargePatient_confirmed st' inp p Hfound Hconf)
      as [before [after [Hhead [_ [_ Hcases]]]]].
    rewrite Ho, Hw in Hcases. simpl in Hcases. destruct Hcases as [Hh _].
    simpl. rewrite Hh.
    assert (Hfree : ~ In (roomNumber p) (map roomNumber (before ++ after))).
    { unfold active_rooms in Hnd. rewrite Hhead, map_app in Hnd. simpl in Hnd.
      rewrite map_app. now apply NoDup_remove_2 in Hnd. }
    split; [now apply isRoomOccupiedInList_unoccupied|].
    intros later.
    assert (Hp : room_prompt (Entered (roomNumber p)) (before ++ after) = IS_VALID).
    { apply room_prompt_valid. exists (roomNumber p). repeat split; auto.
      rewrite Hhead in Hval. apply Forall_app in Hval.
      destruct Hval as [_ V]. now inversion V. }
    simpl getRoomNumber. unfold room_prompt in Hp. now rewrite Hp.
Qed.

End StoreProperties.

(** ** The Daily timeframe *)

Lemma double_to_int_in_range truncated :
  INT_MIN <= truncated <= INT_MAX -> double_to_int truncated = truncated.
Proof.
  intros [Hlo Hhi]. unfold double_to_int.
  destruct (Z.leb_spec INT_MIN truncated), (Z.leb_spec truncated INT_MAX);
    try lia; reflexivity.
Qed.

Lemma quot_3600_window difference :
  Z.quot difference 3600 <= 24 <-> difference < 90000.
Proof.
  destruct (Z_lt_le_dec difference 0) as [Hneg|Hpos].
  - replace difference with (- (- difference)) by lia.
    rewrite Z.quot_opp_l by lia.
    pose proof (Z.quot_pos (- difference) 3600 ltac:(lia) ltac:(lia)). lia.
  - rewrite Z.quot_div_nonneg by lia.
    pose proof (Z.div_mod difference 3600 ltac:(lia)).
    pose proof (Z.mod_pos_bound difference 3600 ltac:(lia)). lia.
Qed.

(** The Daily test holds up to one second short of 25 hours, for an
    hour difference that fits an [int]. *)
Lemma past24Hours_window now stamp :
  INT_MIN <= Z.quot (now - stamp) 3600 <= INT_MAX ->
  (past24Hours now stamp = true <-> now - stamp < 90000).
Proof.
  intros Hrange. unfold past24Hours, hoursDiff.
  rewrite double_to_int_in_range by exact Hrange.
  rewrite Z.leb_le. apply quot_3600_window.
Qed.


(** C7 (the code departs from the claim). A record admitted 24 hours
    and 30 minutes before the report is more than 24 hours old, yet the
    Daily count includes it and the Daily report prints it: the hours
    are truncated before the comparison with 24. *)
Theorem daily_report_includes_record_older_than_24_hours localtime :
  let admitted := 1700000000 in
  let now := admitted + 24 * 3600 + 30 * 60 in
  let record := createPatient "Jane Doe" 34 "Fracture" 12 1 admitted in
  24 * 3600 < now - admissionDate record
  /\ past24Hours now (admissionDate record) = true
  /\ countPatientsByTimeframe localtime 1 now [record] = 1
  /\ printFormattedReport localtime 1 1 now [record] = (1, [record]).
Proof.
  simpl. repeat split.
Qed.

(** ** The room usage report *)

Lemma skip_space_length stream :
  (String.length (skip_space stream) <= String.length stream)%nat.
Proof.
  induction stream as [|c rest IH]; simpl; [lia|].
  destruct (isspace c); simpl; lia.
Qed.

Lemma scan_digits_length stream : forall value v rest,
  scan_digits value stream = (v, rest) ->
  (String.length rest <= String.length stream)%nat.
Proof.
  induction stream as [|c later IH]; intros value v rest; simpl.
  - intros H. injection H as <- <-. simpl. lia.
  - destruct (isdigit c).
    + intros H. apply IH in H. lia.
    + intros H. injection H as <- <-. simpl. lia.
Qed.

(** A successful conversion consumes at least one character. *)
Lemma fscanf_int_consumes stream room rest :
  fscanf_int stream = Some (room, rest) ->
  (String.length rest < String.length stream)%nat.
Proof.
  unfold fscanf_int. pose proof (skip_space_length stream) as Hs.
  destruct (skip_space stream) as [|c later]; [discriminate|].
  simpl in Hs.
  assert (Hbody : forall body (negative : bool),
            (String.length body <= S (String.length later))%nat ->
            match body with
            | EmptyString => None
            | String d _ =>
                if isdigit d then
                  let '(value, after) := scan_digits 0 body in
                  Some (scanf_store (if negative then - value else value), after)
                else None
            end = Some (room, rest) ->
            (String.length rest < String.length stream)%nat).
  { intros body negative Hlen. destruct body as [|d body']; [discriminate|].
    destruct (isdigit d) eqn:D; [|discriminate].
    simpl scan_digits. rewrite D.
    destruct (scan_digits _ body') as [value after] eqn:S.
    intros H. injection H as _ Hrest. subst after.
    apply scan_digits_length in S. simpl in Hlen. lia. }
  destruct (Ascii.eqb c "-"); [apply (Hbody later true); simpl; lia|].
  destruct (Ascii.eqb c "+");
    [apply (Hbody later false) | apply (Hbody (String c later) false)];
    simpl; lia.
Qed.

Lemma Scans_length text entries final :
  Scans text entries final -> (length entries <= String.length text)%nat.
Proof.
  induction 1 as [|stream room rest entries final Hscan _ IH]; simpl; [lia|].
  apply fscanf_int_consumes in Hscan. lia.
Qed.

(** Every text is scanned to some point. *)
Lemma Scans_total text : exists entries final, Scans text entries final.
Proof.
  remember (String.length text) as n eqn:Hn.
  revert text Hn. induction n as [n IH] using lt_wf_ind. intros text Hn.
  destruct (fscanf_int text) as [[room rest]|] eqn:F.
  - pose proof (fscanf_int_consumes _ _ _ F) as Hlt.
    destruct (IH (String.length rest) ltac:(lia) rest eq_refl) as [entries [final Hs]].
    exists (room :: entries), final. now apply Scans_step with rest.
  - exists [], text. now constructor.
Qed.

Lemma Scans_final text entries final :
  Scans text entries final -> fscanf_int final = None.
Proof. induction 1; assumption. Qed.

Lemma scanf_store_in_range value :
  INT_MIN <= value <= INT_MAX -> scanf_store value = value.
Proof.
  intros Hrange. unfold scanf_store.
  rewrite Z.min_r, Z.max_r by (unfold LONG_MIN, LONG_MAX, INT_MIN, INT_MAX in *; lia).
  now apply wrap_int_in_range.
Qed.

Lemma fscanf_int_fits_int stream room rest :
  fscanf_int stream = Some (room, rest) -> INT_MIN <= room <= INT_MAX.
Proof.
  unfold fscanf_int. destruct (skip_space stream) as [|c body]; [discriminate|].
  destruct (if Ascii.eqb c "-" then (true, body)
            else if Ascii.eqb c "+" then (false, body)
            else (false, String c body)) as [negative digits].
  destruct digits as [|d later]; [discriminate|].
  destruct (isdigit d); [|discriminate].
  destruct (scan_digits 0 (String d later)) as [value after].
  intros H. injection H as <- _. unfold scanf_store. apply wrap_int_bounds.
Qed.

(** Every number the reading converts is the value of an [int]. *)
Lemma Scans_fit_int text entries final :
  Scans text entries final ->
  Forall (fun room => INT_MIN <= room <= INT_MAX) entries.
Proof.
  induction 1 as [stream Hnone|stream room rest entries final Hscan _ IH];
    constructor; [|exact IH].
  now apply fscanf_int_fits_int in Hscan.
Qed.

(** With enough fuel the reading loop tallies exactly the numbers
    scanned. *)
Lemma usage_loop_scans text entries final :
  Scans text entries final ->
  forall fuel t, (length entries < fuel)%nat ->
  usage_loop fuel text t = fold_left tally_entry entries t.
Proof.
  induction 1 as [stream Hnone|stream room rest entries final Hscan _ IH];
    intros fuel t Hfuel; (destruct fuel as [|fuel]; [simpl in Hfuel; lia|]); simpl.
  - now rewrite Hnone.
  - rewrite Hscan. apply IH. simpl in Hfuel. lia.
Qed.

Lemma array_incr_length index array :
  length (array_incr index array) = length array.
Proof.
  revert index. induction array as [|x rest IH]; intros [|index]; simpl; auto.
Qed.

Lemma array_incr_nth array : forall index j,
  (index < length array)%nat ->
  nth j (array_incr index array) 0 =
    if (j =? index)%nat then wrap_int (nth j array 0 + 1) else nth j array 0.
Proof.
  induction array as [|x rest IH]; intros index j Hlt; simpl in Hlt; [lia|].
  destruct index as [|index], j as [|j]; simpl; try reflexivity.
  apply IH. lia.
Qed.

(** The tally after the entries [entries], counted declaratively. *)
Lemma tally_counts entries :
  Z.of_nat (length entries) <= INT_MAX ->
  let t := fold_left tally_entry entries tally_start in
  length (roomCounts t) = 51%nat
  /\ (forall room, 1 <= room <= 50 ->
        nth (Z.to_nat room) (roomCounts t) 0
        = Z.of_nat (count_occ Z.eq_dec entries room))
  /\ totalEntries t = Z.of_nat (length entries)
  /\ validEntries t = Z.of_nat (length (filter valid_usage_entry entries))
  /\ warned t = filter (fun room => negb (valid_usage_entry room)) entries.
Proof.
  induction entries as [|room entries IH] using rev_ind; intros Hlen.
  - simpl. repeat split. intros room Hr.
    assert (Hn : (Z.to_nat room < 51)%nat) by lia.
    revert Hn. generalize (Z.to_nat room). intros n Hn.
    do 51 (destruct n as [|n]; [reflexivity|]). lia.
  - rewrite length_app, Nat2Z.inj_add in Hlen. simpl length in Hlen.
    rewrite fold_left_app. simpl fold_left.
    destruct (IH ltac:(lia)) as [Hl [Hc [Ht [Hv Hw]]]]. clear IH.
    set (t := fold_left tally_entry entries tally_start) in *.
    pose proof (filter_length_le valid_usage_entry entries) as Hfl.
    unfold tally_entry.
    rewrite !filter_app, !length_app. simpl filter. simpl length.
    destruct (valid_usage_entry room) eqn:V; simpl.
    + unfold valid_usage_entry in V.
      apply andb_true_iff in V. destruct V as [V1 V2].
      apply Z.geb_le in V1. apply Z.leb_le in V2.
      rewrite array_incr_length. repeat split.
      * exact Hl.
      * intros r Hr. rewrite array_incr_nth by lia.
        rewrite count_occ_app. simpl count_occ.
        pose proof (count_occ_bound Z.eq_dec r entries) as Hb.
        destruct (Nat.eqb_spec (Z.to_nat r) (Z.to_nat room)) as [E|E];
          destruct (Z.eq_dec room r) as [E'|E']; try lia.
        -- rewrite Hc by lia. rewrite wrap_int_in_range;
             unfold INT_MIN, INT_MAX in *; lia.
        -- rewrite Hc by lia. lia.
      * rewrite Ht. rewrite wrap_int_in_range; unfold INT_MIN, INT_MAX in *; lia.
      * rewrite Hv. rewrite wrap_int_in_range; unfold INT_MIN, INT_MAX in *; lia.
      * now rewrite Hw, app_nil_r.
    + repeat split.
      * exact Hl.
      * intros r Hr. rewrite count_occ_app. simpl count_occ.
        destruct (Z.eq_dec room r) as [E'|E'].
        -- subst r. unfold valid_usage_entry in V.
           rewrite Z.geb_leb in V. apply andb_false_iff in V.
           destruct V as [V|V]; apply Z.leb_gt in V; lia.
        -- rewrite Hc by lia. lia.
      * rewrite Ht. rewrite wrap_int_in_range; unfold INT_MIN, INT_MAX in *; lia.
      * rewrite Hv. lia.
      * now rewrite Hw.
Qed.

(** C8 (amended). [displayRoomUsageReport] reads the usage log as
    numbers separated by white space.  It reads up to the first place
    where no number can be converted and nothing after it.  Every number
    read is the value the [int] holds after the conversion.  Of the
    numbers read, each one from 1 to 50 adds one to the count of its
    room, and each other one is counted as read, warned about and
    skipped; the report has a row for every room with a positive
    count. *)
Theorem displayRoomUsageReport_counts_scanned_numbers text entries final :
  Scans text entries final ->
  Z.of_nat (length entries) <= INT_MAX ->
  fscanf_int final = None
  /\ Forall (fun room => INT_MIN <= room <= INT_MAX) entries
  /\ exists report,
      displayRoomUsageReport (Some text) true = Some report
      /\ totalRead report = Z.of_nat (length entries)
      /\ validLogged report = Z.of_nat (length (filter valid_usage_entry entries))
      /\ warnings report = filter (fun room => negb (valid_usage_entry room)) entries
      /\ rows report =
          flat_map (fun i =>
                      let count := Z.of_nat (count_occ Z.eq_dec entries (Z.of_nat i)) in
                      if count >? 0 then [(Z.of_nat i, count)] else [])
                   (seq 1 50).
Proof.
  intros Hscan Hlen. split; [now apply Scans_final in Hscan|].
  split; [now apply Scans_fit_int in Hscan|].
  unfold displayRoomUsageReport.
  rewrite (usage_loop_scans _ _ _ Hscan)
    by (apply Scans_length in Hscan; lia).
  destruct (tally_counts entries Hlen) as [_ [Hc [Ht [Hv Hw]]]].
  eexists. split; [reflexivity|]. cbn [rows totalRead validLogged warnings].
  repeat split; try assumption.
  unfold usage_rows. rewrite !flat_map_concat_map. f_equal.
  apply map_ext_in. intros i Hi. apply in_seq in Hi.
  specialize (Hc (Z.of_nat i) ltac:(lia)). rewrite Nat2Z.id in Hc.
  now rewrite Hc.
Qed.

Lemma Scans_deterministic text entries final :
  Scans text entries final ->
  forall entries' final', Scans text entries' final' ->
  entries' = entries /\ final' = final.
Proof.
  induction 1 as [stream Hnone|stream room rest entries final Hscan _ IH];
    intros entries' final' H'; inversion H'; subst; try congruence.
  - auto.
  - match goal with
    | H1 : fscanf_int stream = Some _, H2 : fscanf_int stream = Some _ |- _ =>
        rewrite H1 in H2; injection H2 as <- <-
    end.
    match goal with
    | H : Scans rest _ _ |- _ => destruct (IH _ _ H) as [-> ->]
    end.
    auto.
Qed.

(** A text that starts with a character that is neither white space,
    nor a digit, nor a sign, has no number to convert. *)
Lemma fscanf_int_text c rest :
  isspace c = false -> isdigit c = false ->
  c <> "-"%char -> c <> "+"%char ->
  fscanf_int (String c rest) = None.
Proof.
  intros Hs Hd Hm Hp. unfold fscanf_int. simpl. rewrite Hs.
  destruct (Ascii.eqb_spec c "-"); [contradiction|].
  destruct (Ascii.eqb_spec c "+"); [contradiction|].
  now rewrite Hd.
Qed.

(** When the log starts with such a character the report is empty,
    whatever follows. *)
Lemma displayRoomUsageReport_stops_at_text c rest :
  isspace c = false -> isdigit c = false ->
  c <> "-"%char -> c <> "+"%char ->
  displayRoomUsageReport (Some (String c rest)) true
  = Some {| rows := []; roomsReported := 0; noValidData := true;
            totalRead := 0; validLogged := 0; warnings := [] |}.
Proof.
  intros Hs Hd Hm Hp. unfold displayRoomUsageReport.
  cbn [usage_loop String.length].
  now rewrite fscanf_int_text.
Qed.

(** * Further properties of the store *)

(** ** Search, admission and discharge *)

Lemma search_loop_lookup id head :
  search_loop id head =
    match getPatientFromList id head with
    | Some p => SearchFound p
    | None => SearchMissing
    end.
Proof.
  induction head as [|node nextNode IH]; simpl; [reflexivity|].
  now destruct (patientId node =? id).
Qed.

Lemma getPatientFromList_app id before after :
  ~ In id (map patientId before) ->
  getPatientFromList id (before ++ after) = getPatientFromList id after.
Proof.
  induction before as [|node rest IH]; simpl; [reflexivity|].
  intros Hnot. destruct (Z.eqb_spec (patientId node) id) as [E|E]; [tauto|].
  apply IH. tauto.
Qed.

Lemma getPatientFromList_app_found id before after p :
  getPatientFromList id before = Some p ->
  getPatientFromList id (before ++ after) = Some p.
Proof.
  induction before as [|node rest IH]; simpl; [discriminate|].
  destruct (patientId node =? id); [trivial | exact IH].
Qed.

(** What the prompt does with one answer: it accepts a number of the
    valid range that no active record holds, and nothing else. *)
Lemma room_prompt_cases entry head :
  match room_prompt entry head with
  | IS_VALID =>
      exists room,
        entry = Entered room
        /\ MIN_ROOM_NUMBER <= room <= MAX_ROOM_NUMBER
        /\ ~ In room (map roomNumber head)
  | IS_NOT_VALID =>
      match entry with
      | NotANumber => True
      | Entered room =>
          room < MIN_ROOM_NUMBER \/ MAX_ROOM_NUMBER < room
          \/ In room (map roomNumber head)
      end
  end.
Proof.
  destruct entry as [|room]; [exact I|].
  unfold room_prompt, validateRoomNumber.
  destruct (Z.ltb_spec room MIN_ROOM_NUMBER) as [Hlo|Hlo]; cbn [orb]; [now left|].
  destruct (Z.gtb_spec room MAX_ROOM_NUMBER) as [Hhi|Hhi]; [right; left; lia|].
  destruct (Z.eqb_spec (isRoomOccupiedInList room head) ROOM_UNOCCUPIED) as [E|E];
    cbn [negb].
  - exists room. repeat split; try lia.
    now apply isRoomOccupiedInList_unoccupied.
  - right. right.
    destruct (in_dec Z.eq_dec room (map roomNumber head)) as [Hin|Hout];
      [exact Hin|].
    now apply isRoomOccupiedInList_unoccupied in Hout.
Qed.

(** [getRoomNumber] returns the first answer that is a number of the
    valid range held by no active record: the room it returns is in the
    range and has no occupant, and every answer before it was not a
    number, was outside the range, or named a room that an active record
    holds.  It does not return while every answer is of that kind. *)
Theorem getRoomNumber_first_acceptable answers head :
  let refused entry :=
    match entry with
    | NotANumber => True
    | Entered room =>
        room < MIN_ROOM_NUMBER \/ MAX_ROOM_NUMBER < room
        \/ In room (map roomNumber head)
    end in
  match getRoomNumber answers head with
  | Some (room, later) =>
      exists rejected,
        answers = rejected ++ Entered room :: later
        /\ Forall refused rejected
        /\ MIN_ROOM_NUMBER <= room <= MAX_ROOM_NUMBER
        /\ ~ In room (map roomNumber head)
  | None => Forall refused answers
  end.
Proof.
  intros refused.
  induction answers as [|entry rest IH]; cbn [getRoomNumber]; [constructor|].
  pose proof (room_prompt_cases entry head) as Hcases.
  destruct (room_prompt entry head).
  - destruct Hcases as [room [-> [Hrange Hfree]]].
    exists []. repeat split; try constructor; tauto.
  - destruct (getRoomNumber rest head) as [[room later]|].
    + destruct IH as [rejected [-> [Hrej [Hrange Hfree]]]].
      exists (entry :: rejected). repeat split; try tauto.
      constructor; [exact Hcases | exact Hrej].
    + constructor; [exact Hcases | exact IH].
Qed.

Section FurtherStoreProperties.

Context {layout : PatientLayout}.

(** After an admission, a search for the new ID prints the new record,
    provided no active record already had the ID of the counter; the
    search for any other ID finds what it found before. *)
Theorem search_finds_admitted_patient st inp st' newPatient :
  addPatientRecord st inp = Some (st', newPatient) ->
  adm_malloc_ok inp = true ->
  ~ In (patientIDCounter st) (active_ids st) ->
  searchPatientById (patientHead st') (patientId newPatient) = SearchFound newPatient
  /\ forall id, id <> patientId newPatient ->
       getPatientFromList id (patientHead st') = getPatientFromList id (patientHead st).
Proof.
  intros A Hm Hfresh.
  apply addPatientRecord_effect in A.
  destruct A as [Hid [_ [_ [Hh _]]]].
  rewrite Hm, insertPatientAtEndOfList_ok in Hh. rewrite Hh. split.
  - unfold searchPatientById.
    destruct (patientHead st ++ [newPatient]) as [|x l] eqn:E.
    { destruct (patientHead st); discriminate. }
    rewrite <- E, search_loop_lookup, getPatientFromList_app.
    + simpl. now rewrite Z.eqb_refl.
    + now rewrite Hid.
  - intros id Hne.
    destruct (getPatientFromList id (patientHead st)) as [p|] eqn:G.
    + now apply getPatientFromList_app_found.
    + rewrite getPatientFromList_app by now apply getPatientFromList_none.
      simpl. destruct (Z.eqb_spec (patientId newPatient) id); congruence.
Qed.

(** When [malloc] fails in [addPatientRecord] the list pointer is
    overwritten with [NULL]: every active record leaves the memory,
    while the count and the ID counter are still incremented and the
    new record is still appended to [patients.dat]. *)
Theorem addPatientRecord_malloc_failure st inp st' newPatient :
  addPatientRecord st inp = Some (st', newPatient) ->
  adm_malloc_ok inp = false ->
  patientHead st' = []
  /\ totalPatients st' = wrap_int (totalPatients st + 1)
  /\ patientIDCounter st' = wrap_int (patientIDCounter st + 1)
  /\ (adm_append_open_ok inp = true ->
      patients_dat st' =
        Some (opened_for_append (patients_dat st) ++ encode_Patient newPatient)).
Proof.
  intros A Hm.
  pose proof (addPatientRecord_file _ _ _ _ A) as Hfile.
  apply addPatientRecord_effect in A.
  destruct A as [_ [_ [_ [Hh [Hc [Ht _]]]]]].
  rewrite Hm in Hh. repeat split; assumption.
Qed.

(** After a confirmed discharge that wrote its archive record, from a
    list where IDs are pairwise distinct, the search for the discharged
    ID finds nobody, every other ID is found as before, and the archive
    ends with the discharged record stamped with the time of
    discharge. *)
Theorem search_after_discharge st inp p :
  getPatientFromList (dis_id inp) (patientHead st) = Some p ->
  confirmDischarge (dis_confirm inp) = true ->
  dis_archive_open_ok inp = true ->
  dis_archive_write_ok inp = true ->
  NoDup (active_ids st) ->
  let st' := dischargePatient st inp in
  getPatientFromList (dis_id inp) (patientHead st') = None
  /\ (searchPatientById (patientHead st') (dis_id inp) = SearchEmpty
      \/ searchPatientById (patientHead st') (dis_id inp) = SearchMissing)
  /\ (forall id, id <> dis_id inp ->
        getPatientFromList id (patientHead st') = getPatientFromList id (patientHead st))
  /\ archived_records st' =
       archived_records st ++ [{| patient := p; dischargeDate := dis_now inp |}].
Proof.
  intros G C Ho Hw Hnd.
  destruct (dischargePatient_confirmed st inp p G C)
    as [before [after [Hhead [Hnot [_ Hcases]]]]].
  rewrite Ho, Hw in Hcases. simpl in Hcases. destruct Hcases as [Hh [_ Ha]].
  destruct (getPatientFromList_split _ _ _ G) as [_ [_ [_ [Hid _]]]].
  simpl.
  assert (Hgone : getPatientFromList (dis_id inp) (patientHead (dischargePatient st inp)) = None).
  { rewrite Hh. apply getPatientFromList_none.
    unfold active_ids in Hnd. rewrite Hhead, map_app in Hnd. simpl in Hnd.
    apply NoDup_remove_2 in Hnd. now rewrite map_app, <- Hid. }
  split; [exact Hgone|]. split; [|split].
  - unfold searchPatientById.
    destruct (patientHead (dischargePatient st inp)) as [|x l] eqn:E; [now left|].
    right. rewrite search_loop_lookup. rewrite <- E in *. now rewrite Hgone.
  - intros id Hne. rewrite Hh, Hhead.
    destruct (getPatientFromList id before) as [q|] eqn:Gb.
    + now rewrite !(getPatientFromList_app_found _ _ _ _ Gb).
    + apply getPatientFromList_none in Gb.
      rewrite !getPatientFromList_app by assumption.
      simpl. destruct (Z.eqb_spec (patientId p) id); congruence.
  - unfold archived_records. now rewrite Ha.
Qed.

(** ** Invariants of runs *)

(** What an operation other than a reload does to the list, the count
    and the archive, record by record. *)
Lemma perform_records st op st' :
  perform st op = Some st' ->
  reloads op = false ->
  match op with
  | OpAdmit inp =>
      exists newPatient,
        addPatientRecord st inp = Some (st', newPatient)
        /\ patientHead st' =
             insertPatientAtEndOfList (patientHead st) newPatient (adm_malloc_ok inp)
        /\ totalPatients st' = wrap_int (totalPatients st + 1)
        /\ archived_records st' = archived_records st
  | _ =>
      (patientHead st' = patientHead st
       /\ totalPatients st' = totalPatients st
       /\ archived_records st' = archived_records st)
      \/ exists p now before after,
           patientHead st = before ++ p :: after
           /\ patientHead st' = before ++ after
           /\ totalPatients st' = wrap_int (totalPatients st - 1)
           /\ archived_records st' =
                archived_records st ++ [{| patient := p; dischargeDate := now |}]
  end.
Proof.
  destruct op as [inp|inp|io|io]; simpl; intros H Hr; try discriminate.
  - destruct (addPatientRecord st inp) as [[st1 p]|] eqn:A; [|discriminate].
    injection H as <-. exists p. split; [reflexivity|].
    apply addPatientRecord_effect in A.
    destruct A as [_ [_ [_ [Hh [_ [Ht [Ha _]]]]]]].
    unfold archived_records. now rewrite Ha.
  - injection H as <-.
    destruct (getPatientFromList (dis_id inp) (patientHead st)) as [p|] eqn:G.
    2:{ rewrite dischargePatient_noop by now left. auto. }
    destruct (confirmDischarge (dis_confirm inp)) eqn:C.
    2:{ rewrite dischargePatient_noop by now right. auto. }
    destruct (dischargePatient_confirmed st inp p G C)
      as [before [after [Hhead [_ [_ Hcases]]]]].
    unfold archived_records.
    destruct (dis_archive_open_ok inp && dis_archive_write_ok inp).
    + right. exists p, (dis_now inp), before, after.
      destruct Hcases as [Hh [Ht Ha]]. now rewrite Ha.
    + left. destruct Hcases as [Hh [Ht [_ [_ [_ Ha]]]]]. auto.
  - injection H as <-. left. unfold backupPatientSystem, archived_records.
    destruct (updatePatientsFile_frame st io) as [Hh [Ht [_ [Ha _]]]].
    now rewrite Ha.
Qed.

Lemma admissions_allocate_cons op later :
  admissions_allocate (op :: later) ->
  (forall inp, op = OpAdmit inp -> adm_malloc_ok inp = true)
  /\ admissions_allocate later.
Proof.
  intros H. split.
  - intros inp ->. apply H. now left.
  - intros inp Hin. apply H. now right.
Qed.

(** In a run without a reload in which [malloc] does not fail,
    [totalPatients] stays equal to the number of active records, as long
    as that number fits an [int]. *)
Theorem count_matches_in_runs ops : forall st st',
  count_matches st ->
  existsb reloads ops = false ->
  admissions_allocate ops ->
  Z.of_nat (length (patientHead st)) + Z.of_nat (length (filter is_admission ops))
    <= INT_MAX ->
  run st ops = Some st' ->
  count_matches st'.
Proof.
  induction ops as [|op later IH]; intros st st' Hcount Hr Halloc Hbound Hrun;
    simpl in Hrun, Hr.
  - now injection Hrun as <-.
  - destruct (perform st op) as [st1|] eqn:P; [|discriminate].
    apply orb_false_iff in Hr. destruct Hr as [Hr1 Hr2].
    apply admissions_allocate_cons in Halloc. destruct Halloc as [Hm Halloc].
    pose proof (perform_records _ _ _ P Hr1) as E.
    assert (Hlen : Z.of_nat (length (filter is_admission (op :: later)))
                   = (if is_admission op then 1 else 0)
                     + Z.of_nat (length (filter is_admission later))).
    { simpl. destruct (is_admission op); [|reflexivity].
      change (length (op :: filter is_admission later))
        with (S (length (filter is_admission later))). lia. }
    rewrite Hlen in Hbound. clear Hlen. unfold count_matches in Hcount.
    assert (H1 : count_matches st1
                 /\ Z.of_nat (length (patientHead st1))
                    + Z.of_nat (length (filter is_admission later)) <= INT_MAX).
    { unfold count_matches.
      destruct op as [inp|inp|io|io]; try discriminate;
        cbn [is_admission] in Hbound.
      - destruct E as [p [_ [Hh [Ht _]]]].
        rewrite (Hm inp eq_refl), insertPatientAtEndOfList_ok in Hh.
        rewrite Ht, Hh, Hcount, length_app. simpl length.
        rewrite wrap_int_in_range; unfold INT_MIN, INT_MAX in *; lia.
      - destruct E as [[Hh [Ht _]] | [p [now [before [after [Hs [Hh [Ht _]]]]]]]].
        + rewrite Hh, Ht. lia.
        + rewrite Ht, Hh, Hcount, Hs in *. rewrite !length_app in *.
          simpl length in *.
          rewrite wrap_int_in_range; unfold INT_MIN, INT_MAX in *; lia.
      - destruct E as [[Hh [Ht _]] | [p [now [before [after [Hs [Hh [Ht _]]]]]]]].
        + rewrite Hh, Ht. lia.
        + rewrite Ht, Hh, Hcount, Hs in *. rewrite !length_app in *.
          simpl length in *.
          rewrite wrap_int_in_range; unfold INT_MIN, INT_MAX in *; lia. }
    destruct H1 as [Hc1 Hb1].
    now apply (IH st1 st').
Qed.

(** In a run without a reload in which [malloc] does not fail, no
    record is lost or duplicated: the active records together with the
    archived ones are those present at the start together with the
    records the admissions created. *)
Theorem records_conserved_in_runs ops : forall st st',
  existsb reloads ops = false ->
  admissions_allocate ops ->
  run st ops = Some st' ->
  Permutation
    (patientHead st' ++ map patient (archived_records st'))
    (patientHead st ++ map patient (archived_records st) ++ created_by st ops).
Proof.
  induction ops as [|op later IH]; intros st st' Hr Halloc Hrun;
    simpl in Hrun, Hr.
  - injection Hrun as <-. simpl. now rewrite app_nil_r.
  - destruct (perform st op) as [st1|] eqn:P; [|discriminate].
    apply orb_false_iff in Hr. destruct Hr as [Hr1 Hr2].
    apply admissions_allocate_cons in Halloc. destruct Halloc as [Hm Halloc].
    pose proof (perform_records _ _ _ P Hr1) as E.
    specialize (IH st1 st' Hr2 Halloc Hrun).
    rewrite IH. clear IH.
    destruct op as [inp|inp|io|io]; try discriminate.
    + destruct E as [p [A [Hh [_ Ha]]]].
      rewrite (Hm inp eq_refl), insertPatientAtEndOfList_ok in Hh.
      simpl created_by. rewrite A, Hh, Ha, <- app_assoc. simpl.
      apply Permutation_app_head. apply Permutation_middle.
    + simpl created_by. simpl in P. injection P as P. rewrite P.
      destruct E as [[Hh [_ Ha]] | [p [now [before [after [Hs [Hh [_ Ha]]]]]]]].
      * now rewrite Hh, Ha.
      * rewrite Hh, Ha, Hs, map_app, <- !app_assoc. simpl.
        apply Permutation_app_head.
        rewrite !(app_assoc after).
        symmetry. apply Permutation_middle.
    + simpl created_by. simpl in P. injection P as P. rewrite P.
      destruct E as [[Hh [_ Ha]] | [p [now [before [after [Hs [Hh [_ Ha]]]]]]]].
      * now rewrite Hh, Ha.
      * rewrite Hh, Ha, Hs, map_app, <- !app_assoc. simpl.
        apply Permutation_app_head.
        rewrite !(app_assoc after).
        symmetry. apply Permutation_middle.
Qed.

(** ** The append-only files *)

Lemma string_app_nil_r (text : string) : (text ++ "")%string = text.
Proof. induction text as [|c rest IH]; simpl; congruence. Qed.

Lemma string_app_assoc (a b c : string) :
  ((a ++ b) ++ c)%string = (a ++ b ++ c)%string.
Proof. induction a as [|x rest IH]; simpl; congruence. Qed.

Lemma removePatientFromSystem_frame st p io :
  discharged_patients_dat (removePatientFromSystem st p io) = discharged_patients_dat st
  /\ room_usage_txt (removePatientFromSystem st p io) = room_usage_txt st.
Proof.
  unfold removePatientFromSystem.
  destruct (patientHead st) as [|current nextNode]; [auto|].
  destruct (patientId current =? patientId p).
  - destruct (updatePatientsFile_frame
                (set_memory st nextNode (wrap_int (totalPatients st - 1))
                            (patientIDCounter st)) io) as [_ [_ [_ [Ha Hl]]]].
    simpl in Ha, Hl. auto.
  - destruct (unlink_by_id (patientId p) (current :: nextNode)) as [unlinked|];
      [|auto].
    destruct (updatePatientsFile_frame
                (set_memory st unlinked (wrap_int (totalPatients st - 1))
                            (patientIDCounter st)) io) as [_ [_ [_ [Ha Hl]]]].
    simpl in Ha, Hl. auto.
Qed.

(** A load leaves the archive, the usage log and [patients.tmp] as they
    are. *)
Lemma initializePatientSystem_frame st io :
  discharged_patients_dat (initializePatientSystem st io) = discharged_patients_dat st
  /\ room_usage_txt (initializePatientSystem st io) = room_usage_txt st
  /\ patients_tmp (initializePatientSystem st io) = patients_tmp st.
Proof.
  unfold initializePatientSystem.
  destruct (load_open_ok io); [|simpl; auto].
  change (patients_dat (clearMemory st)) with (patients_dat st).
  destruct (patients_dat st) as [[|b contents]|]; [simpl; auto| |simpl; auto].
  match goal with
  | |- context [fread_loop ?a ?b ?c ?d ?e ?f ?g] =>
      destruct (fread_loop a b c d e f g) as [head total foundData|]
  end; simpl; auto.
  destruct foundData; simpl; auto.
  unfold clearBinaryFile. destruct (load_clear_open_ok io); simpl; auto.
Qed.

Lemma perform_appends st op st' :
  perform st op = Some st' ->
  (exists added, archived_records st' = archived_records st ++ added)
  /\ (exists text, log_text st' = (log_text st ++ text)%string).
Proof.
  assert (Hsame : forall s s' : State,
            discharged_patients_dat s' = discharged_patients_dat s ->
            room_usage_txt s' = room_usage_txt s ->
            (exists added, archived_records s' = archived_records s ++ added)
            /\ (exists text, log_text s' = (log_text s ++ text)%string)).
  { intros s s' Ha Hl. unfold archived_records, log_text. rewrite Ha, Hl. split.
    - exists []. now rewrite app_nil_r.
    - exists EmptyString. now rewrite string_app_nil_r. }
  destruct op as [inp|inp|io|io]; simpl; intros H.
  - destruct (addPatientRecord st inp) as [[st1 p]|] eqn:A; [|discriminate].
    injection H as <-. apply addPatientRecord_effect in A.
    destruct A as [_ [_ [_ [_ [_ [_ [Ha Hl]]]]]]]. now apply Hsame.
  - injection H as <-. unfold dischargePatient.
    destruct (patientHead st) as [|c n] eqn:Hst; [now apply Hsame|].
    destruct (getPatientFromList (dis_id inp) (c :: n)) as [p|]; [|now apply Hsame].
    destruct (confirmDischarge (dis_confirm inp)); [|now apply Hsame].
    destruct (dis_archive_open_ok inp); simpl; [|now apply Hsame].
    destruct (dis_archive_write_ok inp); simpl.
    + destruct (removePatientFromSystem_frame
                  (logRoomUsage
                     (set_archive st
                        (Some (opened_for_append (discharged_patients_dat st)
                               ++ [{| patient := p; dischargeDate := dis_now inp |}])))
                     (roomNumber p) (dis_log_open_ok inp)) p (dis_update inp))
        as [Ha Hl].
      unfold archived_records, log_text. rewrite Ha, Hl.
      unfold logRoomUsage. destruct (dis_log_open_ok inp); simpl; split.
      * now eexists.
      * now eexists.
      * now eexists.
      * exists EmptyString. now rewrite string_app_nil_r.
    + unfold archived_records, log_text. simpl. split.
      * exists []. now rewrite app_nil_r.
      * exists EmptyString. now rewrite string_app_nil_r.
  - injection H as <-. unfold backupPatientSystem.
    destruct (updatePatientsFile_frame st io) as [_ [_ [_ [Ha Hl]]]].
    now apply Hsame.
  - injection H as <-. unfold restoreDataFromFile.
    destruct (initializePatientSystem_frame st io) as [Ha [Hl _]].
    now apply Hsame.
Qed.

(** Whatever the operations and the outcome of their file operations,
    the archive and the usage log only grow: what they held before a run
    is still there after it, at the same place. *)
Theorem archive_and_log_append_only ops : forall st st',
  run st ops = Some st' ->
  (exists added, archived_records st' = archived_records st ++ added)
  /\ (exists text, log_text st' = (log_text st ++ text)%string).
Proof.
  induction ops as [|op later IH]; intros st st' Hrun; simpl in Hrun.
  - injection Hrun as <-. split.
    + exists []. now rewrite app_nil_r.
    + exists EmptyString. now rewrite string_app_nil_r.
  - destruct (perform st op) as [st1|] eqn:P; [|discriminate].
    destruct (perform_appends _ _ _ P) as [[a1 Ha1] [t1 Ht1]].
    destruct (IH _ _ Hrun) as [[a2 Ha2] [t2 Ht2]]. split.
    + exists (a1 ++ a2). now rewrite Ha2, Ha1, app_assoc.
    + exists (t1 ++ t2)%string. now rewrite Ht2, Ht1, string_app_assoc.
Qed.

(** ** The file as a mirror of the list *)

Lemma perform_on_disk st op st' :
  perform st op = Some st' ->
  goes_through st op ->
  on_disk st -> on_disk st'.
Proof.
  intros H Hgo Hdisk.
  destruct op as [inp|inp|io|io]; simpl in H, Hgo.
  - destruct (addPatientRecord st inp) as [[st1 p]|] eqn:A; [|discriminate].
    injection H as <-. destruct Hgo as [Hm [Ho Hs]].
    pose proof (addPatientRecord_file _ _ _ _ A Ho) as Hfile.
    apply addPatientRecord_effect in A. destruct A as [_ [_ [_ [Hh _]]]].
    rewrite Hm, insertPatientAtEndOfList_ok in Hh.
    destruct Hdisk as [Hd Hsurv]. split.
    + left. rewrite Hfile, Hh, file_image_app.
      destruct Hd as [-> | [-> ->]]; reflexivity.
    + rewrite Hh. apply Forall_app. split; [exact Hsurv | now constructor].
  - injection H as <-.
    destruct (getPatientFromList (dis_id inp) (patientHead st)) as [p|] eqn:G.
    2:{ now rewrite dischargePatient_noop by now left. }
    destruct (confirmDischarge (dis_confirm inp)) eqn:C.
    2:{ now rewrite dischargePatient_noop by now right. }
    destruct (dischargePatient_confirmed st inp p G C)
      as [before [after [Hhead [Hnot [_ Hcases]]]]].
    destruct Hdisk as [Hd Hsurv].
    destruct (dis_archive_open_ok inp) eqn:Ao, (dis_archive_write_ok inp) eqn:Aw;
      simpl in Hcases.
    + destruct Hcases as [Hh _]. split.
      * left. rewrite Hh. unfold dischargePatient.
        rewrite G, C, Ao, Aw. simpl.
        destruct (patientHead st) as [|c n] eqn:Hst;
          [destruct before; discriminate|].
        apply removePatientFromSystem_rewrites; try assumption.
        unfold logRoomUsage. destruct (dis_log_open_ok inp); simpl;
          now rewrite Hst.
      * rewrite Hh. rewrite Hhead in Hsurv. apply Forall_app in Hsurv.
        destruct Hsurv as [S1 S2]. apply Forall_app. split; [exact S1|].
        now inversion S2.
    + destruct Hcases as [Hh [_ [Hf _]]]. unfold on_disk. now rewrite Hh, Hf.
    + destruct Hcases as [Hh [_ [Hf _]]]. unfold on_disk. now rewrite Hh, Hf.
    + destruct Hcases as [Hh [_ [Hf _]]]. unfold on_disk. now rewrite Hh, Hf.
  - injection H as <-. unfold backupPatientSystem.
    destruct (updatePatientsFile_frame st io) as [Hh _].
    destruct Hdisk as [_ Hsurv]. split.
    + left. now rewrite Hh, updatePatientsFile_success.
    + now rewrite Hh.
  - injection H as <-. destruct Hgo as [Ho Hm].
    unfold restoreDataFromFile.
    destruct (initializePatientSystem_mirror st io Hdisk Ho Hm) as [Hh Hf].
    unfold on_disk in *. now rewrite Hh, Hf.
Qed.

(** When every operation of a run goes through, [patients.dat] holds
    the image of the active list after the run as it did before: memory
    and disk agree after admissions, discharges, backups and reloads. *)
Theorem file_mirrors_list_in_runs ops : forall st st',
  on_disk st ->
  run_goes_through st ops ->
  run st ops = Some st' ->
  on_disk st'.
Proof.
  induction ops as [|op later IH]; intros st st' Hdisk Hgo Hrun;
    simpl in Hrun, Hgo.
  - now injection Hrun as <-.
  - destruct (perform st op) as [st1|] eqn:P; [|discriminate].
    destruct Hgo as [Hgo Hlater].
    apply (IH st1 st'); try assumption.
    now apply (perform_on_disk _ _ _ P).
Qed.

(** ** Loading, saving and loading again *)

Lemma initializePatientSystem_memory st head total counter io :
  initializePatientSystem (set_memory st head total counter) io
  = initializePatientSystem st io.
Proof. reflexivity. Qed.

(** The two shapes of the state after a load: the files as they were
    with some list, count and counter, or [patients.dat] emptied and the
    default memory. *)
Lemma initializePatientSystem_shape st io :
  (exists head total counter,
     initializePatientSystem st io = set_memory st head total counter
     /\ counter = computeNextPatientId head)
  \/ (load_open_ok io = true
      /\ initializePatientSystem st io =
           set_memory (set_patients_files st (Some []) (patients_tmp st))
                      [] IS_EMPTY DEFAULT_ID).
Proof.
  unfold initializePatientSystem.
  destruct (load_open_ok io) eqn:Ho.
  2:{ left. exists [], IS_EMPTY, DEFAULT_ID. split; reflexivity. }
  change (patients_dat (clearMemory st)) with (patients_dat st).
  destruct (patients_dat st) as [[|b contents]|].
  - left. exists [], IS_EMPTY, DEFAULT_ID. split; reflexivity.
  - match goal with
    | |- context [fread_loop ?a ?b ?c ?d ?e ?f ?g] =>
        destruct (fread_loop a b c d e f g) as [head total foundData|]
    end.
    + destruct foundData; simpl.
      * left. exists head, total, (computeNextPatientId head). split; reflexivity.
      * unfold clearBinaryFile. destruct (load_clear_open_ok io).
        -- right. split; reflexivity.
        -- left. exists [], IS_EMPTY, DEFAULT_ID. split; reflexivity.
    + left. exists [], IS_EMPTY, DEFAULT_ID. split; reflexivity.
  - left. exists [], IS_EMPTY, DEFAULT_ID. split; reflexivity.
Qed.

(** Loading twice in a row gives the state of the first load: the same
    list, count and counter, and the same files. *)
Theorem initializePatientSystem_idempotent st io :
  initializePatientSystem (initializePatientSystem st io) io
  = initializePatientSystem st io.
Proof.
  destruct (initializePatientSystem_shape st io)
    as [[head [total [counter [E _]]]] | [Ho E]].
  - rewrite E at 1. apply initializePatientSystem_memory.
  - rewrite E. unfold initializePatientSystem. rewrite Ho. reflexivity.
Qed.

Lemma max_id_from_bounds records : forall maxId,
  maxId <= max_id_from maxId records
  /\ Forall (fun p => patientId p <= max_id_from maxId records) records.
Proof.
  induction records as [|node nextNode IH]; intros maxId; simpl.
  - split; [lia | constructor].
  - destruct (IH (if patientId node >? maxId then patientId node else maxId))
      as [Hge Hall].
    destruct (Z.gtb_spec (patientId node) maxId); split; try lia;
      constructor; try lia; exact Hall.
Qed.

Lemma max_id_from_below records bound : forall maxId,
  maxId < bound ->
  Forall (fun p => patientId p < bound) records ->
  max_id_from maxId records < bound.
Proof.
  induction records as [|node nextNode IH]; intros maxId Hm Hall; simpl;
    [exact Hm|].
  inversion Hall as [|? ? Hn Hrest]; subst.
  apply IH; [|exact Hrest].
  destruct (patientId node >? maxId); assumption.
Qed.

(** After a load, whatever the file holds, the counter is at least 1 and
    above the ID of every record loaded, unless a record carries the ID
    [INT_MAX]: the next admission gets an ID no active record has. *)
Theorem load_counter_above_loaded_ids st io :
  let st' := initializePatientSystem st io in
  Forall (fun p => patientId p < INT_MAX) (patientHead st') ->
  1 <= patientIDCounter st'
  /\ Forall (fun p => patientId p < patientIDCounter st') (patientHead st')
  /\ ~ In (patientIDCounter st') (active_ids st').
Proof.
  simpl. intros Hall.
  assert (Hc : patientIDCounter (initializePatientSystem st io)
               = computeNextPatientId (patientHead (initializePatientSystem st io))).
  { destruct (initializePatientSystem_shape st io)
      as [[head [total [counter [E ->]]]] | [_ E]]; rewrite E; reflexivity. }
  set (head := patientHead (initializePatientSystem st io)) in *.
  pose proof (max_id_from_bounds head 0) as [Hge Hle].
  pose proof (max_id_from_below head INT_MAX 0 ltac:(unfold INT_MAX; lia) Hall) as Hlt.
  assert (Hv : patientIDCounter (initializePatientSystem st io)
               = max_id_from 0 head + 1).
  { rewrite Hc. unfold computeNextPatientId. apply wrap_int_in_range.
    unfold INT_MIN, INT_MAX in *. lia. }
  rewrite Hv.
  assert (Hbelow : Forall (fun p => patientId p < max_id_from 0 head + 1) head).
  { eapply Forall_impl; [|exact Hle]. simpl. intros. lia. }
  repeat split; [lia | exact Hbelow |].
  unfold active_ids. fold head. intros Hin. apply in_map_iff in Hin.
  destruct Hin as [p [Hp Hin]]. rewrite Forall_forall in Hbelow.
  specialize (Hbelow p Hin). lia.
Qed.

(** A backup that succeeds followed by a restore that can read the file
    gives back the list that was saved, record for record, when the
    records survive the file; the counter becomes the one computed from
    that list. *)
Theorem restore_after_backup st uio lio :
  Forall survives_file (patientHead st) ->
  update_succeeds uio ->
  load_open_ok lio = true ->
  (forall k, load_malloc_ok lio k = true) ->
  let st' := restoreDataFromFile (backupPatientSystem st uio) lio in
  patientHead st' = patientHead st
  /\ patients_dat st' = Some (file_image (patientHead st))
  /\ patientIDCounter st' = computeNextPatientId (patientHead st).
Proof.
  intros Hsurv Hu Ho Hm. simpl.
  unfold restoreDataFromFile, backupPatientSystem.
  destruct (updatePatientsFile_frame st uio) as [Hh _].
  assert (Hdisk : on_disk (updatePatientsFile st uio)).
  { split; [left; now rewrite Hh, updatePatientsFile_success | now rewrite Hh]. }
  destruct (initializePatientSystem_mirror _ lio Hdisk Ho Hm) as [Hh2 Hf2].
  rewrite Hh2, Hf2, Hh, updatePatientsFile_success by assumption.
  repeat split.
  destruct (initializePatientSystem_shape (updatePatientsFile st uio) lio)
    as [[head [total [counter [E ->]]]] | [_ E]].
  - rewrite E in Hh2 |- *. simpl in Hh2 |- *. now rewrite Hh2, Hh.
  - rewrite E in Hh2 |- *. simpl in Hh2 |- *. now rewrite <- Hh, <- Hh2.
Qed.

(** A load of a file of whole records followed by a backup that succeeds
    writes the same bytes back, when rebuilding a record from its bytes
    and writing it gives these bytes again. *)
Theorem backup_after_load_same_bytes st lio uio chunks :
  patients_dat st = Some (concat chunks) ->
  Forall (fun chunk => length chunk = sizeof_Patient) chunks ->
  Forall (fun chunk => encode_Patient (decode_Patient chunk) = chunk) chunks ->
  load_open_ok lio = true ->
  (forall k, load_malloc_ok lio k = true) ->
  update_succeeds uio ->
  patients_dat (backupPatientSystem (restoreDataFromFile st lio) uio)
  = patients_dat st.
Proof.
  intros Hdat Hall Hrt Ho Hm Hu.
  unfold backupPatientSystem, restoreDataFromFile.
  rewrite updatePatientsFile_success by assumption.
  assert (Hdat' : patients_dat st = Some (concat chunks ++ []))
    by now rewrite app_nil_r.
  destruct (initializePatientSystem_chunks st lio chunks [] Hdat' Hall
              ltac:(pose proof sizeof_Patient_pos; simpl; lia) Ho Hm) as [Hh _].
  rewrite Hh, Hdat. f_equal. unfold file_image.
  clear - Hrt. induction Hrt as [|chunk rest Hc _ IH]; simpl; [reflexivity|].
  now rewrite Hc, IH.
Qed.

End FurtherStoreProperties.

(** ** Reports by timeframe *)

Section ReportProperties.

Variable localtime : Z -> tm.

Lemma report_loop_filter timeframe now head :
  report_loop localtime timeframe now head
  = filter (fun p => in_timeframe localtime timeframe now (admissionDate p)) head.
Proof.
  induction head as [|node nextNode IH]; simpl; [reflexivity|].
  now destruct (in_timeframe localtime timeframe now (admissionDate node));
    rewrite IH.
Qed.

Lemma count_loop_filter timeframe now head : forall count,
  0 <= count ->
  count + Z.of_nat (length head) <= INT_MAX ->
  count_loop localtime timeframe now head count
  = count + Z.of_nat (length (report_loop localtime timeframe now head)).
Proof.
  induction head as [|node nextNode IH]; intros count Hlo Hhi; simpl; [lia|].
  change (length (node :: nextNode)) with (S (length nextNode)) in Hhi.
  rewrite Nat2Z.inj_succ in Hhi.
  destruct (in_timeframe localtime timeframe now (admissionDate node)).
  - rewrite wrap_int_in_range by (unfold INT_MIN, INT_MAX in *; lia).
    rewrite IH by lia.
    change (length (node :: report_loop localtime timeframe now nextNode))
      with (S (length (report_loop localtime timeframe now nextNode))).
    lia.
  - apply IH; lia.
Qed.

Lemma past24Hours_seconds now stamp :
  INT_MIN <= Z.quot (now - stamp) 3600 <= INT_MAX ->
  past24Hours now stamp = (now - stamp <? 90000).
Proof.
  intros Hrange. pose proof (past24Hours_window now stamp Hrange) as W.
  destruct (past24Hours now stamp), (Z.ltb_spec (now - stamp) 90000);
    try reflexivity.
  - assert (now - stamp < 90000) by now apply W. lia.
  - assert (false = true) by now apply W. discriminate.
Qed.

Lemma in_timeframe_daily now stamp :
  INT_MIN <= Z.quot (now - stamp) 3600 <= INT_MAX ->
  in_timeframe localtime 1 now stamp = (now - stamp <? 90000).
Proof.
  intros Hrange. unfold in_timeframe. simpl. rewrite !orb_false_r.
  now apply past24Hours_seconds.
Qed.

Lemma in_timeframe_unknown timeframe now stamp :
  timeframe <> 1 -> timeframe <> 2 -> timeframe <> 3 ->
  in_timeframe localtime timeframe now stamp = false.
Proof.
  intros H1 H2 H3. unfold in_timeframe.
  destruct (Z.eqb_spec timeframe 1), (Z.eqb_spec timeframe 2),
    (Z.eqb_spec timeframe 3); try contradiction. reflexivity.
Qed.

Lemma filter_length_zero {A : Type} (f : A -> bool) (l : list A) :
  length (filter f l) = 0%nat -> filter f l = [].
Proof. now destruct (filter f l). Qed.

(** With a library that returns a fresh object at every call, the loops
    read the current time they asked for first. *)
Lemma in_timeframe_fresh_object timeframe now stamp :
  StaticBuffer.in_timeframe localtime false timeframe now stamp
  = in_timeframe localtime timeframe now stamp.
Proof. reflexivity. Qed.

Lemma printFormattedReport_fresh_object result timeframe now head :
  StaticBuffer.printFormattedReport localtime false result timeframe now head
  = printFormattedReport localtime result timeframe now head.
Proof. reflexivity. Qed.

Variable static_buffer : bool.

Lemma static_report_loop_filter timeframe now head :
  StaticBuffer.report_loop localtime static_buffer timeframe now head
  = filter (fun p => StaticBuffer.in_timeframe localtime static_buffer timeframe now
                       (admissionDate p)) head.
Proof.
  induction head as [|node nextNode IH]; simpl; [reflexivity|].
  now destruct (StaticBuffer.in_timeframe localtime static_buffer timeframe now
                  (admissionDate node)); rewrite IH.
Qed.

Lemma static_discharged_report_loop_filter timeframe now records :
  StaticBuffer.discharged_report_loop localtime static_buffer timeframe now records
  = filter (fun d => StaticBuffer.in_timeframe localtime static_buffer timeframe now
                       (dischargeDate d)) records.
Proof.
  induction records as [|d later IH]; simpl; [reflexivity|].
  now destruct (StaticBuffer.in_timeframe localtime static_buffer timeframe now
                  (dischargeDate d)); rewrite IH.
Qed.

Lemma static_count_discharged_loop_filter timeframe now records : forall count,
  0 <= count ->
  count + Z.of_nat (length records) <= INT_MAX ->
  StaticBuffer.count_discharged_loop localtime static_buffer timeframe now records count
  = count + Z.of_nat (length (StaticBuffer.discharged_report_loop localtime
                                static_buffer timeframe now records)).
Proof.
  induction records as [|d later IH]; intros count Hlo Hhi; simpl; [lia|].
  change (length (d :: later)) with (S (length later)) in Hhi.
  rewrite Nat2Z.inj_succ in Hhi.
  destruct (StaticBuffer.in_timeframe localtime static_buffer timeframe now
              (dischargeDate d)).
  - rewrite wrap_int_in_range by (unfold INT_MIN, INT_MAX in *; lia).
    rewrite IH by lia.
    change (length (d :: StaticBuffer.discharged_report_loop localtime static_buffer
                           timeframe now later))
      with (S (length (StaticBuffer.discharged_report_loop localtime static_buffer
                         timeframe now later))).
    lia.
  - apply IH; lia.
Qed.

Lemma static_in_timeframe_daily now stamp :
  INT_MIN <= Z.quot (now - stamp) 3600 <= INT_MAX ->
  StaticBuffer.in_timeframe localtime static_buffer 1 now stamp
  = (now - stamp <? 90000).
Proof.
  intros Hrange. unfold StaticBuffer.in_timeframe. simpl. rewrite !orb_false_r.
  now apply past24Hours_seconds.
Qed.


Lemma static_in_timeframe_unknown timeframe now stamp :
  timeframe <> 1 -> timeframe <> 2 -> timeframe <> 3 ->
  StaticBuffer.in_timeframe localtime static_buffer timeframe now stamp = false.
Proof.
  intros H1 H2 H3. unfold StaticBuffer.in_timeframe.
  destruct (Z.eqb_spec timeframe 1), (Z.eqb_spec timeframe 2),
    (Z.eqb_spec timeframe 3); try contradiction. reflexivity.
Qed.

Lemma count_admitted_filter timeframe now head :
  Z.of_nat (length head) <= INT_MAX ->
  countPatientsByTimeframe localtime timeframe now head
  = Z.of_nat (length (filter (fun p => in_timeframe localtime timeframe now
                                         (admissionDate p)) head)).
Proof.
  intros Hlen. unfold countPatientsByTimeframe.
  destruct head as [|node nextNode]; [reflexivity|].
  rewrite count_loop_filter by (unfold INT_MAX in *; lia).
  rewrite report_loop_filter. lia.
Qed.

(** When the count and the listing of [displayPatientReport] read the
    same clock and the age in hours of every active record fits an
    [int], the Daily report lists exactly the active records admitted
    less than 25 hours before the clock (an admission stamped after the
    clock included), in list order, and the total of the header is
    their number, whichever object [localtime] returns. *)
Theorem daily_admission_report_window now head :
  Z.of_nat (length head) <= INT_MAX ->
  Forall (fun p => INT_MIN <= Z.quot (now - admissionDate p) 3600 <= INT_MAX) head ->
  let listed := filter (fun p => now - admissionDate p <? 90000) head in
  StaticBuffer.displayPatientReport localtime static_buffer 1 now now head true
  = Some (Z.of_nat (length listed), listed).
Proof.
  intros Hlen Hrange. simpl. rewrite Forall_forall in Hrange.
  unfold StaticBuffer.displayPatientReport, StaticBuffer.printFormattedReport.
  rewrite count_admitted_filter by exact Hlen.
  rewrite static_report_loop_filter.
  rewrite (filter_ext_in _ (fun p => now - admissionDate p <? 90000))
    by (intros p Hp; apply in_timeframe_daily, Hrange, Hp).
  rewrite (filter_ext_in
             (fun p => StaticBuffer.in_timeframe _ _ 1 now (admissionDate p))
             (fun p => now - admissionDate p <? 90000))
    by (intros p Hp; apply static_in_timeframe_daily, Hrange, Hp).
  destruct (Z.eqb_spec (Z.of_nat (length (filter
              (fun p => now - admissionDate p <? 90000) head))) 0)
    as [E|E]; [|reflexivity].
  rewrite filter_length_zero by lia. reflexivity.
Qed.

(** When the age in hours of every archived discharge fits an [int],
    the Daily discharge report lists exactly the archived records whose
    discharge lies less than 25 hours before the clock (a discharge
    stamped after the clock included), in archive order, with their
    number as total, whichever object [localtime] returns. *)
Theorem daily_discharge_report_window now records :
  Z.of_nat (length records) <= INT_MAX ->
  Forall (fun d => INT_MIN <= Z.quot (now - dischargeDate d) 3600 <= INT_MAX)
         records ->
  let listed := filter (fun d => now - dischargeDate d <? 90000) records in
  StaticBuffer.displayDischargedPatientReport localtime static_buffer 1 now now
    (Some records) true true true
  = Some (Z.of_nat (length listed), listed).
Proof.
  intros Hlen Hrange. simpl. rewrite Forall_forall in Hrange.
  unfold StaticBuffer.displayDischargedPatientReport,
    StaticBuffer.printDischargedFormattedReport,
    StaticBuffer.countDischargedPatientsByTimeframe.
  rewrite static_count_discharged_loop_filter by (unfold INT_MAX in *; lia).
  rewrite static_discharged_report_loop_filter, Z.add_0_l.
  rewrite (filter_ext_in _ (fun d => now - dischargeDate d <? 90000))
    by (intros d Hd; apply static_in_timeframe_daily, Hrange, Hd).
  destruct (Z.eqb_spec (Z.of_nat (length (filter
              (fun d => now - dischargeDate d <? 90000) records))) 0)
    as [E|E]; [|reflexivity].
  rewrite filter_length_zero by lia. reflexivity.
Qed.

(** A choice other than 1, 2 or 3 selects nothing: both reports have
    total 0 and no line, whatever the records and the clock. *)
Theorem report_of_unknown_timeframe_is_empty choice now_count now_print head
    archive count_ok print_ok :
  choice <> 1 -> choice <> 2 -> choice <> 3 ->
  StaticBuffer.displayPatientReport localtime static_buffer choice now_count
    now_print head true = Some (0, [])
  /\ StaticBuffer.displayDischargedPatientReport localtime static_buffer choice
       now_count now_print archive count_ok true print_ok = Some (0, []).
Proof.
  intros H1 H2 H3. split.
  - unfold StaticBuffer.displayPatientReport, StaticBuffer.printFormattedReport.
    assert (Hc : forall l c, count_loop localtime choice now_count l c = c).
    { induction l as [|node nextNode IH]; intros c; simpl; [reflexivity|].
      now rewrite in_timeframe_unknown, IH. }
    unfold countPatientsByTimeframe.
    destruct head; [reflexivity|]. now rewrite Hc.
  - unfold StaticBuffer.displayDischargedPatientReport,
      StaticBuffer.printDischargedFormattedReport,
      StaticBuffer.countDischargedPatientsByTimeframe.
    assert (Hc : forall l c,
               StaticBuffer.count_discharged_loop localtime static_buffer choice
                 now_count l c = c).
    { induction l as [|d later IH]; intros c; simpl; [reflexivity|].
      now rewrite static_in_timeframe_unknown, IH. }
    destruct (if count_ok then archive else None); [|reflexivity].
    now rewrite Hc.
Qed.

End ReportProperties.

Section SharedObject.

Variable localtime : Z -> tm.

Lemma filter_everything {A : Type} (f : A -> bool) (l : list A) :
  (forall x, f x = true) -> filter f l = l.
Proof.
  intros H. induction l as [|x later IH]; [reflexivity|].
  simpl. now rewrite H, IH.
Qed.

Lemma in_timeframe_shared_object timeframe now stamp :
  timeframe = 2 \/ timeframe = 3 ->
  StaticBuffer.in_timeframe localtime true timeframe now stamp = true.
Proof.
  unfold StaticBuffer.in_timeframe, StaticBuffer.sameWeek, StaticBuffer.sameMonth,
    StaticBuffer.currentTime.
  rewrite !Z.eqb_refl, Z.sub_diag.
  intros [-> | ->]; reflexivity.
Qed.

(** With a library whose [localtime] fills one static object, the
    Weekly and the Monthly admission report print a line for every
    active record as soon as the count is not 0, while the total of the
    header counts the records of the timeframe only. *)
Theorem weekly_admission_report_lists_every_record choice now head :
  choice = 2 \/ choice = 3 ->
  countPatientsByTimeframe localtime choice now head <> 0 ->
  StaticBuffer.displayPatientReport localtime true choice now now head true
  = Some (countPatientsByTimeframe localtime choice now head, head).
Proof.
  intros Hchoice Hcount.
  unfold StaticBuffer.displayPatientReport, StaticBuffer.printFormattedReport.
  destruct (Z.eqb_spec (countPatientsByTimeframe localtime choice now head) 0)
    as [E|_]; [contradiction|].
  rewrite static_report_loop_filter, filter_everything; [reflexivity|].
  intros p. now apply in_timeframe_shared_object.
Qed.

(** With a library whose [localtime] fills one static object, the
    Weekly and the Monthly discharge report count and list every record
    of the archive, whatever its date. *)
Theorem weekly_discharge_report_lists_every_record choice now records :
  choice = 2 \/ choice = 3 ->
  Z.of_nat (length records) <= INT_MAX ->
  StaticBuffer.displayDischargedPatientReport localtime true choice now now
    (Some records) true true true
  = Some (Z.of_nat (length records), records).
Proof.
  intros Hchoice Hlen.
  unfold StaticBuffer.displayDischargedPatientReport,
    StaticBuffer.printDischargedFormattedReport,
    StaticBuffer.countDischargedPatientsByTimeframe.
  rewrite static_count_discharged_loop_filter by (unfold INT_MAX in *; lia).
  rewrite static_discharged_report_loop_filter, Z.add_0_l.
  rewrite filter_everything by (intros d; now apply in_timeframe_shared_object).
  destruct records as [|d later]; [reflexivity|].
  destruct (Z.eqb_spec (Z.of_nat (length (d :: later))) 0) as [E|E];
    [|reflexivity].
  change (length (d :: later)) with (S (length later)) in E. lia.
Qed.

End SharedObject.

Section DischargeThenReport.

Context {layout : PatientLayout}.
Variable localtime : Z -> tm.
Variable static_buffer : bool.


End DischargeThenReport.

(** ** The usage log read back *)

Lemma scan_digits_stop value rest :
  ends_number rest -> scan_digits value rest = (value, rest).
Proof.
  destruct rest as [|c rest]; simpl; [reflexivity|]. now intros ->.
Qed.

Lemma scan_digits_step c value rest :
  isdigit c = true ->
  scan_digits value (String c rest) = scan_digits (10 * value + digit_value c) rest.
Proof. intros H. simpl. now rewrite H. Qed.

Ltac scan_one_digit :=
  cbn [NilEmpty.string_of_uint append Pos.of_uint_acc Pos.of_uint];
  rewrite scan_digits_step by reflexivity;
  match goal with
  | |- context [digit_value ?c] =>
      let v := eval vm_compute in (digit_value c) in
      change (digit_value c) with v
  end.

Lemma scan_digits_uint_acc d : forall acc rest,
  ends_number rest ->
  scan_digits (Z.pos acc) (NilEmpty.string_of_uint d ++ rest)
  = (Z.pos (Pos.of_uint_acc d acc), rest).
Proof.
  induction d; intros acc rest Hrest;
    try (scan_one_digit;
         match goal with
         | |- scan_digits ?v _ = (Z.pos (Pos.of_uint_acc _ ?b), _) =>
             replace v with (Z.pos b) by lia; now apply IHd
         end).
  now apply scan_digits_stop.
Qed.

Lemma scan_digits_uint d : forall rest,
  ends_number rest ->
  scan_digits 0 (NilEmpty.string_of_uint d ++ rest)
  = (Z.of_N (Pos.of_uint d), rest).
Proof.
  induction d; intros rest Hrest;
    try (scan_one_digit;
         match goal with
         | |- scan_digits ?v _ = (Z.of_N (N.pos (Pos.of_uint_acc _ ?b)), _) =>
             replace v with (Z.pos b) by lia; now apply scan_digits_uint_acc
         end).
  - now apply scan_digits_stop.
  - scan_one_digit. now apply IHd.
Qed.

Lemma string_of_uint_head d :
  d <> Decimal.Nil ->
  exists c tail,
    NilEmpty.string_of_uint d = String c tail
    /\ isdigit c = true /\ isspace c = false
    /\ Ascii.eqb c "-" = false /\ Ascii.eqb c "+" = false.
Proof.
  destruct d; intros H; try contradiction; simpl; eexists; eexists;
    repeat split; reflexivity.
Qed.

Lemma fscanf_int_digits d after :
  d <> Decimal.Nil ->
  ends_number after ->
  fscanf_int (NilEmpty.string_of_uint d ++ after)
  = Some (scanf_store (Z.of_N (Pos.of_uint d)), after)
  /\ fscanf_int (String "-" (NilEmpty.string_of_uint d ++ after))
     = Some (scanf_store (- Z.of_N (Pos.of_uint d)), after).
Proof.
  intros Hd Hend.
  pose proof (scan_digits_uint d after Hend) as Hscan.
  destruct (string_of_uint_head d Hd) as [c [tail [E [Hdig [Hsp [Hm Hp]]]]]].
  rewrite E in Hscan |- *. split.
  - unfold fscanf_int. cbn [append skip_space]. rewrite Hsp, Hm, Hp, Hdig.
    cbn [append] in Hscan. now rewrite Hscan.
  - unfold fscanf_int. cbn [append skip_space].
    change (isspace "-") with false. cbv iota.
    change (Ascii.eqb "-" "-") with true. cbv iota. rewrite Hdig.
    cbn [append] in Hscan. now rewrite Hscan.
Qed.

(** [fscanf] with ["%d"] converts the numeral that [fprintf] with
    ["%d\n"] wrote, and stops in front of the line end. *)
Lemma fscanf_int_reads_line room rest :
  fscanf_int (room_usage_line room ++ rest)
  = Some (scanf_store room, (newline ++ rest)%string).
Proof.
  unfold room_usage_line. rewrite string_app_assoc.
  assert (Hend : ends_number (newline ++ rest)%string) by reflexivity.
  pose proof (DecimalZ.of_to room) as Hroom.
  destruct room as [|p|p]; cbn [Z.to_int NilEmpty.string_of_int] in *.
  - reflexivity.
  - destruct (fscanf_int_digits (Pos.to_uint p) _
                (DecimalPos.Unsigned.to_uint_nonnil p) Hend) as [H _].
    rewrite H. cbn [Z.of_int] in Hroom. unfold Z.of_uint in Hroom.
    now rewrite Hroom.
  - destruct (fscanf_int_digits (Pos.to_uint p) _
                (DecimalPos.Unsigned.to_uint_nonnil p) Hend) as [_ H].
    cbn [append]. rewrite H. cbn [Z.of_int] in Hroom. unfold Z.of_uint in Hroom.
    now rewrite Hroom.
Qed.

Lemma fscanf_int_leading_newline text :
  fscanf_int (newline ++ text) = fscanf_int text.
Proof. reflexivity. Qed.

Lemma usage_lines_scan rooms : forall lead,
  rooms <> [] ->
  lead = EmptyString \/ lead = newline ->
  Scans (lead ++ usage_lines rooms) (map scanf_store rooms) newline.
Proof.
  induction rooms as [|room later IH]; intros lead Hne Hlead; [contradiction|].
  cbn [usage_lines fold_right]. fold (usage_lines later).
  apply Scans_step with (rest := (newline ++ usage_lines later)%string).
  - destruct Hlead as [-> | ->];
      [|rewrite fscanf_int_leading_newline]; apply fscanf_int_reads_line.
  - destruct later as [|room' later'].
    + apply Scans_stop. reflexivity.
    + apply IH; [discriminate | now right].
Qed.

Lemma log_rooms_text rooms : forall st,
  rooms <> [] ->
  room_usage_txt (log_rooms st rooms) = Some (log_text st ++ usage_lines rooms)%string.
Proof.
  induction rooms as [|room later IH]; intros st Hne; [contradiction|].
  unfold log_rooms. cbn [fold_left]. fold (log_rooms (logRoomUsage st room true) later).
  destruct later as [|room' later'].
  - simpl. unfold log_text. now rewrite string_app_nil_r.
  - rewrite IH by discriminate. unfold log_text at 1. cbn [logRoomUsage room_usage_txt set_room_usage].
    fold (log_text st). now rewrite string_app_assoc.
Qed.

Lemma map_scanf_store_in_range rooms :
  Forall (fun room => INT_MIN <= room <= INT_MAX) rooms ->
  map scanf_store rooms = rooms.
Proof.
  induction 1 as [|room later Hroom _ IH]; [reflexivity|].
  cbn [map]. now rewrite scanf_store_in_range, IH.
Qed.

(** Rooms logged by [logRoomUsage] into a log that did not exist are
    read back by [displayRoomUsageReport] one for one: the report has
    read as many entries as were logged, with the counts per room of the
    numbers as the [int] holds them, which are the logged rooms
    themselves, [logRoomUsage] taking an [int]. *)
Theorem logged_rooms_are_counted st rooms :
  room_usage_txt st = None ->
  rooms <> [] ->
  Z.of_nat (length rooms) <= INT_MAX ->
  let stored := map scanf_store rooms in
  (Forall (fun room => INT_MIN <= room <= INT_MAX) rooms -> stored = rooms)
  /\ exists report,
    displayRoomUsageReport (room_usage_txt (log_rooms st rooms)) true = Some report
    /\ totalRead report = Z.of_nat (length rooms)
    /\ validLogged report = Z.of_nat (length (filter valid_usage_entry stored))
    /\ warnings report = filter (fun room => negb (valid_usage_entry room)) stored
    /\ rows report =
        flat_map (fun i =>
                    let count := Z.of_nat (count_occ Z.eq_dec stored (Z.of_nat i)) in
                    if count >? 0 then [(Z.of_nat i, count)] else [])
                 (seq 1 50).
Proof.
  intros Hnone Hne Hlen stored.
  split; [apply map_scanf_store_in_range|].
  rewrite log_rooms_text by assumption.
  unfold log_text. rewrite Hnone.
  pose proof (usage_lines_scan rooms EmptyString Hne (or_introl eq_refl)) as Hscan.
  cbn [append] in Hscan |- *. fold stored in Hscan.
  assert (Hstored : Z.of_nat (length stored) <= INT_MAX)
    by (unfold stored; now rewrite length_map).
  unfold displayRoomUsageReport.
  rewrite (usage_loop_scans _ _ _ Hscan)
    by (apply Scans_length in Hscan; lia).
  destruct (tally_counts stored Hstored) as [_ [Hc [Ht [Hv Hw]]]].
  eexists. split; [reflexivity|]. cbn [rows totalRead validLogged warnings].
  split; [rewrite Ht; unfold stored; now rewrite length_map|].
  repeat split; try assumption.
  unfold usage_rows. rewrite !flat_map_concat_map. f_equal.
  apply map_ext_in. intros i Hi. apply in_seq in Hi.
  specialize (Hc (Z.of_nat i) ltac:(lia)). rewrite Nat2Z.id in Hc.
  now rewrite Hc.
Qed.

(** ** The array variant of the store *)

Module ArrayVariantTheory.

Import ArrayVariant.

Section Store.

Context {header : Header}.

Lemma assign_length index value array :
  length (assign index value array) = length array.
Proof.
  revert index. induction array as [|slot rest IH]; intros [|index]; simpl; auto.
Qed.

Lemma assign_nth array : forall index value j,
  nth j (assign index value array) zero_patient =
    if (j =? index)%nat && (index <? length array)%nat then value
    else nth j array zero_patient.
Proof.
  induction array as [|slot rest IH]; intros index value j; simpl.
  - destruct j, index; simpl; try reflexivity; now rewrite andb_false_r.
  - destruct index as [|index], j as [|j]; simpl; try reflexivity.
    rewrite IH. reflexivity.
Qed.

Lemma nth_app_cases (a b : list Patient) j :
  nth j (a ++ b) zero_patient =
    if (j <? length a)%nat then nth j a zero_patient
    else nth (j - length a) b zero_patient.
Proof.
  destruct (Nat.ltb_spec j (length a)).
  - now apply app_nth1.
  - now apply app_nth2.
Qed.

(** The loop of [removePatientFromSystem], slot by slot. *)
Lemma shift_from_nth fuel : forall i array,
  length array = MAX_PATIENT_CAPACITY ->
  (MAX_PATIENT_CAPACITY - 1 - i <= fuel)%nat ->
  length (shift_from fuel i array) = MAX_PATIENT_CAPACITY
  /\ forall j,
       nth j (shift_from fuel i array) zero_patient =
         if (j <? i)%nat then nth j array zero_patient
         else if (S j <? MAX_PATIENT_CAPACITY)%nat
              then nth (S j) array zero_patient
              else nth j array zero_patient.
Proof.
  induction fuel as [|fuel IH]; intros i array Hlen Hfuel; simpl.
  - split; [exact Hlen|]. intros j.
    destruct (Nat.ltb_spec j i); [reflexivity|].
    destruct (Nat.ltb_spec (S j) MAX_PATIENT_CAPACITY); [lia | reflexivity].
  - destruct (Nat.ltb_spec (S i) MAX_PATIENT_CAPACITY) as [Hi|Hi].
    + destruct (IH (S i) (assign i (nth (S i) array zero_patient) array))
        as [Hl Hn]; [now rewrite assign_length | lia |].
      split; [exact Hl|]. intros j. rewrite Hn, !assign_nth, Hlen.
      destruct (Nat.ltb_spec j (S i)), (Nat.ltb_spec j i),
        (Nat.ltb_spec (S j) MAX_PATIENT_CAPACITY),
        (Nat.eqb_spec j i), (Nat.eqb_spec (S j) i),
        (Nat.ltb_spec i MAX_PATIENT_CAPACITY);
        simpl; try lia; try reflexivity; subst; reflexivity.
    + split; [exact Hlen|]. intros j.
      destruct (Nat.ltb_spec j i); [reflexivity|].
      destruct (Nat.ltb_spec (S j) MAX_PATIENT_CAPACITY); [lia | reflexivity].
Qed.

Lemma shift_from_array index array :
  length array = MAX_PATIENT_CAPACITY ->
  (index < MAX_PATIENT_CAPACITY)%nat ->
  shift_from MAX_PATIENT_CAPACITY index array =
    firstn index array ++ skipn (S index) array
    ++ [nth (MAX_PATIENT_CAPACITY - 1) array zero_patient].
Proof.
  intros Hlen Hi.
  destruct (shift_from_nth MAX_PATIENT_CAPACITY index array Hlen ltac:(lia))
    as [Hl Hn].
  apply nth_ext with (d := zero_patient) (d' := zero_patient).
  - rewrite Hl, !length_app, length_firstn, length_skipn, Hlen.
    cbn [length]. lia.
  - intros j Hj. rewrite Hl in Hj. rewrite Hn.
    rewrite nth_app_cases, length_firstn, Hlen, Nat.min_l by lia.
    rewrite nth_firstn.
    destruct (Nat.ltb_spec j index); [reflexivity|].
    rewrite nth_app_cases, length_skipn, Hlen, nth_skipn.
    destruct (Nat.ltb_spec (S j) MAX_PATIENT_CAPACITY),
      (Nat.ltb_spec (j - index) (MAX_PATIENT_CAPACITY - S index)); try lia.
    + f_equal. lia.
    + replace (j - index - (MAX_PATIENT_CAPACITY - S index))%nat with 0%nat by lia.
      cbn [nth]. f_equal. lia.
Qed.

(** [removePatientFromSystem] moves every slot after [index] one place
    down and leaves the last slot as it was: the array is the slots
    before [index], the slots after it, and the old last slot once
    more; the array keeps its size, and the count goes down by one
    whatever the slot held. *)
Theorem removePatientFromSystem_shifts st index :
  length (patients st) = MAX_PATIENT_CAPACITY ->
  (index < MAX_PATIENT_CAPACITY)%nat ->
  patients (removePatientFromSystem st index) =
    firstn index (patients st) ++ skipn (S index) (patients st)
    ++ [nth (MAX_PATIENT_CAPACITY - 1) (patients st) zero_patient]
  /\ length (patients (removePatientFromSystem st index)) = MAX_PATIENT_CAPACITY
  /\ totalPatients (removePatientFromSystem st index)
     = wrap_int (totalPatients st - 1).
Proof.
  intros Hlen Hi. cbn [patients totalPatients removePatientFromSystem].
  split; [now apply shift_from_array|]. split; [|reflexivity].
  now apply shift_from_nth; [|lia].
Qed.

Lemma patientExists_from_first slots : forall i id index,
  (index < length slots)%nat ->
  patientId (nth index slots zero_patient) = id ->
  (forall j, (j < index)%nat -> patientId (nth j slots zero_patient) <> id) ->
  patientExists_from i slots id = Some (i + index)%nat.
Proof.
  induction slots as [|slot later IH]; intros i id index Hlt Hid Hfirst;
    simpl in Hlt; [lia|].
  simpl. destruct index as [|index].
  - simpl in Hid. rewrite Hid, Z.eqb_refl. f_equal. lia.
  - destruct (Z.eqb_spec (patientId slot) id) as [E|E].
    + exfalso. apply (Hfirst 0%nat); [lia | exact E].
    + rewrite (IH (S i) id index); [f_equal; lia | lia | exact Hid |].
      intros j Hj. apply (Hfirst (S j)). lia.
Qed.

Lemma patientExists_from_found slots : forall i id k,
  patientExists_from i slots id = Some k ->
  exists index,
    k = (i + index)%nat /\ (index < length slots)%nat
    /\ patientId (nth index slots zero_patient) = id.
Proof.
  induction slots as [|slot later IH]; intros i id k; simpl; [discriminate|].
  destruct (Z.eqb_spec (patientId slot) id) as [E|E].
  - intros H. injection H as <-. exists 0%nat. repeat split; [lia | lia | exact E].
  - intros H. destruct (IH _ _ _ H) as [index [-> [Hlt Hid]]].
    exists (S index). repeat split; [lia | lia | exact Hid].
Qed.

Lemma filter_none (f : Patient -> bool) l :
  (forall slot, In slot l -> f slot = false) -> filter f l = [].
Proof.
  induction l as [|slot later IH]; intros H; [reflexivity|].
  simpl. rewrite (H slot (or_introl eq_refl)). apply IH.
  intros other Hin. apply H. now right.
Qed.

Lemma filter_all (f : Patient -> bool) l :
  (forall slot, In slot l -> f slot = true) -> filter f l = l.
Proof.
  induction l as [|slot later IH]; intros H; [reflexivity|].
  simpl. rewrite (H slot (or_introl eq_refl)). f_equal. apply IH.
  intros other Hin. apply H. now right.
Qed.

(** In a packed store the listing shows the used slots, in order. *)
Lemma packed_view st used :
  packed st used ->
  viewPatientRecords st = firstn used (patients st).
Proof.
  intros [Ht [Hle [Hlen [Hused Hfree]]]]. unfold viewPatientRecords. rewrite Ht.
  destruct used as [|used]; [reflexivity|].
  destruct (Z.eqb_spec (Z.of_nat (S used)) 0); [lia|].
  rewrite <- (firstn_skipn (S used) (patients st)) at 1.
  rewrite filter_app, (filter_none _ (skipn (S used) (patients st))).
  - rewrite app_nil_r. apply filter_all.
    intros slot Hin. apply (In_nth _ _ zero_patient) in Hin.
    destruct Hin as [j [Hj <-]].
    rewrite length_firstn in Hj. rewrite nth_firstn.
    destruct (Nat.ltb_spec j (S used)); [|lia].
    destruct (Z.eqb_spec (patientId (nth j (patients st) zero_patient)) 0) as [E|E];
      [|reflexivity].
    exfalso. now apply (Hused j).
  - intros slot Hin. apply (In_nth _ _ zero_patient) in Hin.
    destruct Hin as [j [Hj <-]]. rewrite nth_skipn, Hfree by lia. reflexivity.
Qed.

Lemma patientExists_found st id index :
  patientExists st id = Some index ->
  (index < length (patients st))%nat
  /\ patientId (nth index (patients st) zero_patient) = id.
Proof.
  intros H. apply patientExists_from_found in H.
  destruct H as [k [-> [Hlt Hid]]]. now split.
Qed.

Hypothesis capacity_fits_int : Z.of_nat MAX_PATIENT_CAPACITY <= INT_MAX.

(** An accepted entry goes into the first free slot of a packed store
    that is not full, whatever its room: the store stays packed, the
    listing grows by the new record at its end, and both counters
    advance.  A full store is left as it was. *)
Theorem addPatientRecord_packed st used entry :
  packed st used ->
  0 <= patientIDCounter st < INT_MAX ->
  patientIDCounter st <> 0 ->
  validatePatientName (entry_name entry) = IS_VALID ->
  validatePatientAge (entry_age entry) = IS_VALID ->
  validatePatientDiagnosis (entry_diagnosis entry) = IS_VALID ->
  validateRoomNumber (entry_room entry) = IS_VALID ->
  (used = MAX_PATIENT_CAPACITY -> addPatientRecord st entry = Some st)
  /\ ((used < MAX_PATIENT_CAPACITY)%nat ->
      exists st',
        addPatientRecord st entry = Some st'
        /\ packed st' (S used)
        /\ viewPatientRecords st' =
             viewPatientRecords st
             ++ [createNewPatient (entry_name entry) (entry_age entry)
                   (entry_diagnosis entry) (entry_room entry)
                   (patientIDCounter st)]
        /\ patientIDCounter st' = patientIDCounter st + 1).
Proof.
  intros Hp Hc Hc0 Hname Hage Hdiag Hroom.
  pose proof Hp as [Ht [Hle [Hlen [Hused Hfree]]]].
  unfold addPatientRecord. rewrite Hname, Hage, Hdiag, Hroom, Ht. split.
  - intros ->. destruct (Z.geb_spec (Z.of_nat MAX_PATIENT_CAPACITY)
                           (Z.of_nat MAX_PATIENT_CAPACITY)); [reflexivity | lia].
  - intros Hlt.
    destruct (Z.geb_spec (Z.of_nat used) (Z.of_nat MAX_PATIENT_CAPACITY)); [lia|].
    destruct (Z.ltb_spec (Z.of_nat used) 0); [lia|].
    rewrite Nat2Z.id. eexists. split; [reflexivity|].
    assert (Hpacked : packed
      {| patients := assign used (createNewPatient (entry_name entry)
                       (entry_age entry) (entry_diagnosis entry)
                       (entry_room entry) (patientIDCounter st)) (patients st);
         totalPatients := wrap_int (Z.of_nat used + 1);
         patientIDCounter := wrap_int (patientIDCounter st + 1) |} (S used)).
    { unfold packed. cbn [patients totalPatients].
      rewrite assign_length, wrap_int_in_range by (unfold INT_MIN, INT_MAX in *; lia).
      repeat split; [lia | lia | exact Hlen | |].
      - intros j Hj. rewrite assign_nth, Hlen.
        destruct (Nat.eqb_spec j used), (Nat.ltb_spec used MAX_PATIENT_CAPACITY);
          cbn [andb]; try lia; [exact Hc0 | apply Hused; lia].
      - intros j Hj. rewrite assign_nth.
        destruct (Nat.eqb_spec j used); [lia|]. cbn [andb]. apply Hfree. lia. }
    split; [exact Hpacked|]. split.
    + rewrite (packed_view _ _ Hpacked), (packed_view _ _ Hp).
      cbn [patients].
      apply nth_ext with (d := zero_patient) (d' := zero_patient).
      * rewrite length_app, !length_firstn, assign_length, Hlen. cbn [length]. lia.
      * intros j Hj. rewrite length_firstn, assign_length, Hlen in Hj.
        rewrite nth_firstn, assign_nth, Hlen, nth_app_cases, length_firstn, Hlen,
          nth_firstn, Nat.min_l by lia.
        destruct (Nat.ltb_spec j (S used)); [|lia].
        destruct (Nat.eqb_spec j used), (Nat.ltb_spec used MAX_PATIENT_CAPACITY),
          (Nat.ltb_spec j used); cbn [andb]; try lia; [|reflexivity].
        subst j. rewrite Nat.sub_diag. reflexivity.
    + cbn [patientIDCounter]. apply wrap_int_in_range.
      unfold INT_MIN, INT_MAX in *. lia.
Qed.

(** Discharging a listed patient from a packed store that is not full
    removes exactly that record: the store stays packed with one record
    less and the listing is the old one without the record. *)
Theorem dischargePatient_packed st used id index :
  packed st used ->
  (used < MAX_PATIENT_CAPACITY)%nat ->
  id <> 0 ->
  patientExists st id = Some index ->
  let st' := dischargePatient st id "y" in
  (index < used)%nat
  /\ packed st' (used - 1)
  /\ viewPatientRecords st' =
       firstn index (viewPatientRecords st)
       ++ skipn (S index) (viewPatientRecords st).
Proof.
  intros Hp Hlt Hid Hex st'.
  pose proof Hp as [Ht [Hle [Hlen [Hused Hfree]]]].
  destruct (patientExists_found _ _ _ Hex) as [Hi Hidx].
  assert (Hiu : (index < used)%nat).
  { destruct (Nat.ltb_spec index used) as [H|H]; [exact H|].
    rewrite (Hfree index H) in Hidx. cbn in Hidx. congruence. }
  split; [exact Hiu|].
  assert (Est : st' = removePatientFromSystem st index).
  { unfold st', dischargePatient. rewrite Ht, Hex.
    destruct (Z.eqb_spec (Z.of_nat used) 0); [lia | reflexivity]. }
  destruct (shift_from_nth MAX_PATIENT_CAPACITY index (patients st) Hlen ltac:(lia))
    as [Hl Hn].
  assert (Hpacked : packed st' (used - 1)).
  { rewrite Est. unfold packed. cbn [patients totalPatients removePatientFromSystem].
    rewrite Hl, Ht, wrap_int_in_range by (unfold INT_MIN, INT_MAX in *; lia).
    repeat split; [lia | lia | |].
    - intros j Hj. rewrite Hn.
      destruct (Nat.ltb_spec j index); [apply Hused; lia|].
      destruct (Nat.ltb_spec (S j) MAX_PATIENT_CAPACITY); [|lia].
      apply Hused. lia.
    - intros j Hj. rewrite Hn.
      destruct (Nat.ltb_spec j index); [lia|].
      destruct (Nat.ltb_spec (S j) MAX_PATIENT_CAPACITY); apply Hfree; lia. }
  split; [exact Hpacked|].
  rewrite (packed_view _ _ Hpacked), (packed_view _ _ Hp), Est.
  cbn [patients removePatientFromSystem].
  apply nth_ext with (d := zero_patient) (d' := zero_patient).
  - rewrite length_app, !length_firstn, length_skipn, length_firstn, Hl, Hlen. lia.
  - intros j Hj. rewrite length_firstn, Hl in Hj.
    rewrite nth_firstn, Hn, nth_app_cases, !length_firstn, Hlen, !nth_firstn,
      nth_skipn, nth_firstn.
    rewrite (Nat.min_l used) by lia. rewrite (Nat.min_l index) by lia.
    destruct (Nat.ltb_spec j (used - 1)); [|lia].
    destruct (Nat.ltb_spec j index).
    + destruct (Nat.ltb_spec j used); [reflexivity | lia].
    + destruct (Nat.ltb_spec (S j) MAX_PATIENT_CAPACITY); [|lia].
      destruct (Nat.ltb_spec (S index + (j - index)) used); [|lia].
      f_equal. lia.
Qed.

(** Discharging from a full store leaves a copy of the last record in
    the last slot: the count goes down by one but the listing keeps as
    many records as before, the last one twice when another record was
    discharged. *)
Theorem dischargePatient_full_store st id index :
  packed st MAX_PATIENT_CAPACITY ->
  (2 <= MAX_PATIENT_CAPACITY)%nat ->
  patientExists st id = Some index ->
  let st' := dischargePatient st id "y" in
  totalPatients st' = Z.of_nat MAX_PATIENT_CAPACITY - 1
  /\ viewPatientRecords st' =
       firstn index (patients st) ++ skipn (S index) (patients st)
       ++ [nth (MAX_PATIENT_CAPACITY - 1) (patients st) zero_patient].
Proof.
  intros Hp Hcap Hex st'.
  pose proof Hp as [Ht [Hle [Hlen [Hused Hfree]]]].
  destruct (patientExists_found _ _ _ Hex) as [Hi Hidx]. rewrite Hlen in Hi.
  assert (Est : st' = removePatientFromSystem st index).
  { unfold st', dischargePatient. rewrite Ht, Hex.
    destruct (Z.eqb_spec (Z.of_nat MAX_PATIENT_CAPACITY) 0); [lia | reflexivity]. }
  pose proof (shift_from_array index (patients st) Hlen Hi) as Hps.
  assert (Htot : totalPatients (removePatientFromSystem st index)
                 = wrap_int (totalPatients st - 1)) by reflexivity.
  destruct (shift_from_nth MAX_PATIENT_CAPACITY index (patients st) Hlen ltac:(lia))
    as [Hl Hn].
  rewrite Est, Htot, Ht, wrap_int_in_range by (unfold INT_MIN, INT_MAX in *; lia).
  split; [reflexivity|].
  unfold viewPatientRecords. rewrite Htot, Ht, wrap_int_in_range
    by (unfold INT_MIN, INT_MAX in *; lia).
  destruct (Z.eqb_spec (Z.of_nat MAX_PATIENT_CAPACITY - 1) 0); [lia|].
  rewrite <- Hps. change (shift_from MAX_PATIENT_CAPACITY index (patients st))
    with (patients (removePatientFromSystem st index)). apply filter_all.
  intros slot Hin. apply (In_nth _ _ zero_patient) in Hin.
  destruct Hin as [j [Hj <-]].
  cbn [patients removePatientFromSystem] in *. rewrite Hl in Hj. rewrite Hn.
  apply negb_true_iff, Z.eqb_neq.
  destruct (Nat.ltb_spec j index); [apply Hused; lia|].
  destruct (Nat.ltb_spec (S j) MAX_PATIENT_CAPACITY); apply Hused; lia.
Qed.

(** ID 0 is the ID of every free slot: in a packed store that is not
    full, the search for 0 finds the first free slot, and a confirmed
    discharge of 0 lowers the count while every record stays in the
    array. *)
Theorem dischargePatient_of_free_slot st used :
  packed st used ->
  (0 < used < MAX_PATIENT_CAPACITY)%nat ->
  let st' := dischargePatient st 0 "y" in
  patientExists st 0 = Some used
  /\ searchPatientById st 0 = Some zero_patient
  /\ patients st' = patients st
  /\ totalPatients st' = Z.of_nat used - 1.
Proof.
  intros Hp Hu st'.
  pose proof Hp as [Ht [Hle [Hlen [Hused Hfree]]]].
  assert (Hex : patientExists st 0 = Some used).
  { unfold patientExists.
    rewrite (patientExists_from_first (patients st) 0 0 used); [reflexivity | lia | |].
    - rewrite Hfree by lia. reflexivity.
    - exact Hused. }
  split; [exact Hex|]. split.
  { unfold searchPatientById. rewrite Hex, Hfree by lia. reflexivity. }
  assert (Est : st' = removePatientFromSystem st used).
  { unfold st', dischargePatient. rewrite Ht, Hex.
    destruct (Z.eqb_spec (Z.of_nat used) 0); [lia | reflexivity]. }
  destruct (shift_from_nth MAX_PATIENT_CAPACITY used (patients st) Hlen ltac:(lia))
    as [Hl Hn].
  rewrite Est. cbn [patients totalPatients removePatientFromSystem]. split.
  - apply nth_ext with (d := zero_patient) (d' := zero_patient);
      [now rewrite Hl, Hlen|].
    intros j Hj. rewrite Hn.
    destruct (Nat.ltb_spec j used); [reflexivity|].
    destruct (Nat.ltb_spec (S j) MAX_PATIENT_CAPACITY); [|reflexivity].
    rewrite !Hfree by lia. reflexivity.
  - rewrite Ht. apply wrap_int_in_range. unfold INT_MIN, INT_MAX in *. lia.
Qed.

End Store.

End ArrayVariantTheory.

(** * Concrete runs *)

Section ConcreteRuns.

Import Sample.

Let layout := SampleLayout.layout.
Existing Instance layout.

Lemma sample_records_length :
  Forall (fun chunk => length chunk = sizeof_Patient)
         [SampleLayout.encode jane; SampleLayout.encode omar].
Proof. repeat constructor. Qed.

(** *** Admission *)

Lemma admissions_ids_increase_in_order_witness :
  exists st' created,
    admission_run initial_state
      [admission "Jane Doe" 12 1700000000; admission "Omar Haddad" 7 1700000600;
       admission "Li Wei" 30 1700001200] = Some (st', created)
    /\ map patientId created = [1; 2; 3]
    /\ StronglySorted Z.lt (map patientId created)
    /\ NoDup (map patientId created)
    /\ Forall (fun p => validateRoomNumber (roomNumber p) = IS_VALID) created
    /\ viewPatientRecords (patientHead st') =
         viewPatientRecords (patientHead initial_state) ++ created.
Proof.
  destruct (admission_run initial_state
      [admission "Jane Doe" 12 1700000000; admission "Omar Haddad" 7 1700000600;
       admission "Li Wei" 30 1700001200]) as [[st' created]|] eqn:E.
  - exists st', created. split; [reflexivity|]. split.
    + vm_compute in E. injection E as _ <-. reflexivity.
    + apply (admissions_ids_increase_in_order initial_state _ st' created E).
      * repeat constructor.
      * vm_compute. discriminate.
      * vm_compute. discriminate.
  - vm_compute in E. discriminate.
Defined.

(** *** Rewriting [patients.dat] *)

(** C3, the claim as first stated: every record is written and the
    temporary file closed, the old [patients.dat] is removed and the
    rename fails.  [patients.dat] then holds neither its prior contents
    nor the new image: it no longer exists. *)
Lemma updatePatientsFile_not_atomic_counterexample :
  let st' := updatePatientsFile stale_file update_rename_fails in
  tmp_open_ok update_rename_fails = true
  /\ tmp_write_ok update_rename_fails 0 = true
  /\ tmp_close_ok update_rename_fails = true
  /\ patients_dat stale_file = Some (file_image [jane; omar])
  /\ patients_dat st' = None
  /\ patients_tmp st' = Some (file_image [omar]).
Proof. vm_compute. repeat split. Qed.

Lemma updatePatientsFile_replaces_only_after_full_write_witness :
  (patients_dat (updatePatientsFile two_patients update_second_write_fails)
     = patients_dat two_patients
   /\ patients_tmp (updatePatientsFile two_patients update_second_write_fails) = None)
  /\ (patients_dat (updatePatientsFile two_patients update_ok)
        = Some (file_image [jane; omar])
      /\ patients_tmp (updatePatientsFile two_patients update_ok) = None)
  /\ (tmp_open_ok update_ok = true /\ tmp_close_ok update_ok = true)
  /\ updatePatientsFile two_patients update_no_tmp = two_patients
  /\ (patients_tmp (updatePatientsFile stale_file update_rename_fails)
        = Some (file_image [omar])
      /\ patients_dat (updatePatientsFile stale_file update_rename_fails) = None).
Proof.
  split; [|split; [|split; [|split]]].
  - destruct (updatePatientsFile_replaces_only_after_full_write
                two_patients update_second_write_fails) as [_ [_ [H _]]].
    apply H; [reflexivity|].
    left. exists 1%nat. split; [simpl; lia | reflexivity].
  - destruct (updatePatientsFile_replaces_only_after_full_write
                two_patients update_ok) as [_ [H _]].
    apply H; reflexivity.
  - destruct (updatePatientsFile_replaces_only_after_full_write
                (set_patients_files two_patients None None) update_ok) as [H _].
    destruct H as [Ho [_ Hc]]; [|now split].
    vm_compute. discriminate.
  - destruct (updatePatientsFile_replaces_only_after_full_write
                two_patients update_no_tmp) as [_ [_ [_ H]]].
    apply H. reflexivity.
  - destruct (updatePatientsFile_replaces_only_after_full_write
                stale_file update_rename_fails) as [_ [H _]].
    destruct H as [_ H]; [reflexivity | intros k _; reflexivity | reflexivity |].
    destruct (H eq_refl) as [Htmp [Hgone _]].
    split; [exact Htmp | exact (Hgone eq_refl)].
Defined.

(** *** Discharge *)

Lemma dischargePatient_without_confirmation_witness :
  dischargePatient two_patients (discharge 1 "n" 1700003600 true update_ok)
  = two_patients.
Proof.
  apply (dischargePatient_without_confirmation two_patients _ jane).
  - reflexivity.
  - discriminate.
Defined.

(** C4, the claim as first stated: the archive cannot be opened and the
    confirmed patient is still in the active list. *)
Lemma dischargePatient_archive_failure_counterexample :
  let inp := discharge 1 "y" 1700003600 false update_ok in
  getPatientFromList (dis_id inp) (patientHead two_patients) = Some jane
  /\ confirmDischarge (dis_confirm inp) = true
  /\ dis_archive_open_ok inp = false
  /\ patientHead (dischargePatient two_patients inp) = [jane; omar]
  /\ getPatientFromList 1 (patientHead (dischargePatient two_patients inp))
     = Some jane.
Proof. vm_compute. repeat split. Qed.

Lemma dischargePatient_persistence_failures_witness :
  (patientHead (dischargePatient two_patients
                  (discharge 1 "y" 1700003600 false update_ok))
   = patientHead two_patients)
  /\ (unlink_by_id 1 (patientHead two_patients)
      = Some (patientHead (dischargePatient two_patients
                             (discharge 1 "y" 1700003600 true update_no_tmp)))).
Proof.
  split.
  - destruct (dischargePatient_persistence_failures two_patients
                (discharge 1 "y" 1700003600 false update_ok) jane
                eq_refl eq_refl) as [H _].
    apply H. now left.
  - destruct (dischargePatient_persistence_failures two_patients
                (discharge 1 "y" 1700003600 true update_no_tmp) jane
                eq_refl eq_refl) as [_ H].
    apply H; reflexivity.
Defined.

(** *** Room exclusivity *)

(** C1, the claim as first stated.  The room prompt rejects room 0 on an
    empty list, where no record holds it.  And a discharge whose rewrite
    of [patients.dat] fails leaves the discharged record on disk: the
    room is given to the next patient, and a reload brings both records
    back with the same room. *)
Lemma room_exclusivity_counterexample :
  (room_prompt (Entered 0) [] = IS_NOT_VALID
   /\ ~ (exists p : Patient, In p [] /\ roomNumber p = 0))
  /\ option_map (fun st => (active_rooms st, active_ids st))
       (run initial_state
          [OpAdmit (admission "Jane Doe" 12 1700000000);
           OpDischarge (discharge 1 "y" 1700003600 true update_no_tmp);
           OpAdmit (admission "Omar Haddad" 12 1700007200);
           OpRestore load_ok])
     = Some ([12; 12], [1; 2])
  /\ ~ NoDup [12; 12].
Proof.
  split; [split|split].
  - reflexivity.
  - intros [p [[] _]].
  - vm_compute. reflexivity.
  - intros H. inversion H as [|x l Hin _]; subst. apply Hin. now left.
Qed.

Lemma room_exclusivity_in_runs_witness :
  (exists st',
     run initial_state
       [OpAdmit (admission "Jane Doe" 12 1700000000);
        OpAdmit (admission "Omar Haddad" 7 1700000600);
        OpDischarge (discharge 1 "y" 1700003600 true update_no_tmp);
        OpAdmit (admission "Li Wei" 12 1700007200)] = Some st'
     /\ active_rooms st' = [7; 12]
     /\ NoDup (active_rooms st'))
  /\ (exists st',
       run initial_state
         [OpAdmit (admission "Jane Doe" 12 1700000000);
          OpAdmit (admission "Omar Haddad" 7 1700000600);
          OpDischarge (discharge 1 "y" 1700003600 true update_ok);
          OpRestore load_ok;
          OpAdmit (admission "Li Wei" 12 1700007200)] = Some st'
       /\ active_rooms st' = [7; 12]
       /\ NoDup (active_rooms st')).
Proof.
  split.
  - destruct (run initial_state
        [OpAdmit (admission "Jane Doe" 12 1700000000);
         OpAdmit (admission "Omar Haddad" 7 1700000600);
         OpDischarge (discharge 1 "y" 1700003600 true update_no_tmp);
         OpAdmit (admission "Li Wei" 12 1700007200)]) as [st'|] eqn:E.
    + exists st'. split; [reflexivity|]. split.
      * vm_compute in E. injection E as <-. reflexivity.
      * refine (proj1 (room_exclusivity_in_runs initial_state _ st' _ _ E)).
        -- split; constructor.
        -- left. reflexivity.
    + vm_compute in E. discriminate.
  - destruct (run initial_state
        [OpAdmit (admission "Jane Doe" 12 1700000000);
         OpAdmit (admission "Omar Haddad" 7 1700000600);
         OpDischarge (discharge 1 "y" 1700003600 true update_ok);
         OpRestore load_ok;
         OpAdmit (admission "Li Wei" 12 1700007200)]) as [st'|] eqn:E.
    + exists st'. split; [reflexivity|]. split.
      * vm_compute in E. injection E as <-. reflexivity.
      * refine (proj1 (room_exclusivity_in_runs initial_state _ st' _ _ E)).
        -- split; constructor.
        -- right. split.
           ++ split; [right; split; reflexivity | constructor].
           ++ vm_compute. repeat split; intros; reflexivity.
    + vm_compute in E. discriminate.
Defined.

(** *** Uniqueness of IDs *)

(** C5, the claim as first stated: the only patient is discharged, the
    store is reloaded from the now empty [patients.dat], and the next
    patient gets ID 1, the ID of the archived record. *)
Lemma ids_reused_after_reload_counterexample :
  option_map (fun st => (active_ids st, archived_ids st,
                         map name (patientHead st),
                         map (fun d => name (patient d))
                             (opened_for_append (discharged_patients_dat st))))
    (run initial_state
       [OpAdmit (admission "Jane Doe" 12 1700000000);
        OpDischarge (discharge 1 "y" 1700003600 true update_ok);
        OpRestore load_ok;
        OpAdmit (admission "Omar Haddad" 7 1700007200)])
  = Some ([1], [1], ["Omar Haddad"%string], ["Jane Doe"%string])
  /\ ~ NoDup ([1] ++ [1]).
Proof.
  split.
  - vm_compute. reflexivity.
  - intros H. inversion H as [|x l Hin _]; subst. apply Hin. now left.
Qed.

Lemma ids_unique_without_reload_witness :
  exists st',
    run initial_state
      [OpAdmit (admission "Jane Doe" 12 1700000000);
       OpAdmit (admission "Omar Haddad" 7 1700000600);
       OpDischarge (discharge 2 "y" 1700003600 true update_ok);
       OpAdmit (admission "Li Wei" 7 1700007200)] = Some st'
    /\ (active_ids st', archived_ids st') = ([1; 3], [2])
    /\ ids_unique st'.
Proof.
  destruct (run initial_state
      [OpAdmit (admission "Jane Doe" 12 1700000000);
       OpAdmit (admission "Omar Haddad" 7 1700000600);
       OpDischarge (discharge 2 "y" 1700003600 true update_ok);
       OpAdmit (admission "Li Wei" 7 1700007200)]) as [st'|] eqn:E.
  - exists st'. split; [reflexivity|]. split.
    + vm_compute in E. injection E as <-. reflexivity.
    + match type of E with
      | run _ ?ops = _ =>
          apply (ids_unique_without_reload ops initial_state st'); try exact E
      end.
      * split; constructor.
      * vm_compute. discriminate.
      * vm_compute. discriminate.
      * reflexivity.
  - vm_compute in E. discriminate.
Defined.

(** *** Loading *)

Lemma initializePatientSystem_counter_witness :
  (patientHead (initializePatientSystem initial_state load_ok) = []
   /\ totalPatients (initializePatientSystem initial_state load_ok) = IS_EMPTY
   /\ patientIDCounter (initializePatientSystem initial_state load_ok) = DEFAULT_ID)
  /\ (patientHead (initializePatientSystem whole_store load_ok)
        = map decode_Patient [SampleLayout.encode jane; SampleLayout.encode omar]
      /\ patientIDCounter (initializePatientSystem whole_store load_ok) = 2 + 1).
Proof.
  split.
  - destruct (initializePatientSystem_counter initial_state load_ok) as [H _].
    apply H. now left.
  - destruct (initializePatientSystem_counter whole_store load_ok) as [_ H].
    apply (H _ []).
    + vm_compute. reflexivity.
    + exact sample_records_length.
    + simpl. lia.
    + reflexivity.
    + reflexivity.
    + vm_compute. reflexivity.
    + vm_compute. split; [discriminate | reflexivity].
Defined.

Lemma initializePatientSystem_truncated_file_witness :
  patientHead (initializePatientSystem truncated_store load_ok)
    = map decode_Patient [SampleLayout.encode jane; SampleLayout.encode omar]
  /\ totalPatients (initializePatientSystem truncated_store load_ok)
    = Nat.iter 2 (fun t => wrap_int (t + 1)) IS_EMPTY.
Proof.
  apply (initializePatientSystem_truncated_file truncated_store load_ok
           [SampleLayout.encode jane; SampleLayout.encode omar]
           (firstn 100 (SampleLayout.encode jane))).
  - reflexivity.
  - exact sample_records_length.
  - change (length (firstn 100 (SampleLayout.encode jane)))
      with (Nat.min 100 377). simpl. lia.
  - reflexivity.
  - reflexivity.
Defined.

(** The records read back from the truncated file are the two that were
    written whole. *)
Example truncated_store_loaded :
  patientHead (initializePatientSystem truncated_store load_ok) = [jane; omar]
  /\ totalPatients (initializePatientSystem truncated_store load_ok) = 2
  /\ patientIDCounter (initializePatientSystem truncated_store load_ok) = 3.
Proof. vm_compute. repeat split. Qed.

(** *** Room usage report *)

(** C8, the claim as first stated: a line that is not a number ends the
    reading; it is not counted as invalid, and the valid line after it
    is not counted either. *)
Lemma room_usage_text_line_counterexample :
  displayRoomUsageReport (Some log_with_text) true
  = Some {| rows := []; roomsReported := 0; noValidData := true;
            totalRead := 0; validLogged := 0; warnings := [] |}.
Proof. vm_compute. reflexivity. Qed.

Lemma sample_log_scans : Scans log_with_bad_room [12; 77; 12; 3] newline.
Proof.
  unfold log_with_bad_room.
  apply Scans_step
    with (rest := (newline ++ "77" ++ newline ++ "12" ++ newline ++ "3" ++ newline)%string);
    [vm_compute; reflexivity|].
  apply Scans_step with (rest := (newline ++ "12" ++ newline ++ "3" ++ newline)%string);
    [vm_compute; reflexivity|].
  apply Scans_step with (rest := (newline ++ "3" ++ newline)%string);
    [vm_compute; reflexivity|].
  apply Scans_step with (rest := newline); [vm_compute; reflexivity|].
  apply Scans_stop. reflexivity.
Defined.

Lemma displayRoomUsageReport_counts_scanned_numbers_witness :
  exists report,
    displayRoomUsageReport (Some log_with_bad_room) true = Some report
    /\ totalRead report = 4
    /\ validLogged report = 3
    /\ warnings report = [77]
    /\ rows report = [(3, 1); (12, 2)].
Proof.
  destruct (displayRoomUsageReport_counts_scanned_numbers
              log_with_bad_room [12; 77; 12; 3] newline sample_log_scans)
    as [_ [_ [report [Hr [Ht [Hv [Hw Hrows]]]]]]].
  - vm_compute. discriminate.
  - exists report. split; [exact Hr|].
    rewrite Ht, Hv, Hw, Hrows. vm_compute. repeat split.
Defined.

(** A numeral that does not fit an [int] is tallied as the number the
    [int] holds: 4294967308 counts for room 12 and raises no warning. *)
Example room_usage_long_numeral :
  displayRoomUsageReport (Some log_with_long_numeral) true
  = Some {| rows := [(12, 2)]; roomsReported := 1; noValidData := false;
            totalRead := 2; validLogged := 2; warnings := [] |}.
Proof. vm_compute. reflexivity. Qed.

End ConcreteRuns.

(** * More concrete runs *)

Section FurtherConcreteRuns.

Import Sample.

Let layout := SampleLayout.layout.
Existing Instance layout.

Let admission_without_memory : AdmitInput :=
  {| adm_name := "Li Wei"; adm_age := 34; adm_diagnosis := "Fracture";
     adm_rooms := [Entered 30]; adm_now := 1700001200;
     adm_malloc_ok := false; adm_append_open_ok := true |}.

(** *** Search, admission and discharge *)

Lemma getRoomNumber_first_acceptable_witness :
  getRoomNumber [NotANumber; Entered 0; Entered 12; Entered 30; Entered 31]
                [jane; omar] = Some (30, [Entered 31])
  /\ 1 <= 30 <= 50
  /\ ~ In 30 (map roomNumber [jane; omar]).
Proof.
  split; [reflexivity|].
  pose proof (getRoomNumber_first_acceptable
                [NotANumber; Entered 0; Entered 12; Entered 30; Entered 31]
                [jane; omar]) as H.
  cbv zeta in H.
  change (getRoomNumber [NotANumber; Entered 0; Entered 12; Entered 30; Entered 31]
            [jane; omar]) with (Some (30, [Entered 31])) in H.
  destruct H as [rejected [_ [_ [Hrange Hfree]]]].
  split; [exact Hrange | exact Hfree].
Defined.

Lemma search_finds_admitted_patient_witness :
  exists st' newPatient,
    addPatientRecord two_patients (admission "Li Wei" 30 1700001200)
      = Some (st', newPatient)
    /\ searchPatientById (patientHead st') (patientId newPatient)
       = SearchFound newPatient.
Proof.
  destruct (addPatientRecord two_patients (admission "Li Wei" 30 1700001200))
    as [[st' newPatient]|] eqn:E.
  - exists st', newPatient. split; [reflexivity|].
    refine (proj1 (search_finds_admitted_patient two_patients _ st' newPatient E _ _)).
    + reflexivity.
    + vm_compute. intros [H|[H|[]]]; discriminate.
  - vm_compute in E. discriminate.
Defined.

Lemma addPatientRecord_malloc_failure_witness :
  exists st' newPatient,
    addPatientRecord two_patients admission_without_memory = Some (st', newPatient)
    /\ patientHead st' = []
    /\ totalPatients st' = wrap_int (totalPatients two_patients + 1).
Proof.
  destruct (addPatientRecord two_patients admission_without_memory)
    as [[st' newPatient]|] eqn:E.
  - exists st', newPatient. split; [reflexivity|].
    destruct (addPatientRecord_malloc_failure two_patients _ st' newPatient E eq_refl)
      as [Hhead [Hcount _]].
    now split.
  - vm_compute in E. discriminate.
Defined.

Lemma search_after_discharge_witness :
  let st' := dischargePatient two_patients (discharge 1 "y" 1700003600 true update_ok) in
  getPatientFromList 1 (patientHead st') = None
  /\ archived_records st'
     = archived_records two_patients
       ++ [{| patient := jane; dischargeDate := 1700003600 |}].
Proof.
  destruct (search_after_discharge two_patients
              (discharge 1 "y" 1700003600 true update_ok) jane
              eq_refl eq_refl eq_refl eq_refl) as [Hnone [_ [_ Harchive]]].
  - vm_compute. constructor; [intros [H|[]]; discriminate|].
    constructor; [intros []| constructor].
  - now split.
Defined.

(** *** Invariants of runs *)

Let sample_run : list Operation :=
  [OpAdmit (admission "Jane Doe" 12 1700000000);
   OpAdmit (admission "Omar Haddad" 7 1700000600);
   OpDischarge (discharge 1 "y" 1700003600 true update_ok);
   OpBackup update_ok;
   OpAdmit (admission "Li Wei" 12 1700007200)].

Lemma sample_run_allocates : admissions_allocate sample_run.
Proof.
  intros inp Hin. repeat (destruct Hin as [H|Hin]; [try discriminate H|]).
  - injection H as <-. reflexivity.
  - injection H as <-. reflexivity.
  - injection H as <-. reflexivity.
  - destruct Hin.
Qed.

Lemma count_matches_in_runs_witness :
  exists st', run initial_state sample_run = Some st' /\ count_matches st'.
Proof.
  destruct (run initial_state sample_run) as [st'|] eqn:E.
  - exists st'. split; [reflexivity|].
    apply (count_matches_in_runs sample_run initial_state st').
    + reflexivity.
    + reflexivity.
    + exact sample_run_allocates.
    + vm_compute. discriminate.
    + exact E.
  - vm_compute in E. discriminate.
Defined.

Lemma records_conserved_in_runs_witness :
  exists st',
    run initial_state sample_run = Some st'
    /\ Permutation
         (patientHead st' ++ map patient (archived_records st'))
         (patientHead initial_state ++ map patient (archived_records initial_state)
          ++ created_by initial_state sample_run).
Proof.
  destruct (run initial_state sample_run) as [st'|] eqn:E.
  - exists st'. split; [reflexivity|].
    apply (records_conserved_in_runs sample_run initial_state st').
    + reflexivity.
    + exact sample_run_allocates.
    + exact E.
  - vm_compute in E. discriminate.
Defined.

(** *** The append-only files *)

Lemma archive_and_log_append_only_witness :
  exists st',
    run two_patients
      [OpDischarge (discharge 1 "y" 1700003600 true update_ok);
       OpRestore load_ok;
       OpDischarge (discharge 2 "y" 1700007200 true update_no_tmp)] = Some st'
    /\ (exists added, archived_records st' = archived_records two_patients ++ added)
    /\ (exists text, log_text st' = (log_text two_patients ++ text)%string).
Proof.
  destruct (run two_patients
      [OpDischarge (discharge 1 "y" 1700003600 true update_ok);
       OpRestore load_ok;
       OpDischarge (discharge 2 "y" 1700007200 true update_no_tmp)])
    as [st'|] eqn:E.
  - exists st'. split; [reflexivity|].
    exact (archive_and_log_append_only _ two_patients st' E).
  - vm_compute in E. discriminate.
Defined.

(** *** The file as a mirror of the list *)

Lemma file_mirrors_list_in_runs_witness :
  exists st',
    run initial_state
      (sample_run ++ [OpRestore load_ok]) = Some st'
    /\ on_disk st'.
Proof.
  destruct (run initial_state (sample_run ++ [OpRestore load_ok]))
    as [st'|] eqn:E.
  - exists st'. split; [reflexivity|].
    apply (file_mirrors_list_in_runs (sample_run ++ [OpRestore load_ok])
             initial_state st').
    + split; [right; split; reflexivity | constructor].
    + vm_compute. repeat split; intros; reflexivity.
    + exact E.
  - vm_compute in E. discriminate.
Defined.

(** *** Loading, saving and loading again *)

Lemma load_counter_above_loaded_ids_witness :
  1 <= patientIDCounter (initializePatientSystem whole_store load_ok)
  /\ ~ In (patientIDCounter (initializePatientSystem whole_store load_ok))
          (active_ids (initializePatientSystem whole_store load_ok)).
Proof.
  destruct (load_counter_above_loaded_ids whole_store load_ok) as [H1 [_ H2]].
  - replace (patientHead (initializePatientSystem whole_store load_ok))
      with [jane; omar] by (vm_compute; reflexivity).
    constructor; [reflexivity|]. constructor; [reflexivity | constructor].
  - now split.
Defined.

Lemma restore_after_backup_witness :
  patientHead (restoreDataFromFile (backupPatientSystem two_patients update_ok) load_ok)
  = patientHead two_patients.
Proof.
  refine (proj1 (restore_after_backup two_patients update_ok load_ok _ _ _ _)).
  - constructor; [vm_compute; reflexivity|].
    constructor; [vm_compute; reflexivity | constructor].
  - repeat split; intros; reflexivity.
  - reflexivity.
  - intros k. reflexivity.
Defined.

Lemma backup_after_load_same_bytes_witness :
  patients_dat (backupPatientSystem (restoreDataFromFile whole_store load_ok) update_ok)
  = patients_dat whole_store.
Proof.
  apply (backup_after_load_same_bytes whole_store load_ok update_ok
           [SampleLayout.encode jane; SampleLayout.encode omar]).
  - reflexivity.
  - repeat constructor.
  - constructor; [vm_compute; reflexivity|].
    constructor; [vm_compute; reflexivity | constructor].
  - reflexivity.
  - intros k. reflexivity.
  - repeat split; intros; reflexivity.
Defined.

Lemma updatePatientsFile_rename_failure_witness :
  let io := {| tmp_open_ok := true; tmp_write_ok := fun _ => true;
               tmp_close_ok := true; dat_remove_ok := true;
               dat_rename_ok := false |} in
  patients_dat (updatePatientsFile two_patients io) = None
  /\ patients_tmp (updatePatientsFile two_patients io)
     = Some (file_image (patientHead two_patients)).
Proof.
  intros io.
  apply (updatePatientsFile_rename_failure two_patients io
           (SampleLayout.encode jane ++ SampleLayout.encode omar)).
  - reflexivity.
  - reflexivity.
  - intros k. reflexivity.
  - reflexivity.
  - reflexivity.
  - reflexivity.
Defined.

(** *** Reports by timeframe *)

Lemma daily_admission_report_window_witness :
  StaticBuffer.displayPatientReport SampleClock.localtime true 1 1700088200 1700088200
    [SampleClock.last_year; jane; omar] true
  = Some (2, [jane; omar]).
Proof.
  refine (daily_admission_report_window SampleClock.localtime true 1700088200
            [SampleClock.last_year; jane; omar] _ _).
  - vm_compute. discriminate.
  - repeat constructor; vm_compute; discriminate.
Defined.

Lemma daily_discharge_report_window_witness :
  StaticBuffer.displayDischargedPatientReport SampleClock.localtime true 1
    1700090000 1700090000
    (Some [{| patient := jane; dischargeDate := 1700000000 |};
           {| patient := omar; dischargeDate := 1700003600 |}]) true true true
  = Some (1, [{| patient := omar; dischargeDate := 1700003600 |}]).
Proof.
  refine (daily_discharge_report_window SampleClock.localtime true 1700090000
            [{| patient := jane; dischargeDate := 1700000000 |};
             {| patient := omar; dischargeDate := 1700003600 |}] _ _).
  - vm_compute. discriminate.
  - repeat constructor; vm_compute; discriminate.
Defined.

Lemma report_of_unknown_timeframe_is_empty_witness :
  StaticBuffer.displayPatientReport SampleClock.localtime true 4 1700003600
    1700003600 [jane; omar] true
  = Some (0, []).
Proof.
  refine (proj1 (report_of_unknown_timeframe_is_empty SampleClock.localtime true 4
                   1700003600 1700003600 [jane; omar] None true true _ _ _));
    discriminate.
Defined.

Lemma weekly_admission_report_lists_every_record_witness :
  StaticBuffer.displayPatientReport SampleClock.localtime true 2 1700003600
    1700003600 [SampleClock.last_year; jane; omar] true
  = Some (2, [SampleClock.last_year; jane; omar]).
Proof.
  refine (weekly_admission_report_lists_every_record SampleClock.localtime 2
            1700003600 [SampleClock.last_year; jane; omar] _ _).
  - now left.
  - vm_compute. discriminate.
Defined.

Lemma weekly_discharge_report_lists_every_record_witness :
  StaticBuffer.displayDischargedPatientReport SampleClock.localtime true 3
    1700003600 1700003600
    (Some [{| patient := SampleClock.last_year; dischargeDate := 1600003600 |};
           {| patient := jane; dischargeDate := 1700003000 |}]) true true true
  = Some (2, [{| patient := SampleClock.last_year; dischargeDate := 1600003600 |};
              {| patient := jane; dischargeDate := 1700003000 |}]).
Proof.
  refine (weekly_discharge_report_lists_every_record SampleClock.localtime 3
            1700003600
            [{| patient := SampleClock.last_year; dischargeDate := 1600003600 |};
             {| patient := jane; dischargeDate := 1700003000 |}] _ _).
  - now right.
  - vm_compute. discriminate.
Defined.


(** *** The usage log read back *)

Lemma logged_rooms_are_counted_witness :
  exists report,
    displayRoomUsageReport (room_usage_txt (log_rooms initial_state [12; 77; 12])) true
      = Some report
    /\ totalRead report = 3
    /\ validLogged report = 2
    /\ warnings report = [77]
    /\ rows report = [(12, 2)].
Proof.
  destruct (logged_rooms_are_counted initial_state [12; 77; 12])
    as [_ [report [Hreport [Htotal [Hvalid [Hwarn Hrows]]]]]].
  - reflexivity.
  - discriminate.
  - vm_compute. discriminate.
  - exists report. split; [exact Hreport|].
    split; [exact Htotal|]. split; [exact Hvalid|]. split; [exact Hwarn|].
    rewrite Hrows. vm_compute. reflexivity.
Defined.

End FurtherConcreteRuns.

(** *** The array variant *)

Section ArrayRuns.

Import ArrayVariant ArraySample.

Lemma two_used_packed : packed two_used 2.
Proof.
  split; [reflexivity|]. split; [cbn; lia|]. split; [reflexivity|]. split.
  - intros [|[|j]] Hj; [discriminate | discriminate | lia].
  - intros [|[|[|j]]] Hj; [lia | lia | reflexivity |]. destruct j; reflexivity.
Qed.

Lemma full_packed : packed full 3.
Proof.
  split; [reflexivity|]. split; [cbn; lia|]. split; [reflexivity|]. split.
  - intros [|[|[|j]]] Hj; [discriminate | discriminate | discriminate | lia].
  - intros [|[|[|j]]] Hj; [lia | lia | lia |]. destruct j; reflexivity.
Qed.

Lemma sample_capacity_fits_int : Z.of_nat MAX_PATIENT_CAPACITY <= INT_MAX.
Proof. vm_compute. discriminate. Qed.

Lemma removePatientFromSystem_shifts_witness :
  patients (removePatientFromSystem full 0) = [bob; eve; eve]
  /\ totalPatients (removePatientFromSystem full 0) = 2.
Proof.
  destruct (ArrayVariantTheory.removePatientFromSystem_shifts full 0%nat)
    as [Hslots [_ Hcount]].
  - reflexivity.
  - cbn. lia.
  - split; [exact Hslots | exact Hcount].
Defined.

Lemma addPatientRecord_packed_witness :
  exists st',
    addPatientRecord two_used entry = Some st'
    /\ viewPatientRecords st'
       = [ann; bob;
          {| patientId := 3; name := "Eve"; age := 57; diagnosis := "Fracture";
             roomNumber := 12 |}].
Proof.
  destruct (ArrayVariantTheory.addPatientRecord_packed sample_capacity_fits_int
              two_used 2%nat entry two_used_packed) as [_ Hadd].
  - unfold INT_MAX. cbn. lia.
  - discriminate.
  - reflexivity.
  - reflexivity.
  - reflexivity.
  - reflexivity.
  - destruct Hadd as [st' [Hst [_ [Hview _]]]]; [cbn; lia|].
    exists st'. split; [exact Hst | exact Hview].
Defined.

Lemma dischargePatient_packed_witness :
  viewPatientRecords (dischargePatient two_used 1 "y") = [bob].
Proof.
  destruct (ArrayVariantTheory.dischargePatient_packed sample_capacity_fits_int
              two_used 2%nat 1 0%nat two_used_packed) as [_ [_ Hview]].
  - cbn. lia.
  - discriminate.
  - reflexivity.
  - exact Hview.
Defined.

Lemma dischargePatient_full_store_witness :
  totalPatients (dischargePatient full 1 "y") = 2
  /\ viewPatientRecords (dischargePatient full 1 "y") = [bob; eve; eve].
Proof.
  destruct (ArrayVariantTheory.dischargePatient_full_store sample_capacity_fits_int
              full 1 0%nat full_packed) as [Hcount Hview].
  - cbn. lia.
  - reflexivity.
  - split; [exact Hcount | exact Hview].
Defined.

Lemma dischargePatient_of_free_slot_witness :
  searchPatientById two_used 0 = Some zero_patient
  /\ patients (dischargePatient two_used 0 "y") = patients two_used
  /\ totalPatients (dischargePatient two_used 0 "y") = 1.
Proof.
  destruct (ArrayVariantTheory.dischargePatient_of_free_slot sample_capacity_fits_int
              two_used 2%nat two_used_packed) as [_ [Hsearch [Hslots Hcount]]].
  - cbn. lia.
  - split; [exact Hsearch|]. split; [exact Hslots | exact Hcount].
Defined.

End ArrayRuns.
